(** * Wio Terminal PC monitor: firmware model and verified properties

    A shallow embedding of [wio-terminal/src/main.cpp] (the BLE-capable
    firmware) and of the older serial-only firmware, followed by the
    theorems that settle the specification's claims about the line
    assembler, the protocol parser, the freshness test, the delta
    renderer and the display power state machine. *)

From Stdlib Require Import ZArith List String Ascii Bool Lia.
From Stdlib Require Import Floats.SpecFloat.
From Stdlib Require Import DecimalString.
Import ListNotations.
Local Open Scope string_scope.
Local Open Scope Z_scope.

(* ===================================================================== *)
(** * Single-precision floats

    The firmware computes with C++ [float] on a Cortex-M4F: IEEE 754
    binary32, round to nearest even.  [spec_float] with [prec = 24] and
    [emax = 128] is exactly that format. *)
(* ===================================================================== *)

Definition f32 : Type := spec_float.

Definition f32_prec : Z := 24.
Definition f32_emax : Z := 128.

Definition f32_valid (x : f32) : bool := valid_binary f32_prec f32_emax x.

Definition f32_add : f32 -> f32 -> f32 := SFadd f32_prec f32_emax.
Definition f32_mul : f32 -> f32 -> f32 := SFmul f32_prec f32_emax.
Definition f32_div : f32 -> f32 -> f32 := SFdiv f32_prec f32_emax.

(** [a < b] and [a > b] on floats: false as soon as one side is NaN. *)
Definition f32_lt (a b : f32) : bool := SFltb a b.
Definition f32_gt (a b : f32) : bool := SFltb b a.

(** Conversion [int -> float] (exact for the small constants used). *)
Definition f32_of_Z (n : Z) : f32 := binary_normalize f32_prec f32_emax n 0 false.

(** The float nearest to the rational [num / den] ([den > 0]); the sign is
    passed apart so that a negative zero can be produced. *)
Definition f32_of_ratio (neg : bool) (num den : positive) : f32 :=
  let '(q, e, l) := SFdiv_core_binary f32_prec f32_emax (Zpos num) 0 (Zpos den) 0 in
  binary_round_aux f32_prec f32_emax neg q e l.

Definition INT_MAX : Z := 2147483647.
Definition INT_MIN : Z := -2147483648.

(** The cast [(int) x]: truncation toward zero.  Outside the range of
    [int] and on NaN the cast is undefined in C++; the target's conversion
    instruction (VCVT) saturates and sends NaN to 0, which is what is
    modelled here. *)
Definition f32_to_int (x : f32) : Z :=
  match x with
  | S754_zero _ => 0
  | S754_nan => 0
  | S754_infinity s => if s then INT_MIN else INT_MAX
  | S754_finite s m e =>
      let mag := match e with
                 | Zneg k => Z.shiftr (Zpos m) (Zpos k)
                 | _ => Z.shiftl (Zpos m) e
                 end in
      if s then Z.max INT_MIN (- mag) else Z.min INT_MAX mag
  end.

(** The exact value of a finite float, scaled by [10^d] and rounded to the
    nearest integer, ties to even: the digits that [printf("%.<d>f")]
    prints. *)
Definition round_half_even (num den : Z) : Z :=
  let q := num / den in
  let r := num mod den in
  match (2 * r ?= den) with
  | Lt => q
  | Gt => q + 1
  | Eq => if Z.even q then q else q + 1
  end.

Definition scaled_digits (d : nat) (m : positive) (e : Z) : Z :=
  let p10 := 10 ^ Z.of_nat d in
  match e with
  | Zneg k => round_half_even (Zpos m * p10) (2 ^ Zpos k)
  | _ => Zpos m * 2 ^ e * p10
  end.

Definition string_of_nonneg (n : Z) : string :=
  NilZero.string_of_uint (N.to_uint (Z.to_N n)).

Fixpoint zeros (n : nat) : string :=
  match n with
  | O => ""
  | S k => "0" ++ zeros k
  end.

Definition zero_pad (width : nat) (s : string) : string :=
  zeros (width - String.length s) ++ s.

(** [printf("%.<d>f", x)] *)
Definition fmt_fixed (d : nat) (x : f32) : string :=
  match x with
  | S754_nan => "nan"
  | S754_infinity s => if s then "-inf" else "inf"
  | S754_zero s =>
      (if s then "-" else "") ++ "0" ++
      (match d with O => "" | _ => "." ++ zeros d end)
  | S754_finite s m e =>
      let n := scaled_digits d m e in
      let p10 := 10 ^ Z.of_nat d in
      (if s then "-" else "") ++ string_of_nonneg (n / p10) ++
      (match d with
       | O => ""
       | _ => "." ++ zero_pad d (string_of_nonneg (n mod p10))
       end)
  end.

Definition f32_zero : f32 := S754_zero false.
Definition f32_half : f32 := Eval cbv in f32_of_ratio false 1 2.
Definition f32_ten : f32 := Eval cbv in f32_of_Z 10.
Definition f32_hundred : f32 := Eval cbv in f32_of_Z 100.
Definition f32_minus_one : f32 := Eval cbv in f32_of_Z (-1).

(* ===================================================================== *)
(** * The Arduino [String] operations the firmware calls

    [String] is modelled as [string]; the operations follow the Arduino
    core (WString): [indexOf] answers [-1] when the character is absent or
    the start index is past the end, [substring] clips its bounds, [trim]
    strips [isspace] characters at both ends.  The text of a [String] may
    hold NUL bytes ([lineBuf += c] appends any byte and counts it);
    [indexOf] is [strchr] on the buffer and does not look past the first
    of them. *)
(* ===================================================================== *)

Definition NL : ascii := "010"%char.
Definition CR : ascii := "013"%char.
Definition COMMA : ascii := ","%char.
Definition NUL : ascii := "000"%char.

Definition isspace (c : ascii) : bool :=
  let n := nat_of_ascii c in
  Nat.eqb n 32 || (Nat.leb 9 n && Nat.leb n 13).

Definition strlen (s : string) : Z := Z.of_nat (String.length s).

Fixpoint drop (n : nat) (s : string) : string :=
  match n, s with
  | O, _ => s
  | S k, String _ r => drop k r
  | S _, EmptyString => EmptyString
  end.

Fixpoint take (n : nat) (s : string) : string :=
  match n, s with
  | O, _ => EmptyString
  | S k, String c r => String c (take k r)
  | S _, EmptyString => EmptyString
  end.

(** [strchr]: offset of the first [ch] in the bytes of [s].  The search
    ends at the first NUL byte, or at the terminator that follows the last
    byte; the terminator itself is found when [ch] is NUL. *)
Fixpoint find_char (ch : ascii) (s : string) : option nat :=
  match s with
  | EmptyString => if Ascii.eqb ch NUL then Some O else None
  | String c r =>
      if Ascii.eqb c ch then Some O
      else if Ascii.eqb c NUL then None
      else match find_char ch r with
           | Some k => Some (S k)
           | None => None
           end
  end.

Definition UINT_MOD : Z := 2 ^ 32.

(** An [int] passed where an [unsigned int] is expected. *)
Definition to_unsigned (i : Z) : Z := if i <? 0 then i + UINT_MOD else i.

(** [int String::indexOf(char ch, unsigned int fromIndex)] *)
Definition indexOf_from (ch : ascii) (fromIndex : Z) (s : string) : Z :=
  let from := to_unsigned fromIndex in
  if strlen s <=? from then -1
  else match find_char ch (drop (Z.to_nat from) s) with
       | Some k => from + Z.of_nat k
       | None => -1
       end.

(** [int String::indexOf(char ch)] *)
Definition indexOf (ch : ascii) (s : string) : Z := indexOf_from ch 0 s.

(** [String String::substring(unsigned int left, unsigned int right)] *)
Definition substring (left right : Z) (s : string) : string :=
  let l := to_unsigned left in
  let r := to_unsigned right in
  let '(l, r) := if r <? l then (r, l) else (l, r) in
  if strlen s <=? l then EmptyString
  else
    let r := if strlen s <? r then strlen s else r in
    take (Z.to_nat (r - l)) (drop (Z.to_nat l) s).

(** [String String::substring(unsigned int beginIndex)] *)
Definition substring_from (beginIndex : Z) (s : string) : string :=
  substring beginIndex (strlen s) s.

Fixpoint ltrim (s : string) : string :=
  match s with
  | EmptyString => EmptyString
  | String c r => if isspace c then ltrim r else s
  end.

Fixpoint rtrim (s : string) : string :=
  match s with
  | EmptyString => EmptyString
  | String c r =>
      match rtrim r with
      | EmptyString => if isspace c then EmptyString else String c EmptyString
      | r' => String c r'
      end
  end.

(** [void String::trim()] *)
Definition trim (s : string) : string := rtrim (ltrim s).

(** [lineBuf += c] *)
Definition append_char (s : string) (c : ascii) : string :=
  s ++ String c EmptyString.

(** [incoming.endsWith("\n")] *)
Fixpoint endsWith_char (c : ascii) (s : string) : bool :=
  match s with
  | EmptyString => false
  | String a EmptyString => Ascii.eqb a c
  | String _ r => endsWith_char c r
  end.

(** [String(s.c_str())]: the bytes of a [std::string] up to its first NUL. *)
Fixpoint c_str (s : string) : string :=
  match s with
  | EmptyString => EmptyString
  | String c r => if Ascii.eqb c NUL then EmptyString else String c (c_str r)
  end.

(* ===================================================================== *)
(** * Text to number *)
(* ===================================================================== *)

Definition is_digit (c : ascii) : bool :=
  let n := nat_of_ascii c in Nat.leb 48 n && Nat.leb n 57.

Definition digit_val (c : ascii) : Z := Z.of_nat (nat_of_ascii c) - 48.

(** Reads a run of decimal digits: the number read so far, how many digits
    were read, and the rest of the text. *)
Fixpoint scan_digits (acc : Z) (count : nat) (s : string) : Z * nat * string :=
  match s with
  | String c r =>
      if is_digit c then scan_digits (10 * acc + digit_val c) (S count) r
      else (acc, count, s)
  | EmptyString => (acc, count, s)
  end.

Definition scan_sign (s : string) : bool * string :=
  match s with
  | String "-"%char r => (true, r)
  | String "+"%char r => (false, r)
  | _ => (false, s)
  end.

(** An exponent part [e<sign><digits>]; 0 when there is none. *)
Definition scan_exponent (s : string) : Z :=
  match s with
  | String c r =>
      if Ascii.eqb c "e"%char || Ascii.eqb c "E"%char then
        let '(neg, r1) := scan_sign r in
        let '(v, n, _) := scan_digits 0 0 r1 in
        match n with
        | O => 0
        | _ => if neg then - v else v
        end
      else 0
  | EmptyString => 0
  end.

(** The float nearest to [m * 10^e10], with the sign [neg]. *)
Definition f32_of_decimal (neg : bool) (m : Z) (e10 : Z) : f32 :=
  match m with
  | Zpos p =>
      match e10 with
      | Zneg k => f32_of_ratio neg p (Pos.pow 10 k)
      | Z0 => f32_of_ratio neg p 1
      | Zpos k => f32_of_ratio neg (p * Pos.pow 10 k) 1
      end
  | _ => S754_zero neg
  end.

(** [double]: IEEE binary64. *)
Definition f64 : Type := spec_float.

Definition f64_prec : Z := 53.
Definition f64_emax : Z := 1024.

(** The double nearest to [num / den]. *)
Definition f64_of_ratio (neg : bool) (num den : positive) : f64 :=
  let '(q, e, l) := SFdiv_core_binary f64_prec f64_emax (Zpos num) 0 (Zpos den) 0 in
  binary_round_aux f64_prec f64_emax neg q e l.

(** The double nearest to [m * 10^e10]. *)
Definition f64_of_decimal (neg : bool) (m : Z) (e10 : Z) : f64 :=
  match m with
  | Zpos p =>
      match e10 with
      | Zneg k => f64_of_ratio neg p (Pos.pow 10 k)
      | Z0 => binary_round f64_prec f64_emax neg p 0
      | Zpos k => binary_round f64_prec f64_emax neg (p * Pos.pow 10 k) 0
      end
  | _ => S754_zero neg
  end.

(** The double nearest to [m * 2^e2]. *)
Definition f64_of_binary (neg : bool) (m : Z) (e2 : Z) : f64 :=
  match m with
  | Zpos p => binary_round f64_prec f64_emax neg p e2
  | _ => S754_zero neg
  end.

(** The cast [(float) x] of a double. *)
Definition f32_of_f64 (x : f64) : f32 :=
  match x with
  | S754_finite s m e => binary_round f32_prec f32_emax s m e
  | _ => x
  end.

Definition hex_val (c : ascii) : option Z :=
  let n := nat_of_ascii c in
  if Nat.leb 48 n && Nat.leb n 57 then Some (Z.of_nat n - 48)
  else if Nat.leb 97 n && Nat.leb n 102 then Some (Z.of_nat n - 87)
  else if Nat.leb 65 n && Nat.leb n 70 then Some (Z.of_nat n - 55)
  else None.

(** Reads a run of hexadecimal digits, as [scan_digits] does decimal
    ones. *)
Fixpoint scan_hex (acc : Z) (count : nat) (s : string) : Z * nat * string :=
  match s with
  | String c r =>
      match hex_val c with
      | Some v => scan_hex (16 * acc + v) (S count) r
      | None => (acc, count, s)
      end
  | EmptyString => (acc, count, s)
  end.

(** A binary exponent part [p<sign><digits>]; 0 when there is none. *)
Definition scan_binary_exponent (s : string) : Z :=
  match s with
  | String c r =>
      if Ascii.eqb c "p"%char || Ascii.eqb c "P"%char then
        let '(neg, r1) := scan_sign r in
        let '(v, n, _) := scan_digits 0 0 r1 in
        match n with
        | O => 0
        | _ => if neg then - v else v
        end
      else 0
  | EmptyString => 0
  end.

Definition to_lower (c : ascii) : ascii :=
  let n := nat_of_ascii c in
  if Nat.leb 65 n && Nat.leb n 90 then ascii_of_nat (n + 32) else c.

(** [s] begins with the lower-case word [w], in either case. *)
Fixpoint starts_with_ci (w s : string) : bool :=
  match w, s with
  | EmptyString, _ => true
  | String a w', String c s' => Ascii.eqb (to_lower c) a && starts_with_ci w' s'
  | String _ _, EmptyString => false
  end.

Definition is_hex_prefix (s : string) : bool :=
  match s with
  | String "0"%char (String c _) => Ascii.eqb c "x"%char || Ascii.eqb c "X"%char
  | _ => false
  end.

(** The hexadecimal form, read after its [0x]: digits with an optional
    point and an optional binary exponent; nothing when no digit
    follows. *)
Definition strtod_hex (neg : bool) (r : string) : option f64 :=
  let '(ip, ni, s2) := scan_hex 0 0 r in
  let '(m, nf, s3) :=
    match s2 with
    | String "."%char r' => scan_hex ip 0 r'
    | _ => (ip, O, s2)
    end in
  match (ni + nf)%nat with
  | O => None
  | _ => Some (f64_of_binary neg m (scan_binary_exponent s3 - 4 * Z.of_nat nf))
  end.

(** The decimal form: digits with an optional point and an optional
    exponent; [+0] when there is no digit. *)
Definition strtod_decimal (neg : bool) (s1 : string) : f64 :=
  let '(ip, ni, s2) := scan_digits 0 0 s1 in
  let '(m, nf, s3) :=
    match s2 with
    | String "."%char r => scan_digits ip 0 r
    | _ => (ip, O, s2)
    end in
  match (ni + nf)%nat with
  | O => S754_zero false
  | _ => f64_of_decimal neg m (scan_exponent s3 - Z.of_nat nf)
  end.

(** Modelled from the spec: [strtod] of the C library, which is not part
    of the repository.  The specification describes the conversion as
    best-effort numeric parsing in the manner of permissive
    textual-to-number conversion: leading white space is skipped, the
    longest prefix that reads as a number is converted to the nearest
    double, and a text that does not begin with a number converts to [0].
    A number is a sign followed by decimal digits with an optional point
    and exponent, by [0x] and hexadecimal digits with an optional point
    and binary exponent, by [inf] or [infinity], or by [nan]. *)
Definition strtod (s : string) : f64 :=
  let '(neg, s1) := scan_sign (ltrim s) in
  if starts_with_ci "inf" s1 then S754_infinity neg
  else if starts_with_ci "nan" s1 then S754_nan
  else
    match (if is_hex_prefix s1 then strtod_hex neg (drop 2 s1) else None) with
    | Some x => x
    | None => strtod_decimal neg s1
    end.

(** Modelled from the spec: [String::toFloat] belongs to the Arduino core
    and is not part of the repository.  The specification describes it as
    best-effort numeric parsing; the core computes [float(atof(buffer))],
    the double read by [strtod] cast to [float], so that a text is rounded
    twice, to binary64 and then to binary32. *)
Definition toFloat (s : string) : f32 := f32_of_f64 (strtod s).

(* ===================================================================== *)
(** * The display, the radio and the clock as seen by the firmware *)
(* ===================================================================== *)

Inductive color :=
  TFT_BLACK | TFT_WHITE | TFT_DARKGREY | TFT_GREEN | TFT_CYAN | TFT_ORANGE
| TFT_RED | TFT_YELLOW.

Inductive datum := TL_DATUM | MR_DATUM.

(** Every call the firmware makes into the display driver, the backlight
    pin, the delay routine and the Bluetooth stack, in the order made. *)
Inductive Op :=
| tft_init
| setRotation (r : Z)
| setSwapBytes (b : bool)
| fillScreen (c : color)
| fillRect (x y w h : Z) (c : color)
| fillCircle (x y r : Z) (c : color)
| drawLine (x0 y0 x1 y1 : Z) (c : color)
| drawString (s : string) (x y : Z)
| print (s : string)
| println (s : string)
| setCursor (x y : Z)
| setTextColor (fg bg : color)
| setTextSize (n : Z)
| setTextDatum (d : datum)
| setTextPadding (n : Z)
| digitalWrite_LCD_BACKLIGHT (high : bool)
| delay (ms : Z)
| ble_setValue_notify (s : string)
| SerialBT_println (s : string).

(** The calls that put pixels on the panel; the others only set the
    driver's text state, the backlight, or talk to the radio. *)
Definition is_drawing (o : Op) : bool :=
  match o with
  | fillScreen _ | fillRect _ _ _ _ _ | fillCircle _ _ _ _
  | drawLine _ _ _ _ _ | drawString _ _ _ | print _ | println _ => true
  | _ => false
  end.

Definition drawing_ops (l : list Op) : list Op := filter is_drawing l.

(** The three ways [main.cpp] is compiled, chosen by which Bluetooth
    header is found. *)
Inductive Build := RPC_BLE_SUPPORTED | BT_HARDWARE_SUPPORTED | NO_BLUETOOTH.

Definition BT_AVAILABLE (b : Build) : bool :=
  match b with
  | NO_BLUETOOTH => false
  | _ => true
  end.

(* ===================================================================== *)
(** * Firmware state *)
(* ===================================================================== *)

Definition SCREEN_W : Z := 320.
Definition SCREEN_H : Z := 240.
Definition PADDING : Z := 8.
Definition LABEL_W : Z := 70.
Definition BAR_H : Z := 22.
Definition LCD_SLEEP_TIMEOUT_MS : Z := 60 * 1000.

Record Metrics := mkMetrics {
  cpu : f32;
  tempC : f32;
  ram : f32;
  gpu : f32;
  gpuTempC : f32
}.

(** [Metrics m;] with the member initialisers of the struct. *)
Definition Metrics_init : Metrics :=
  {| cpu := f32_zero; tempC := f32_minus_one; ram := f32_zero;
     gpu := f32_minus_one; gpuTempC := f32_zero |}.

Record LastDrawn := mkLastDrawn {
  ld_cpu : Z;
  ld_ram : Z;
  ld_gpu : Z;
  ld_tempC : Z;
  ld_gpuTempC : Z
}.

Definition LastDrawn_init : LastDrawn :=
  {| ld_cpu := -1000; ld_ram := -1000; ld_gpu := -1000;
     ld_tempC := -1000; ld_gpuTempC := -1000 |}.

(** Receive path. *)
Record Rx := mkRx {
  rx_current : Metrics;
  rx_lineBuf : string;
  rx_lastLineShown : string;
  rx_receivedOnce : bool;
  rx_lastRxMillis : Z
}.

(** Panel power, layout and status cadence. *)
Record Lcd := mkLcd {
  lcd_isLcdOn : bool;
  lcd_lastRender : Z;
  lcd_Y_CPU : Z;
  lcd_Y_GPU : Z;
  lcd_Y_RAM : Z;
  lcd_Y_GPUTEMP : Z;
  lcd_Y_TEMP : Z
}.

(** Last drawn bar widths and last drawn values. *)
Record DrawCache := mkDrawCache {
  dc_lastCpuW : Z;
  dc_lastRamW : Z;
  dc_lastGpuW : Z;
  dc_lastDrawn : LastDrawn
}.

(** BLE globals; [ble_metricsCharacteristic] tells whether the pointer is
    non-null. *)
Record Ble := mkBle {
  ble_metricsCharacteristic : bool;
  ble_lastBlePacket : string;
  ble_haveBlePacket : bool
}.

(** What the firmware reads from outside: the bytes waiting in the serial
    receiver, and the clock, as the readings that successive calls of
    [millis()] return. *)
Record World := mkWorld {
  serial_rx : string;
  clock : nat -> Z;
  ticks : nat
}.

Record Device := mkDevice {
  rx : Rx;
  lcd : Lcd;
  cache : DrawCache;
  ble : Ble;
  world : World
}.

Definition upd_rx (f : Rx -> Rx) (d : Device) : Device :=
  mkDevice (f (rx d)) (lcd d) (cache d) (ble d) (world d).
Definition upd_lcd (f : Lcd -> Lcd) (d : Device) : Device :=
  mkDevice (rx d) (f (lcd d)) (cache d) (ble d) (world d).
Definition upd_cache (f : DrawCache -> DrawCache) (d : Device) : Device :=
  mkDevice (rx d) (lcd d) (f (cache d)) (ble d) (world d).
Definition upd_ble (f : Ble -> Ble) (d : Device) : Device :=
  mkDevice (rx d) (lcd d) (cache d) (f (ble d)) (world d).
Definition upd_world (f : World -> World) (d : Device) : Device :=
  mkDevice (rx d) (lcd d) (cache d) (ble d) (f (world d)).

(** A global variable: how to read it from and write it to the state.
    A C++ reference parameter ([int &lastWRef]) is passed as one of these. *)
Record Var (A : Type) := mkVar {
  rd : Device -> A;
  wr : A -> Device -> Device
}.
Arguments rd {A} _ _.
Arguments wr {A} _ _ _.

Definition current : Var Metrics :=
  mkVar _ (fun d => rx_current (rx d))
    (fun v => upd_rx (fun r => mkRx v (rx_lineBuf r) (rx_lastLineShown r)
                                 (rx_receivedOnce r) (rx_lastRxMillis r))).
Definition lineBuf : Var string :=
  mkVar _ (fun d => rx_lineBuf (rx d))
    (fun v => upd_rx (fun r => mkRx (rx_current r) v (rx_lastLineShown r)
                                 (rx_receivedOnce r) (rx_lastRxMillis r))).
Definition lastLineShown : Var string :=
  mkVar _ (fun d => rx_lastLineShown (rx d))
    (fun v => upd_rx (fun r => mkRx (rx_current r) (rx_lineBuf r) v
                                 (rx_receivedOnce r) (rx_lastRxMillis r))).
Definition receivedOnce : Var bool :=
  mkVar _ (fun d => rx_receivedOnce (rx d))
    (fun v => upd_rx (fun r => mkRx (rx_current r) (rx_lineBuf r)
                                 (rx_lastLineShown r) v (rx_lastRxMillis r))).
Definition lastRxMillis : Var Z :=
  mkVar _ (fun d => rx_lastRxMillis (rx d))
    (fun v => upd_rx (fun r => mkRx (rx_current r) (rx_lineBuf r)
                                 (rx_lastLineShown r) (rx_receivedOnce r) v)).

Definition isLcdOn : Var bool :=
  mkVar _ (fun d => lcd_isLcdOn (lcd d))
    (fun v => upd_lcd (fun l => mkLcd v (lcd_lastRender l) (lcd_Y_CPU l)
                                  (lcd_Y_GPU l) (lcd_Y_RAM l) (lcd_Y_GPUTEMP l)
                                  (lcd_Y_TEMP l))).
Definition lastRender : Var Z :=
  mkVar _ (fun d => lcd_lastRender (lcd d))
    (fun v => upd_lcd (fun l => mkLcd (lcd_isLcdOn l) v (lcd_Y_CPU l)
                                  (lcd_Y_GPU l) (lcd_Y_RAM l) (lcd_Y_GPUTEMP l)
                                  (lcd_Y_TEMP l))).
Definition Y_CPU : Var Z :=
  mkVar _ (fun d => lcd_Y_CPU (lcd d))
    (fun v => upd_lcd (fun l => mkLcd (lcd_isLcdOn l) (lcd_lastRender l) v
                                  (lcd_Y_GPU l) (lcd_Y_RAM l) (lcd_Y_GPUTEMP l)
                                  (lcd_Y_TEMP l))).
Definition Y_GPU : Var Z :=
  mkVar _ (fun d => lcd_Y_GPU (lcd d))
    (fun v => upd_lcd (fun l => mkLcd (lcd_isLcdOn l) (lcd_lastRender l)
                                  (lcd_Y_CPU l) v (lcd_Y_RAM l) (lcd_Y_GPUTEMP l)
                                  (lcd_Y_TEMP l))).
Definition Y_RAM : Var Z :=
  mkVar _ (fun d => lcd_Y_RAM (lcd d))
    (fun v => upd_lcd (fun l => mkLcd (lcd_isLcdOn l) (lcd_lastRender l)
                                  (lcd_Y_CPU l) (lcd_Y_GPU l) v (lcd_Y_GPUTEMP l)
                                  (lcd_Y_TEMP l))).
Definition Y_GPUTEMP : Var Z :=
  mkVar _ (fun d => lcd_Y_GPUTEMP (lcd d))
    (fun v => upd_lcd (fun l => mkLcd (lcd_isLcdOn l) (lcd_lastRender l)
                                  (lcd_Y_CPU l) (lcd_Y_GPU l) (lcd_Y_RAM l) v
                                  (lcd_Y_TEMP l))).
Definition Y_TEMP : Var Z :=
  mkVar _ (fun d => lcd_Y_TEMP (lcd d))
    (fun v => upd_lcd (fun l => mkLcd (lcd_isLcdOn l) (lcd_lastRender l)
                                  (lcd_Y_CPU l) (lcd_Y_GPU l) (lcd_Y_RAM l)
                                  (lcd_Y_GPUTEMP l) v)).

Definition lastCpuW : Var Z :=
  mkVar _ (fun d => dc_lastCpuW (cache d))
    (fun v => upd_cache (fun c => mkDrawCache v (dc_lastRamW c) (dc_lastGpuW c)
                                    (dc_lastDrawn c))).
Definition lastRamW : Var Z :=
  mkVar _ (fun d => dc_lastRamW (cache d))
    (fun v => upd_cache (fun c => mkDrawCache (dc_lastCpuW c) v (dc_lastGpuW c)
                                    (dc_lastDrawn c))).
Definition lastGpuW : Var Z :=
  mkVar _ (fun d => dc_lastGpuW (cache d))
    (fun v => upd_cache (fun c => mkDrawCache (dc_lastCpuW c) (dc_lastRamW c) v
                                    (dc_lastDrawn c))).
Definition lastDrawn : Var LastDrawn :=
  mkVar _ (fun d => dc_lastDrawn (cache d))
    (fun v => upd_cache (fun c => mkDrawCache (dc_lastCpuW c) (dc_lastRamW c)
                                    (dc_lastGpuW c) v)).

(** The members of [lastDrawn] that the firmware assigns one by one. *)
Definition lastDrawn_gpu : Var Z :=
  mkVar _ (fun d => ld_gpu (rd lastDrawn d))
    (fun v d => let l := rd lastDrawn d in
       wr lastDrawn (mkLastDrawn (ld_cpu l) (ld_ram l) v (ld_tempC l)
                       (ld_gpuTempC l)) d).
Definition lastDrawn_tempC : Var Z :=
  mkVar _ (fun d => ld_tempC (rd lastDrawn d))
    (fun v d => let l := rd lastDrawn d in
       wr lastDrawn (mkLastDrawn (ld_cpu l) (ld_ram l) (ld_gpu l) v
                       (ld_gpuTempC l)) d).
Definition lastDrawn_gpuTempC : Var Z :=
  mkVar _ (fun d => ld_gpuTempC (rd lastDrawn d))
    (fun v d => let l := rd lastDrawn d in
       wr lastDrawn (mkLastDrawn (ld_cpu l) (ld_ram l) (ld_gpu l) (ld_tempC l)
                       v) d).

Definition metricsCharacteristic : Var bool :=
  mkVar _ (fun d => ble_metricsCharacteristic (ble d))
    (fun v => upd_ble (fun b => mkBle v (ble_lastBlePacket b)
                                  (ble_haveBlePacket b))).
Definition lastBlePacket : Var string :=
  mkVar _ (fun d => ble_lastBlePacket (ble d))
    (fun v => upd_ble (fun b => mkBle (ble_metricsCharacteristic b) v
                                  (ble_haveBlePacket b))).
Definition haveBlePacket : Var bool :=
  mkVar _ (fun d => ble_haveBlePacket (ble d))
    (fun v => upd_ble (fun b => mkBle (ble_metricsCharacteristic b)
                                  (ble_lastBlePacket b) v)).

Definition Serial_pending : Var string :=
  mkVar _ (fun d => serial_rx (world d))
    (fun v => upd_world (fun w => mkWorld v (clock w) (ticks w))).

(* ===================================================================== *)
(** * A state monad that also collects the calls made *)
(* ===================================================================== *)

Record Res (A : Type) := mkRes {
  val : A;
  st : Device;
  ops : list Op
}.
Arguments mkRes {A} _ _ _.
Arguments val {A} _.
Arguments st {A} _.
Arguments ops {A} _.

Definition M (A : Type) : Type := Device -> Res A.

Definition ret {A : Type} (a : A) : M A := fun d => mkRes a d [].

Definition bind {A B : Type} (c : M A) (k : A -> M B) : M B :=
  fun d =>
    match c d with
    | mkRes a d1 o1 =>
        match k a d1 with
        | mkRes b d2 o2 => mkRes b d2 (o1 ++ o2)%list
        end
    end.

Declare Scope fw_scope.
Delimit Scope fw_scope with fw.
Notation "x <- c ;; k" := (bind c (fun x => k))
  (at level 61, c at next level, right associativity) : fw_scope.
Notation "c ;; k" := (bind c (fun _ => k))
  (at level 61, right associativity) : fw_scope.
Local Open Scope fw_scope.

Definition skip : M unit := ret tt.

(** [x] as an rvalue, and the assignment [x = v]. *)
Definition get {A : Type} (x : Var A) : M A := fun d => mkRes (rd x d) d [].
Definition set {A : Type} (x : Var A) (v : A) : M unit :=
  fun d => mkRes tt (wr x v d) [].
Notation "x ::= v" := (set x v) (at level 60, no associativity) : fw_scope.

(** One call into the display driver or another peripheral. *)
Definition call (o : Op) : M unit := fun d => mkRes tt d [o].

(** [if (b) c;] *)
Definition when (b : bool) (c : M unit) : M unit := if b then c else skip.

(** The value of the 32-bit millisecond counter [t] ms after power-on. *)
Definition millis_at (t : Z) : Z := t mod UINT_MOD.

(** The clock reading that the next call of [millis()] sees. *)
Definition time_now (d : Device) : Z := clock (world d) (ticks (world d)).

(** The state once that reading has been consumed. *)
Definition tick (d : Device) : Device :=
  upd_world (fun w => mkWorld (serial_rx w) (clock w) (S (ticks w))) d.

(** [millis()]: an [unsigned long] of 32 bits. *)
Definition millis : M Z :=
  fun d => mkRes (millis_at (time_now d)) (tick d) [].

(** Subtraction of two [unsigned long]. *)
Definition usub (a b : Z) : Z := (a - b) mod UINT_MOD.

(** [for each character of s, in order] *)
Fixpoint for_each_char (s : string) (body : ascii -> M unit) : M unit :=
  match s with
  | EmptyString => skip
  | String c r => body c ;; for_each_char r body
  end.

(* ===================================================================== *)
(** * The firmware: [wio-terminal/src/main.cpp] *)
(* ===================================================================== *)

(** [snprintf(buf, size, ...)]: at most [size - 1] characters are kept. *)
Definition snprintf (size : nat) (text : string) : string :=
  take (size - 1) text.

(** [barGeom(y, barX, barW)], the two results returned as a pair. *)
Definition barGeom (y : Z) : Z * Z :=
  let x := PADDING in
  let barX := x + LABEL_W + 6 in
  let barW := SCREEN_W - barX - PADDING in
  (barX, barW).

Definition drawStaticLabelsAndSlots : M unit :=
  call (setTextColor TFT_WHITE TFT_BLACK) ;;
  call (setTextSize 2) ;;
  y <- get Y_CPU ;; call (setCursor PADDING y) ;; call (print "CPU:") ;;
  y <- get Y_RAM ;; call (setCursor PADDING y) ;; call (print "RAM:") ;;
  y <- get Y_GPU ;; call (setCursor PADDING y) ;; call (print "GPU:") ;;
  y <- get Y_GPUTEMP ;; call (setCursor PADDING y) ;; call (print "G-TEMP:") ;;
  y <- get Y_TEMP ;; call (setCursor PADDING y) ;; call (print "TEMP:") ;;
  y <- get Y_CPU ;;
  call (fillRect (fst (barGeom y)) y (snd (barGeom y)) BAR_H TFT_DARKGREY) ;;
  y <- get Y_RAM ;;
  call (fillRect (fst (barGeom y)) y (snd (barGeom y)) BAR_H TFT_DARKGREY) ;;
  y <- get Y_GPU ;;
  call (fillRect (fst (barGeom y)) y (snd (barGeom y)) BAR_H TFT_DARKGREY).

(** [float v = value; if (v < 0) v = 0; if (v > 100) v = 100;] *)
Definition clamp_percent (value : f32) : f32 :=
  let v := value in
  let v := if f32_lt v f32_zero then f32_zero else v in
  let v := if f32_gt v f32_hundred then f32_hundred else v in
  v.

(** [(int)(bw * (v / 100.0f))] *)
Definition bar_width (bw : Z) (value : f32) : Z :=
  f32_to_int (f32_mul (f32_of_Z bw) (f32_div (clamp_percent value) f32_hundred)).

Definition updateBarFill (y : Z) (value : f32) (c : color) (lastWRef : Var Z)
  : M unit :=
  let bx := fst (barGeom y) in
  let bw := snd (barGeom y) in
  let newW := bar_width bw value in
  w0 <- get lastWRef ;;
  when (w0 <? 0) (lastWRef ::= 0) ;;
  lastW <- get lastWRef ;;
  if newW =? lastW then skip
  else
    (if newW >? lastW
     then call (fillRect (bx + lastW) y (newW - lastW) BAR_H c)
     else call (fillRect (bx + newW) y (lastW - newW) BAR_H TFT_DARKGREY)) ;;
    lastWRef ::= newW ;;
    let buf := snprintf 16 (fmt_fixed 0 value ++ "%") in
    call (setTextColor TFT_WHITE TFT_BLACK) ;;
    call (setTextDatum MR_DATUM) ;;
    call (setTextPadding 44) ;;
    call (drawString buf (SCREEN_W - PADDING) (y + BAR_H / 2)) ;;
    call (setTextDatum TL_DATUM).

Definition drawHeader : M unit :=
  call (setTextColor TFT_WHITE TFT_BLACK) ;;
  call (setTextSize 2) ;;
  call (setCursor PADDING PADDING) ;;
  call (println "Wio PC Monitor") ;;
  call (drawLine PADDING (PADDING + 20) (SCREEN_W - PADDING) (PADDING + 20)
          TFT_DARKGREY).

Definition drawTemp (y : Z) (t : f32) : M unit :=
  call (setTextColor TFT_WHITE TFT_BLACK) ;;
  call (setTextDatum MR_DATUM) ;;
  (if f32_lt t f32_zero then
     call (setTextPadding 64) ;;
     call (drawString "N/A" (SCREEN_W - PADDING) y)
   else
     let buf := snprintf 24 (fmt_fixed 0 t ++ "C") in
     call (setTextPadding 64) ;;
     call (drawString buf (SCREEN_W - PADDING) y)) ;;
  call (setTextDatum TL_DATUM).

Definition drawStaticLayoutOnce : M unit :=
  call (fillScreen TFT_BLACK) ;;
  drawHeader ;;
  Y_CPU ::= PADDING + 28 ;;
  y <- get Y_CPU ;; Y_RAM ::= y + 32 ;;
  y <- get Y_RAM ;; Y_GPU ::= y + 32 ;;
  y <- get Y_GPU ;; Y_GPUTEMP ::= y + 32 ;;
  y <- get Y_GPUTEMP ;; Y_TEMP ::= y + 32 ;;
  drawStaticLabelsAndSlots.

(** [(millis() - lastRxMillis) < threshold], the test of [drawStatus]. *)
Definition is_fresh (threshold now lastRx : Z) : bool :=
  usub now lastRx <? threshold.

Definition FRESH_MS : Z := 2500.

Section Firmware.

Variable build : Build.

Definition drawStatus : M unit :=
  let y := SCREEN_H - 28 in
  call (fillRect PADDING (y - 4) (SCREEN_W - 2 * PADDING) 28 TFT_BLACK) ;;
  now <- millis ;;
  lastRx <- get lastRxMillis ;;
  let fresh := is_fresh FRESH_MS now lastRx in
  let dot := if fresh then TFT_GREEN else TFT_RED in
  call (fillCircle (PADDING + 6) (y + 6) 5 dot) ;;
  call (setCursor (PADDING + 18) y) ;;
  call (setTextColor TFT_WHITE TFT_BLACK) ;;
  call (setTextSize 1) ;;
  once <- get receivedOnce ;;
  (if once then call (print (if fresh then " " else " "))
   else call (print "Waiting for data...")) ;;
  call (setCursor (SCREEN_W - 88) y) ;;
  call (setTextColor TFT_YELLOW TFT_BLACK) ;;
  call (print (if BT_AVAILABLE build then "" else "x")) ;;
  call (setTextColor TFT_WHITE TFT_BLACK).

Definition resetDrawCaches : M unit :=
  lastCpuW ::= -1 ;;
  lastRamW ::= -1 ;;
  lastGpuW ::= -1 ;;
  lastDrawn ::= LastDrawn_init.

(** [(t < 0) ? -1 : (int)(t * 10)] *)
Definition tenths (t : f32) : Z :=
  if f32_lt t f32_zero then -1 else f32_to_int (f32_mul t f32_ten).

(** [(g < 0) ? -1 : (int)(g + 0.5f)] *)
Definition rounded (g : f32) : Z :=
  if f32_lt g f32_zero then -1 else f32_to_int (f32_add g f32_half).

(** Lines 246-250 of [updateBarsAndTemps]: the CPU temperature. *)
Definition updateTemp (m : Metrics) : M unit :=
  let tempTenths := tenths (tempC m) in
  last <- get lastDrawn_tempC ;;
  when (negb (tempTenths =? last))
    (y <- get Y_TEMP ;;
     drawTemp y (tempC m) ;;
     lastDrawn_tempC ::= tempTenths).

(** Lines 252-256: the GPU load. *)
Definition updateGpu (m : Metrics) : M unit :=
  let gpuInt := rounded (gpu m) in
  last <- get lastDrawn_gpu ;;
  when (negb (gpuInt =? last))
    (y <- get Y_GPU ;;
     updateBarFill y (if f32_lt (gpu m) f32_zero then f32_zero else gpu m)
       TFT_ORANGE lastGpuW ;;
     lastDrawn_gpu ::= gpuInt).

(** Lines 257-271: the GPU temperature. *)
Definition updateGpuTemp (m : Metrics) : M unit :=
  let gpuTempTenths := tenths (gpuTempC m) in
  last <- get lastDrawn_gpuTempC ;;
  when (negb (gpuTempTenths =? last))
    (call (setTextColor TFT_WHITE TFT_BLACK) ;;
     call (setTextDatum MR_DATUM) ;;
     call (setTextPadding 64) ;;
     y <- get Y_GPUTEMP ;;
     (if f32_lt (gpuTempC m) f32_zero
      then call (drawString "N/A" (SCREEN_W - PADDING) y)
      else
        let buf := snprintf 24 (fmt_fixed 0 (gpuTempC m) ++ "C") in
        call (drawString buf (SCREEN_W - PADDING) y)) ;;
     call (setTextDatum TL_DATUM) ;;
     lastDrawn_gpuTempC ::= gpuTempTenths).

Definition updateBarsAndTemps (m : Metrics) : M unit :=
  call (setTextSize 2) ;;
  y <- get Y_CPU ;;
  updateBarFill y (cpu m) TFT_GREEN lastCpuW ;;
  updateTemp m ;;
  y <- get Y_RAM ;;
  updateBarFill y (ram m) TFT_CYAN lastRamW ;;
  updateGpu m ;;
  updateGpuTemp m.

Definition lcdSleep : M unit :=
  on <- get isLcdOn ;;
  if negb on then skip
  else
    call (fillScreen TFT_BLACK) ;;
    call (digitalWrite_LCD_BACKLIGHT false) ;;
    isLcdOn ::= false.

Definition lcdWake : M unit :=
  on <- get isLcdOn ;;
  if on then skip
  else
    call (digitalWrite_LCD_BACKLIGHT true) ;;
    call (delay 5) ;;
    drawStaticLayoutOnce ;;
    resetDrawCaches ;;
    cur <- get current ;;
    updateBarsAndTemps cur ;;
    drawStatus ;;
    isLcdOn ::= true.

(** [bool parseLine(const String &line, Metrics &out)]: the result and
    the value of [out] afterwards. *)
Definition parseLine (line : string) (out : Metrics) : bool * Metrics :=
  let idx1 := indexOf COMMA line in
  let idx2 := indexOf_from COMMA (idx1 + 1) line in
  let idx3 := indexOf_from COMMA (idx2 + 1) line in
  let idx4 := indexOf_from COMMA (idx3 + 1) line in
  if (idx1 <? 0) || (idx2 <? 0) || (idx3 <? 0) || (idx4 <? 0) then (false, out)
  else
    let sCPU := substring 0 idx1 line in
    let sTemp := substring (idx1 + 1) idx2 line in
    let sRAM := substring (idx2 + 1) idx3 line in
    let sGPU := substring (idx3 + 1) idx4 line in
    let sGPUTemp := substring_from (idx4 + 1) line in
    (true,
     {| cpu := toFloat sCPU; tempC := toFloat sTemp; ram := toFloat sRAM;
        gpu := toFloat sGPU; gpuTempC := toFloat sGPUTemp |}).

(** [String(float)]: two decimal places. *)
Definition String_of_float (x : f32) : string := fmt_fixed 2 x.

(** The text sent over Bluetooth for the current snapshot. *)
Definition bluetoothData (m : Metrics) : string :=
  "CPU:" ++ String_of_float (cpu m) ++ ",TEMP:" ++ String_of_float (tempC m)
  ++ ",RAM:" ++ String_of_float (ram m) ++ ",GPU:" ++ String_of_float (gpu m)
  ++ ",G-TEMP:" ++ String_of_float (gpuTempC m).

(** Lines 424-437 of [loop]: the echo of the snapshot over Bluetooth. *)
Definition sendBluetoothData : M unit :=
  cur <- get current ;;
  let data := bluetoothData cur in
  match build with
  | RPC_BLE_SUPPORTED =>
      mc <- get metricsCharacteristic ;;
      when mc (call (ble_setValue_notify data))
  | BT_HARDWARE_SUPPORTED => call (SerialBT_println data)
  | NO_BLUETOOTH => skip
  end.

(** Lines 389-395 and 416-422 of [loop]: what both transports do with a
    line that parsed into [m]. *)
Definition acceptSnapshot (trimmed : string) (m : Metrics) : M unit :=
  current ::= m ;;
  receivedOnce ::= true ;;
  t <- millis ;;
  lastRxMillis ::= t ;;
  lastLineShown ::= trimmed ;;
  cur <- get current ;;
  updateBarsAndTemps cur ;;
  drawStatus ;;
  lcdWake.

(** Lines 398-401 and 440-444 of [loop]: a character other than the
    terminator. *)
Definition accumulate (c : ascii) : M unit :=
  if negb (Ascii.eqb c CR) then
    buf <- get lineBuf ;;
    if strlen buf <? 128 then lineBuf ::= append_char buf c
    else lineBuf ::= ""
  else skip.

(** One character of a BLE write (lines 383-401). *)
Definition ble_char (c : ascii) : M unit :=
  if Ascii.eqb c NL then
    buf <- get lineBuf ;;
    let trimmed := trim buf in
    let r := parseLine trimmed Metrics_init in
    when (fst r) (acceptSnapshot trimmed (snd r)) ;;
    lineBuf ::= ""
  else accumulate c.

(** One character read from [Serial] (lines 410-444). *)
Definition serial_char (c : ascii) : M unit :=
  if Ascii.eqb c NL then
    buf <- get lineBuf ;;
    let trimmed := trim buf in
    let r := parseLine trimmed Metrics_init in
    when (fst r) (acceptSnapshot trimmed (snd r) ;; sendBluetoothData) ;;
    lineBuf ::= ""
  else accumulate c.

(** Lines 374-406: a packet left by the BLE write callback. *)
Definition loop_ble : M unit :=
  have <- get haveBlePacket ;;
  when have
    (s <- get lastBlePacket ;;
     when (negb (String.eqb s ""))
       (let incoming := c_str s in
        let incoming :=
          if endsWith_char NL incoming then incoming
          else append_char incoming NL in
        for_each_char incoming ble_char) ;;
     haveBlePacket ::= false ;;
     lastBlePacket ::= "").

(** Lines 409-445: [while (Serial.available())]. *)
Definition loop_serial : M unit :=
  pending <- get Serial_pending ;;
  Serial_pending ::= "" ;;
  for_each_char pending serial_char.

(** Lines 447-451. *)
Definition loop_sleep_check : M unit :=
  now <- millis ;;
  on <- get isLcdOn ;;
  lastRx <- get lastRxMillis ;;
  when (on && (usub now lastRx >? LCD_SLEEP_TIMEOUT_MS)) lcdSleep.

(** Lines 453-458. *)
Definition loop_status : M unit :=
  now <- millis ;;
  last <- get lastRender ;;
  when (usub now last >? 1000) (drawStatus ;; lastRender ::= now).

Definition loop : M unit :=
  _ <- millis ;;
  match build with
  | RPC_BLE_SUPPORTED => loop_ble
  | _ => skip
  end ;;
  loop_serial ;;
  loop_sleep_check ;;
  loop_status.

(** The write callback of the BLE receive characteristic. *)
Definition onWrite (v : string) : M unit :=
  when (negb (String.eqb v ""))
    (lastBlePacket ::= v ;;
     haveBlePacket ::= true).

Definition setup : M unit :=
  match build with
  | RPC_BLE_SUPPORTED => metricsCharacteristic ::= true ;; call (delay 200)
  | BT_HARDWARE_SUPPORTED => call (delay 500)
  | NO_BLUETOOTH => skip
  end ;;
  call tft_init ;;
  call (setRotation 3) ;;
  call (fillScreen TFT_BLACK) ;;
  call (setTextSize 2) ;;
  call (setTextColor TFT_WHITE TFT_BLACK) ;;
  call (setTextDatum TL_DATUM) ;;
  call (setSwapBytes true) ;;
  drawStaticLayoutOnce ;;
  call (delay 10) ;;
  Serial_pending ::= "".

End Firmware.

(** The globals as their initialisers leave them. *)
Definition power_on (w : World) : Device :=
  {| rx := mkRx Metrics_init "" "" false 0;
     lcd := mkLcd true 0 0 0 0 0 0;
     cache := mkDrawCache (-1) (-1) (-1) LastDrawn_init;
     ble := mkBle false "" false;
     world := w |}.

(* ===================================================================== *)
(** * The serial-only firmware

    The older build of the firmware: no Bluetooth, no panel sleep, a
    freshness threshold of 1500 ms, temperatures printed with one decimal.
    Only what differs from [main.cpp] is defined again. *)
(* ===================================================================== *)

Module Legacy.

Definition FRESH_MS : Z := 1500.

Definition drawStaticLabelsAndSlots : M unit :=
  call (setTextColor TFT_WHITE TFT_BLACK) ;;
  call (setTextSize 2) ;;
  y <- get Y_CPU ;; call (setCursor PADDING y) ;; call (print "CPU:") ;;
  y <- get Y_TEMP ;; call (setCursor PADDING y) ;; call (print "TEMP:") ;;
  y <- get Y_RAM ;; call (setCursor PADDING y) ;; call (print "RAM:") ;;
  y <- get Y_GPU ;; call (setCursor PADDING y) ;; call (print "GPU:") ;;
  y <- get Y_GPUTEMP ;; call (setCursor PADDING y) ;; call (print "G-TEMP:") ;;
  y <- get Y_CPU ;;
  call (fillRect (fst (barGeom y)) y (snd (barGeom y)) BAR_H TFT_DARKGREY) ;;
  y <- get Y_RAM ;;
  call (fillRect (fst (barGeom y)) y (snd (barGeom y)) BAR_H TFT_DARKGREY) ;;
  y <- get Y_GPU ;;
  call (fillRect (fst (barGeom y)) y (snd (barGeom y)) BAR_H TFT_DARKGREY).

Definition drawTemp (y : Z) (t : f32) : M unit :=
  call (setTextColor TFT_WHITE TFT_BLACK) ;;
  call (setTextDatum MR_DATUM) ;;
  (if f32_lt t f32_zero then
     call (setTextPadding 64) ;;
     call (drawString "N/A" (SCREEN_W - PADDING) y)
   else
     let buf := snprintf 24 (fmt_fixed 1 t ++ " C") in
     call (setTextPadding 64) ;;
     call (drawString buf (SCREEN_W - PADDING) y)) ;;
  call (setTextDatum TL_DATUM).

Definition drawStaticLayoutOnce : M unit :=
  call (fillScreen TFT_BLACK) ;;
  drawHeader ;;
  Y_CPU ::= PADDING + 28 ;;
  y <- get Y_CPU ;; Y_TEMP ::= y + 32 ;;
  y <- get Y_TEMP ;; Y_RAM ::= y + 28 ;;
  y <- get Y_RAM ;; Y_GPU ::= y + 32 ;;
  y <- get Y_GPU ;; Y_GPUTEMP ::= y + 32 ;;
  drawStaticLabelsAndSlots.

Definition drawStatus : M unit :=
  let y := SCREEN_H - 28 in
  call (fillRect PADDING (y - 4) (SCREEN_W - 2 * PADDING) 28 TFT_BLACK) ;;
  now <- millis ;;
  lastRx <- get lastRxMillis ;;
  let fresh := is_fresh FRESH_MS now lastRx in
  let dot := if fresh then TFT_GREEN else TFT_RED in
  call (fillCircle (PADDING + 6) (y + 6) 5 dot) ;;
  call (setCursor (PADDING + 18) y) ;;
  call (setTextColor TFT_WHITE TFT_BLACK) ;;
  call (setTextSize 1) ;;
  once <- get receivedOnce ;;
  if once then call (print (if fresh then "RX: fresh" else "RX: stale"))
  else call (print "Waiting for data...").

Definition updateTemp (m : Metrics) : M unit :=
  let tempTenths := tenths (tempC m) in
  last <- get lastDrawn_tempC ;;
  when (negb (tempTenths =? last))
    (y <- get Y_TEMP ;;
     drawTemp y (tempC m) ;;
     lastDrawn_tempC ::= tempTenths).

Definition updateGpuTemp (m : Metrics) : M unit :=
  let gpuTempTenths := tenths (gpuTempC m) in
  last <- get lastDrawn_gpuTempC ;;
  when (negb (gpuTempTenths =? last))
    (call (setTextColor TFT_WHITE TFT_BLACK) ;;
     call (setTextDatum MR_DATUM) ;;
     call (setTextPadding 64) ;;
     y <- get Y_GPUTEMP ;;
     (if f32_lt (gpuTempC m) f32_zero
      then call (drawString "N/A" (SCREEN_W - PADDING) y)
      else
        let buf := snprintf 24 (fmt_fixed 1 (gpuTempC m) ++ " C") in
        call (drawString buf (SCREEN_W - PADDING) y)) ;;
     call (setTextDatum TL_DATUM) ;;
     lastDrawn_gpuTempC ::= gpuTempTenths).

Definition updateBarsAndTemps (m : Metrics) : M unit :=
  call (setTextSize 2) ;;
  y <- get Y_CPU ;;
  updateBarFill y (cpu m) TFT_GREEN lastCpuW ;;
  updateTemp m ;;
  y <- get Y_RAM ;;
  updateBarFill y (ram m) TFT_CYAN lastRamW ;;
  updateGpu m ;;
  updateGpuTemp m.

Definition serial_char (c : ascii) : M unit :=
  if Ascii.eqb c NL then
    buf <- get lineBuf ;;
    let trimmed := trim buf in
    let r := parseLine trimmed Metrics_init in
    when (fst r)
      (current ::= snd r ;;
       receivedOnce ::= true ;;
       t <- millis ;;
       lastRxMillis ::= t ;;
       lastLineShown ::= trimmed ;;
       cur <- get current ;;
       updateBarsAndTemps cur ;;
       drawStatus) ;;
    lineBuf ::= ""
  else accumulate c.

Definition loop : M unit :=
  pending <- get Serial_pending ;;
  Serial_pending ::= "" ;;
  for_each_char pending serial_char ;;
  now <- millis ;;
  last <- get lastRender ;;
  when (usub now last >? 1000) (drawStatus ;; lastRender ::= now).

Definition setup : M unit :=
  call tft_init ;;
  call (setRotation 3) ;;
  call (fillScreen TFT_BLACK) ;;
  call (setTextSize 2) ;;
  call (setTextColor TFT_WHITE TFT_BLACK) ;;
  call (setTextDatum TL_DATUM) ;;
  call (setSwapBytes true) ;;
  drawStaticLayoutOnce ;;
  call (delay 10) ;;
  Serial_pending ::= "".

End Legacy.

(* ===================================================================== *)
(** * Notions used to state the properties *)
(* ===================================================================== *)

(** The line assembler in the words of the specification: [feed] takes
    the buffer and one byte, and gives the new buffer and the line that
    is handed to the parser, if the byte completes one. *)
Definition feed (buf : string) (c : ascii) : string * option string :=
  if Ascii.eqb c NL then ("", Some (trim buf))
  else if Ascii.eqb c CR then (buf, None)
  else if strlen buf <? 128 then (append_char buf c, None)
  else ("", None).

(** The lines emitted while a run of bytes is fed, and the buffer left. *)
Fixpoint feed_all (buf : string) (input : string) : list string * string :=
  match input with
  | EmptyString => ([], buf)
  | String c r =>
      let '(buf1, out) := feed buf c in
      let '(lines, buf2) := feed_all buf1 r in
      (match out with
       | Some l => l :: lines
       | None => lines
       end, buf2)
  end.

(** What the serial path of [loop] does with one emitted line. *)
Definition serial_line (build : Build) (line : string) : M unit :=
  let r := parseLine line Metrics_init in
  when (fst r) (acceptSnapshot build line (snd r) ;; sendBluetoothData build).

(** What the BLE path of [loop] does with one emitted line. *)
Definition ble_line (build : Build) (line : string) : M unit :=
  let r := parseLine line Metrics_init in
  when (fst r) (acceptSnapshot build line (snd r)).

Fixpoint count_char (ch : ascii) (s : string) : nat :=
  match s with
  | EmptyString => O
  | String c r => (if Ascii.eqb c ch then 1 else 0) + count_char ch r
  end.

(** Every character of [s] satisfies [p]. *)
Fixpoint all_chars (p : ascii -> bool) (s : string) : bool :=
  match s with
  | EmptyString => true
  | String c r => p c && all_chars p r
  end.

Definition not_comma (c : ascii) : bool := negb (Ascii.eqb c COMMA).

Definition not_nul (c : ascii) : bool := negb (Ascii.eqb c NUL).

(** A byte that neither ends a line nor is dropped by the assembler. *)
Definition payload_byte (c : ascii) : bool :=
  negb (Ascii.eqb c NL) && negb (Ascii.eqb c CR).

Fixpoint last_char (s : string) : string :=
  match s with
  | EmptyString => EmptyString
  | String c EmptyString => s
  | String _ r => last_char r
  end.

(** Pixels covered by the rectangles filled in a list of calls. *)
Fixpoint painted (l : list Op) : Z :=
  match l with
  | [] => 0
  | fillRect _ _ w h _ :: r => w * h + painted r
  | _ :: r => painted r
  end.

(** The texts drawn by a list of calls. *)
Fixpoint drawn_strings (l : list Op) : list string :=
  match l with
  | [] => []
  | drawString s _ _ :: r => s :: drawn_strings r
  | _ :: r => drawn_strings r
  end.

Definition is_fillRect (o : Op) : bool :=
  match o with
  | fillRect _ _ _ _ _ => true
  | _ => false
  end.

(** The rectangle that takes a bar drawn at [y] from the width [old] to
    the width [new]: the added part in the colour [c] of the bar, or the
    part taken away in the colour of the slot; the bar starts at x = 84. *)
Definition filled_difference (y : Z) (c : color) (old new : Z) : list Op :=
  if new =? old then []
  else if old <? new then [fillRect (84 + old) y (new - old) BAR_H c]
  else [fillRect (84 + new) y (old - new) BAR_H TFT_DARKGREY].

Definition is_notification (o : Op) : bool :=
  match o with
  | ble_setValue_notify _ | SerialBT_println _ => true
  | _ => false
  end.

(** The bar width of the specification, [floor(trackWidth * value / 100)]
    on the exact value of the float clamped to 0..100. *)
Definition spec_bar_width (trackWidth : Z) (value : f32) : Z :=
  match clamp_percent value with
  | S754_finite false m e =>
      match e with
      | Zneg k => (trackWidth * Zpos m) / (100 * 2 ^ Zpos k)
      | _ => (trackWidth * Zpos m * 2 ^ e) / 100
      end
  | _ => 0
  end.

(** A decimal numeral as it is written on the wire: sign, digits before
    the point, digits after it. *)
Record numeral := mkNumeral {
  num_neg : bool;
  num_int : list nat;
  num_frac : list nat
}.

Definition digit_char (n : nat) : ascii := ascii_of_nat (48 + n).

Fixpoint digits_text (ds : list nat) : string :=
  match ds with
  | [] => EmptyString
  | d :: r => String (digit_char d) (digits_text r)
  end.

Fixpoint digits_value (acc : Z) (ds : list nat) : Z :=
  match ds with
  | [] => acc
  | d :: r => digits_value (10 * acc + Z.of_nat d) r
  end.

Definition numeral_text (n : numeral) : string :=
  (if num_neg n then "-" else "") ++ digits_text (num_int n) ++
  match num_frac n with
  | [] => ""
  | _ => "." ++ digits_text (num_frac n)
  end.

(** Whether [f] is the binary32 number nearest to the fraction
    [num / den] taken with the sign [neg], a tie going to the even
    mantissa.  [f] must be in canonical form, with mantissa [m] and
    exponent [e]; counted in quarters of [2^e], [f] is [4 m], the midpoint
    to the float above is [4 m + 2], and the midpoint to the float below is
    [4 m - 2], or [4 m - 1] where [f] is the least number with its exponent.
    The fraction has to lie between the two midpoints, and strictly so
    when [m] is odd.  Only integers are compared. *)
Definition nearest_f32 (neg : bool) (num den : Z) (f : f32) : bool :=
  match f with
  | S754_zero s => Bool.eqb s neg && (num =? 0)
  | S754_finite s m e =>
      let k := e - 2 in
      let q := num * (if k <? 0 then 2 ^ (- k) else 1) in
      let unit := den * (if k <? 0 then 1 else 2 ^ k) in
      let below := if (Zpos m =? 2 ^ 23) && (-149 <? e) then 1 else 2 in
      let lo := (4 * Zpos m - below) * unit in
      let hi := (4 * Zpos m + 2) * unit in
      Bool.eqb s neg && valid_binary f32_prec f32_emax f &&
      (if Z.even (Zpos m) then (lo <=? q) && (q <=? hi) else (lo <? q) && (q <? hi))
  | _ => false
  end.

(** The digits of a numeral read as one integer, and the power of ten
    that the point divides it by. *)
Definition numeral_digits (n : numeral) : Z :=
  digits_value 0 (num_int n ++ num_frac n)%list.

Definition numeral_scale (n : numeral) : Z :=
  10 ^ Z.of_nat (List.length (num_frac n)).

(** [v] is the float that the numeral denotes: the one nearest to its
    decimal value. *)
Definition denotes (n : numeral) (v : f32) : bool :=
  nearest_f32 (num_neg n) (numeral_digits n) (numeral_scale n) v.

(** A numeral whose digits read below 100000, at most two of them after
    the point: the magnitudes 0 to 99999, 0.0 to 9999.9 and 0.00 to
    999.99. *)
Definition short_numeral (n : numeral) : Prop :=
  numeral_digits n < 100000 /\ (List.length (num_frac n) <= 2)%nat.

(** [p] holds of 0, 1, ..., [n - 1]. *)
Definition all_below (p : Z -> bool) (n : positive) : bool :=
  snd (Pos.iter (fun st : Z * bool => (fst st + 1, snd st && p (fst st)))
         (0, true) n).

(** What [toFloat] gives for the text of [k / 10^j] is the float nearest
    to it. *)
Definition decimal_checked (j : Z) (k : Z) : bool :=
  nearest_f32 false k (10 ^ j) (f32_of_f64 (f64_of_decimal false k (- j))).

(** A float with its sign replaced. *)
Definition with_sign (s : bool) (x : spec_float) : spec_float :=
  match x with
  | S754_zero _ => S754_zero s
  | S754_infinity _ => S754_infinity s
  | S754_nan => S754_nan
  | S754_finite _ m e => S754_finite s m e
  end.

Definition well_formed (n : numeral) : Prop :=
  num_int n <> [] /\ Forall (fun d => (d <= 9)%nat) (num_int n ++ num_frac n)%list.

(** A text that does not begin with a number: after leading white space
    and an optional sign comes neither a digit, nor a decimal point, nor
    the word [inf] or [nan]. *)
Definition not_a_number (s : string) : bool :=
  let s1 := snd (scan_sign (ltrim s)) in
  negb (starts_with_ci "inf" s1) && negb (starts_with_ci "nan" s1) &&
  match s1 with
  | EmptyString => true
  | String c _ => negb (is_digit c) && negb (Ascii.eqb c "."%char)
  end.

(** Floats that are not below zero: everything but the negative finite
    numbers and minus infinity. *)
Definition f32_nonneg (x : f32) : Prop :=
  match x with
  | S754_finite true _ _ | S754_infinity true => False
  | _ => True
  end.

Record VarOk {A : Type} (x : Var A) : Prop := {
  rd_wr : forall v d, rd x (wr x v d) = v;
  wr_rd : forall d, wr x (rd x d) d = d;
  wr_wr : forall u v d, wr x v (wr x u d) = wr x v d
}.

(** The calls one [updateBarFill] makes, given the cached width. *)
Definition bar_ops (y : Z) (value : f32) (c : color) (cached : Z) : list Op :=
  let bx := fst (barGeom y) in
  let newW := bar_width (snd (barGeom y)) value in
  let lastW := if cached <? 0 then 0 else cached in
  if newW =? lastW then []
  else
    [ if newW >? lastW
      then fillRect (bx + lastW) y (newW - lastW) BAR_H c
      else fillRect (bx + newW) y (lastW - newW) BAR_H TFT_DARKGREY;
      setTextColor TFT_WHITE TFT_BLACK;
      setTextDatum MR_DATUM;
      setTextPadding 44;
      drawString (snprintf 16 (fmt_fixed 0 value ++ "%")) (SCREEN_W - PADDING)
        (y + BAR_H / 2);
      setTextDatum TL_DATUM ].

(** The calls that draw one temperature, given the cached tenths. *)
Definition temp_ops (y : Z) (t : f32) (cached : Z) : list Op :=
  if tenths t =? cached then []
  else
    [ setTextColor TFT_WHITE TFT_BLACK;
      setTextDatum MR_DATUM;
      setTextPadding 64;
      drawString (if f32_lt t f32_zero then "N/A"
                  else snprintf 24 (fmt_fixed 0 t ++ "C"))
        (SCREEN_W - PADDING) y;
      setTextDatum TL_DATUM ].

(** The value handed to the GPU bar: the load, or 0 for a negative one. *)
Definition gpu_bar_value (m : Metrics) : f32 :=
  if f32_lt (gpu m) f32_zero then f32_zero else gpu m.

Definition gpu_ops (m : Metrics) (d : Device) : list Op :=
  if rounded (gpu m) =? rd lastDrawn_gpu d then []
  else bar_ops (rd Y_GPU d) (gpu_bar_value m) TFT_ORANGE (rd lastGpuW d).

Definition gpu_state (m : Metrics) (d : Device) : Device :=
  wr lastDrawn_gpu (rounded (gpu m))
    (wr lastGpuW
       (if rounded (gpu m) =? rd lastDrawn_gpu d then rd lastGpuW d
        else bar_width (snd (barGeom (rd Y_GPU d))) (gpu_bar_value m)) d).

(** The state and the calls of one delta render. *)
Definition render_state (m : Metrics) (d : Device) : Device :=
  let d1 := wr lastCpuW (bar_width (snd (barGeom (rd Y_CPU d))) (cpu m)) d in
  let d2 := wr lastDrawn_tempC (tenths (tempC m)) d1 in
  let d3 := wr lastRamW (bar_width (snd (barGeom (rd Y_RAM d))) (ram m)) d2 in
  wr lastDrawn_gpuTempC (tenths (gpuTempC m)) (gpu_state m d3).

Definition render_ops (m : Metrics) (d : Device) : list Op :=
  (setTextSize 2 :: bar_ops (rd Y_CPU d) (cpu m) TFT_GREEN (rd lastCpuW d))
  ++ temp_ops (rd Y_TEMP d) (tempC m) (rd lastDrawn_tempC d)
  ++ bar_ops (rd Y_RAM d) (ram m) TFT_CYAN (rd lastRamW d)
  ++ gpu_ops m d
  ++ temp_ops (rd Y_GPUTEMP d) (gpuTempC m) (rd lastDrawn_gpuTempC d).

(** Forty and a half degrees below zero. *)
Definition minus_40_5 : f32 := Eval cbv in toFloat "-40.5".

Definition line_end : string := String NL EmptyString.

(** A device that has been set up, with [input] waiting on the serial
    port and a clock that stands at [t]. *)
Definition booted (b : Build) (input : string) (t : Z) : Device :=
  wr Serial_pending input (st (setup b (power_on (mkWorld "" (fun _ => t) 0)))).

Fixpoint dot_colors (l : list Op) : list color :=
  match l with
  | [] => []
  | fillCircle _ _ _ c :: r => c :: dot_colors r
  | _ :: r => dot_colors r
  end.

(** The calls of [drawStatus], given the reading of the clock. *)
Definition status_ops (b : Build) (now lastRx : Z) (once : bool) : list Op :=
  let y := SCREEN_H - 28 in
  let fresh := is_fresh FRESH_MS now lastRx in
  [ fillRect PADDING (y - 4) (SCREEN_W - 2 * PADDING) 28 TFT_BLACK;
    fillCircle (PADDING + 6) (y + 6) 5 (if fresh then TFT_GREEN else TFT_RED);
    setCursor (PADDING + 18) y;
    setTextColor TFT_WHITE TFT_BLACK;
    setTextSize 1;
    print (if once then (if fresh then " " else " ") else "Waiting for data...");
    setCursor (SCREEN_W - 88) y;
    setTextColor TFT_YELLOW TFT_BLACK;
    print (if BT_AVAILABLE b then "" else "x");
    setTextColor TFT_WHITE TFT_BLACK ].

Definition Legacy_status_ops (now lastRx : Z) (once : bool) : list Op :=
  let y := SCREEN_H - 28 in
  let fresh := is_fresh Legacy.FRESH_MS now lastRx in
  [ fillRect PADDING (y - 4) (SCREEN_W - 2 * PADDING) 28 TFT_BLACK;
    fillCircle (PADDING + 6) (y + 6) 5 (if fresh then TFT_GREEN else TFT_RED);
    setCursor (PADDING + 18) y;
    setTextColor TFT_WHITE TFT_BLACK;
    setTextSize 1;
    print (if once then (if fresh then "RX: fresh" else "RX: stale")
           else "Waiting for data...") ].

(** A device whose last snapshot arrived at [t] and whose clock stands at
    [q]. *)
Definition received_at (t q : Z) : Device :=
  wr lastRxMillis (millis_at t)
    (wr receivedOnce true (power_on (mkWorld "" (fun _ => q) 0))).

(** The text of five fields joined by commas. *)
Definition join5 (f1 f2 f3 f4 f5 : string) : string :=
  f1 ++ String COMMA (f2 ++ String COMMA (f3 ++ String COMMA (f4 ++ String COMMA f5))).

Definition starts_nondigit (s : string) : Prop :=
  match s with
  | EmptyString => True
  | String c _ => is_digit c = false
  end.

(** The numerals 250.5, -1, 63.2, 38.0 and 67.0. *)
Definition n_250_5 : numeral := mkNumeral false [2; 5; 0]%nat [5]%nat.
Definition n_minus_1 : numeral := mkNumeral true [1]%nat [].
Definition n_63_2 : numeral := mkNumeral false [6; 3]%nat [2]%nat.
Definition n_38_0 : numeral := mkNumeral false [3; 8]%nat [0]%nat.
Definition n_67_0 : numeral := mkNumeral false [6; 7]%nat [0]%nat.

(** A line with a NUL byte before its last three commas. *)
Definition nul_line : string := "1,2" ++ String NUL ",3,4,5".

(** The numeral 1.0000000596046447753906251: one, plus half the distance
    to the next float, plus 10^-25. *)
Definition n_above_tie : numeral :=
  mkNumeral false [1]%nat
    [0; 0; 0; 0; 0; 0; 0; 5; 9; 6; 0; 4; 6; 4; 4; 7; 7; 5; 3; 9; 0; 6; 2; 5; 1]%nat.

(** The buffer after a run of payload bytes: it fills up to 128 bytes, the
    byte after that empties it, and the filling starts again. *)
Fixpoint accumulated (buf : string) (input : string) : string :=
  match input with
  | EmptyString => buf
  | String c r =>
      accumulated (if strlen buf <? 128 then append_char buf c else "") r
  end.

(** What a run of payload bytes leaves in a buffer that was empty: the
    bytes that follow its last full block of 129. *)
Definition kept (input : string) : string :=
  drop (129 * (String.length input / 129)) input.

(** 130 times the digit 9. *)
Definition nines_130 : string :=
  Eval cbv in string_of_list_ascii (List.repeat "9"%char 130).

(** The layout that [drawStaticLayoutOnce] computes. *)
Definition layout_state (d : Device) : Device :=
  wr Y_TEMP 164 (wr Y_GPUTEMP 132 (wr Y_GPU 100 (wr Y_RAM 68 (wr Y_CPU 36 d)))).

(** The calls of [drawStaticLayoutOnce]: the screen is cleared, then the
    header, the five labels and the three empty bar slots are drawn. *)
Definition layout_ops : list Op :=
  [ fillScreen TFT_BLACK;
    setTextColor TFT_WHITE TFT_BLACK; setTextSize 2; setCursor 8 8;
    println "Wio PC Monitor"; drawLine 8 28 312 28 TFT_DARKGREY;
    setTextColor TFT_WHITE TFT_BLACK; setTextSize 2;
    setCursor 8 36; print "CPU:";
    setCursor 8 68; print "RAM:";
    setCursor 8 100; print "GPU:";
    setCursor 8 132; print "G-TEMP:";
    setCursor 8 164; print "TEMP:";
    fillRect 84 36 228 22 TFT_DARKGREY;
    fillRect 84 68 228 22 TFT_DARKGREY;
    fillRect 84 100 228 22 TFT_DARKGREY ].

(** The draw cache with every entry unset. *)
Definition reset_state (d : Device) : Device :=
  wr lastDrawn LastDrawn_init
    (wr lastGpuW (-1) (wr lastRamW (-1) (wr lastCpuW (-1) d))).

(** The state and the calls of a wake-up of the sleeping panel. *)
Definition wake_state (d : Device) : Device :=
  wr isLcdOn true
    (tick (render_state (rd current d) (reset_state (layout_state d)))).

Definition wake_ops (b : Build) (d : Device) : list Op :=
  [digitalWrite_LCD_BACKLIGHT true; delay 5]
  ++ layout_ops
  ++ render_ops (rd current d) (reset_state (layout_state d))
  ++ status_ops b (millis_at (time_now d)) (rd lastRxMillis d)
       (rd receivedOnce d).

(** The state in which [acceptSnapshot] calls [lcdWake]. *)
Definition accepted_state (trimmed : string) (m : Metrics) (d : Device) : Device :=
  tick (render_state m
          (wr lastLineShown trimmed
             (wr lastRxMillis (millis_at (time_now d))
                (tick (wr receivedOnce true (wr current m d)))))).

(** A result with more calls in front of its own. *)
Definition prepend {A : Type} (o : list Op) (r : Res A) : Res A :=
  match r with
  | mkRes a d' o' => mkRes a d' (o ++ o')%list
  end.

(** The state in which [acceptSnapshot] renders the snapshot. *)
Definition received_state (trimmed : string) (m : Metrics) (d : Device) : Device :=
  wr lastLineShown trimmed
    (wr lastRxMillis (millis_at (time_now d))
       (tick (wr receivedOnce true (wr current m d)))).

(** The calls [acceptSnapshot] makes before it calls [lcdWake]. *)
Definition accepted_ops (b : Build) (trimmed : string) (m : Metrics) (d : Device)
  : list Op :=
  render_ops m (received_state trimmed m d)
  ++ status_ops b (millis_at (time_now (tick d))) (millis_at (time_now d)) true.

(** The test of the sleep check: more than 60 s since the last snapshot. *)
Definition sleep_due (d : Device) : bool :=
  usub (millis_at (time_now d)) (rd lastRxMillis d) >? LCD_SLEEP_TIMEOUT_MS.

(** The text drawn for a temperature. *)
Definition temp_text (t : f32) : string :=
  if f32_lt t f32_zero then "N/A" else snprintf 24 (fmt_fixed 0 t ++ "C").

Definition rejected (line : string) : Prop :=
  fst (parseLine line Metrics_init) = false.

(** The values [0, 1/10, 2/10, ..., 100]. *)
Definition tenth_percent (k : Z) : f32 := f32_of_decimal false k (-1).

Definition widths_agree (v : f32) : bool :=
  bar_width 228 v =? spec_bar_width 228 v.

(** The values of a list shown one after the other on one bar. *)
Fixpoint show_values (y : Z) (c : color) (ref : Var Z) (vs : list f32) : M unit :=
  match vs with
  | [] => skip
  | v :: r => updateBarFill y v c ref ;; show_values y c ref r
  end.

(** The calls made while the values are shown, from a cached width. *)
Fixpoint show_ops (y : Z) (c : color) (cached : Z) (vs : list f32) : list Op :=
  match vs with
  | [] => []
  | v :: r => (bar_ops y v c cached
               ++ show_ops y c (bar_width (snd (barGeom y)) v) r)%list
  end.

Definition percent (n : Z) : f32 := f32_of_Z n.

(** The value that the text "0.43859649" denotes. *)
Definition v_0_43859649 : f32 := Eval cbv in toFloat "0.43859649".

(** A sleeping device. *)
Definition asleep : Device :=
  wr isLcdOn false (power_on (mkWorld "" (fun _ => 1000) 0)).

(** A sleeping device with a line waiting on the serial port, whose
    clock advances by 5 ms from one reading to the next and passes 2^32 ms
    between the first reading and the second. *)
Definition across_wrap : Device :=
  wr Serial_pending ("1,2,3,4,5" ++ line_end)
    (wr lastRxMillis 5
       (wr isLcdOn false
          (power_on (mkWorld "" (fun n => 4294967293 + 5 * Z.of_nat n) 0)))).

(** A clock that stands at 1000 ms for its first [n] readings and at
    70000 ms from then on. *)
Definition clock_jump (n : nat) : nat -> Z :=
  fun k => if (k <? n)%nat then 1000 else 70000.

(** A device that has been set up, with a first line waiting on the
    serial port, whose clock jumps after ten readings: the readings of two
    iterations of [loop] that each accept a line. *)
Definition before_sleep : Device :=
  wr Serial_pending ("50,20,50,50,30" ++ line_end)
    (st (setup NO_BLUETOOTH (power_on (mkWorld "" (clock_jump 10) 0)))).

(* ---- the reader, the loop and the renderer as functions ---- *)

(** The state after a line has been handed to the parser. *)
Definition line_state (line : string) (d : Device) : Device :=
  let r := parseLine line Metrics_init in
  if fst r then
    if rd isLcdOn d then accepted_state line (snd r) d
    else wake_state (accepted_state line (snd r) d)
  else d.

(** The state after one byte from either transport. *)
Definition char_state (c : ascii) (d : Device) : Device :=
  wr lineBuf (fst (feed (rd lineBuf d) c))
    (match snd (feed (rd lineBuf d) c) with
     | Some l => line_state l d
     | None => d
     end).

(** The state after a run of bytes. *)
Fixpoint run_state (input : string) (d : Device) : Device :=
  match input with
  | EmptyString => d
  | String c r => run_state r (char_state c d)
  end.

(** The test of the status cadence: more than a second since the last
    periodic redraw. *)
Definition status_due (d : Device) : bool :=
  usub (millis_at (time_now d)) (rd lastRender d) >? 1000.

(** The text that [loop] feeds to the assembler for a BLE packet: the
    packet up to its first NUL, with a terminator added if it does not end
    with one. *)
Definition ble_incoming (packet : string) : string :=
  let incoming := c_str packet in
  if endsWith_char NL incoming then incoming else append_char incoming NL.

(** The state in which the serial bytes of an iteration are read: the
    one left by the BLE packet, if the build reads BLE packets and one is
    waiting. *)
Definition after_ble (b : Build) (d : Device) : Device :=
  match b with
  | RPC_BLE_SUPPORTED =>
      if rd haveBlePacket d then
        wr lastBlePacket "" (wr haveBlePacket false
          (if String.eqb (rd lastBlePacket d) "" then d
           else run_state (ble_incoming (rd lastBlePacket d)) d))
      else d
  | _ => d
  end.

(** The state after the two transports have been read. *)
Definition after_input (b : Build) (d : Device) : Device :=
  let d1 := after_ble b (tick d) in
  run_state (rd Serial_pending d1) (wr Serial_pending "" d1).

(** The globals that describe the last snapshot received: the snapshot,
    the text of its line, and whether there has been one. *)
Definition received (d : Device) : Metrics * string * bool :=
  (rd current d, rd lastLineShown d, rd receivedOnce d).

(** What a line handed to the parser does to them. *)
Definition accept_line (s : Metrics * string * bool) (l : string)
  : Metrics * string * bool :=
  if fst (parseLine l Metrics_init)
  then (snd (parseLine l Metrics_init), l, true)
  else s.

(** The bytes that an iteration of [loop] takes from a waiting BLE
    packet. *)
Definition ble_bytes (b : Build) (d : Device) : string :=
  match b with
  | RPC_BLE_SUPPORTED =>
      if rd haveBlePacket d then
        if String.eqb (rd lastBlePacket d) "" then ""
        else ble_incoming (rd lastBlePacket d)
      else ""
  | _ => ""
  end.

(** All the bytes that an iteration of [loop] feeds to the assembler: the
    BLE packet first, then what waits on the serial port. *)
Definition loop_input (b : Build) (d : Device) : string :=
  ble_bytes b d ++ rd Serial_pending d.

(** The bytes that [loop] takes from a BLE write of [packet]: none in a
    build without the BLE stack, none for an empty write. *)
Definition incoming (b : Build) (packet : string) : string :=
  match b with
  | RPC_BLE_SUPPORTED =>
      if String.eqb packet "" then "" else ble_incoming packet
  | _ => ""
  end.

(** The device once [serial] has arrived on the serial port and, in the
    BLE build, [packet] has been written to the receive characteristic. *)
Definition arrive (b : Build) (packet serial : string) (d : Device) : Device :=
  wr Serial_pending (rd Serial_pending d ++ serial)
    (match b with
     | RPC_BLE_SUPPORTED => st (onWrite packet d)
     | _ => d
     end).

(** The call that echoes a snapshot, by build; [connected] says whether
    the notify characteristic has been created. *)
Definition echo (b : Build) (connected : bool) (m : Metrics) : list Op :=
  match b with
  | RPC_BLE_SUPPORTED =>
      if connected then [ble_setValue_notify (bluetoothData m)] else []
  | BT_HARDWARE_SUPPORTED => [SerialBT_println (bluetoothData m)]
  | NO_BLUETOOTH => []
  end.

(** The echoes for a list of lines handed to the parser. *)
Definition echoes (b : Build) (connected : bool) (lines : list string) : list Op :=
  flat_map (fun l => if fst (parseLine l Metrics_init)
                     then echo b connected (snd (parseLine l Metrics_init))
                     else []) lines.

Definition sent (l : list Op) : list Op := filter is_notification l.

(** A text without its carriage returns. *)
Fixpoint without_cr (s : string) : string :=
  match s with
  | EmptyString => EmptyString
  | String c r => if Ascii.eqb c CR then without_cr r else String c (without_cr r)
  end.

(** What the renderer compares with its cache: the two bar widths, the
    GPU load rounded to a whole percent, and the two temperatures in
    tenths. *)
Definition cache_key (m : Metrics) : Z * Z * Z * Z * Z :=
  (bar_width 228 (cpu m), tenths (tempC m), bar_width 228 (ram m),
   rounded (gpu m), tenths (gpuTempC m)).

(** Two snapshots that the renderer cannot tell apart. *)
Definition m_first : Metrics :=
  Eval cbv in snd (parseLine "100,40.0,0.49,10.0,50.0" Metrics_init).
Definition m_second : Metrics :=
  Eval cbv in snd (parseLine "250,40.04,0.51,10.4,50.0" Metrics_init).

(** A procedure that does not touch the receive globals. *)
Definition keeps_rx {A : Type} (c : M A) : Prop := forall d, rx (st (c d)) = rx d.

(** The panel is on, and the time of the last snapshot is a reading of
    the clock taken at or after reading [n]. *)
Definition lit_since (n : nat) (d : Device) : Prop :=
  rd isLcdOn d = true /\
  exists k, (n <= k < ticks (world d))%nat /\
            rd lastRxMillis d = millis_at (clock (world d) k).

(** Some line of the list parses. *)
Definition some_accepted (lines : list string) : bool :=
  existsb (fun l => fst (parseLine l Metrics_init)) lines.

(* ===================================================================== *)
(** * Verified properties *)
(* ===================================================================== *)

(* ---- proof steps used throughout ---- *)

Ltac var_ok :=
  constructor; intros;
  repeat match goal with
         | d : Device |- _ => destruct d as [[? ? ? ? ?] [? ? ? ? ? ? ?] [? ? ? [? ? ? ? ?]] [? ? ?] [? ? ?]]
         end; reflexivity.

Ltac run_prims := unfold bind, get, set, call, when, skip, ret, millis.

Ltac open_device d :=
  destruct d as [[? ? ? rcv ?] [? ? ? ? ? ? ?] [? ? ? [? ? ? ? ?]] [? ? ?] [? ? ?]].

Ltac cache_simpl :=
  cbn -[bar_width tenths rounded Z.eqb barGeom bar_ops temp_ops gpu_bar_value].

Ltac well_formed_numeral :=
  split; [discriminate|repeat constructor; lia].

(* ---- floats: sign of results ---- *)

Lemma round_aux_nonneg mx ex lx :
  f32_nonneg (binary_round_aux f32_prec f32_emax false mx ex lx).
Proof.
  unfold binary_round_aux.
  destruct (shr_fexp f32_prec f32_emax mx ex lx) as [m1 e1].
  destruct (shr_fexp f32_prec f32_emax _ e1 loc_Exact) as [m2 e2].
  destruct (shr_m m2); simpl; auto.
  destruct (e2 <=? 104); simpl; auto.
Qed.

Lemma not_lt_zero_nonneg x : f32_lt x f32_zero = false -> f32_nonneg x.
Proof.
  destruct x as [s|s| |s m e]; simpl; auto; destruct s; simpl; auto; discriminate.
Qed.

Lemma clamp_percent_nonneg v : f32_nonneg (clamp_percent v).
Proof.
  unfold clamp_percent.
  destruct (f32_lt v f32_zero) eqn:E.
  - simpl. exact I.
  - destruct (f32_gt v f32_hundred).
    + simpl. exact I.
    + now apply not_lt_zero_nonneg.
Qed.

Lemma div_hundred_nonneg x : f32_nonneg x -> f32_nonneg (f32_div x f32_hundred).
Proof.
  destruct x as [s|s| |s m e]; try destruct s; cbn; try tauto.
  intros _. unfold f32_div, f32_hundred, SFdiv.
  destruct (SFdiv_core_binary _ _ _ _ _ _) as [[mz ez] lz].
  apply round_aux_nonneg.
Qed.

Lemma mul_pos_nonneg m e x :
  f32_nonneg x -> f32_nonneg (f32_mul (S754_finite false m e) x).
Proof.
  destruct x as [s|s| |s m' e']; try destruct s; cbn; try tauto.
  intros _. apply round_aux_nonneg.
Qed.

Lemma to_int_nonneg x : f32_nonneg x -> 0 <= f32_to_int x.
Proof.
  destruct x as [s|s| |s m e]; simpl; try lia.
  - destruct s; [intros []|]. intros _. unfold INT_MAX. lia.
  - destruct s; [intros []|]. intros _.
    apply Z.min_glb; [unfold INT_MAX; lia|].
    destruct e.
    + simpl. lia.
    + apply Z.shiftl_nonneg. lia.
    + apply Z.shiftr_nonneg. lia.
Qed.

Lemma bar_width_nonneg y v : 0 <= bar_width (snd (barGeom y)) v.
Proof.
  unfold bar_width.
  apply to_int_nonneg.
  change (f32_of_Z (snd (barGeom y))) with (S754_finite false 14942208 (-16)).
  apply mul_pos_nonneg, div_hundred_nonneg, clamp_percent_nonneg.
Qed.

(* ---- variables behave as variables ---- *)

Lemma lastCpuW_ok : VarOk lastCpuW. Proof. var_ok. Qed.
Lemma lastRamW_ok : VarOk lastRamW. Proof. var_ok. Qed.
Lemma lastGpuW_ok : VarOk lastGpuW. Proof. var_ok. Qed.
Lemma lastDrawn_tempC_ok : VarOk lastDrawn_tempC. Proof. var_ok. Qed.
Lemma lastDrawn_gpu_ok : VarOk lastDrawn_gpu. Proof. var_ok. Qed.
Lemma lastDrawn_gpuTempC_ok : VarOk lastDrawn_gpuTempC. Proof. var_ok. Qed.
Lemma lineBuf_ok : VarOk lineBuf. Proof. var_ok. Qed.

(* ---- running the monad ---- *)

Lemma bind_run {A B : Type} (c : M A) (k : A -> M B) d a d' o :
  c d = mkRes a d' o ->
  bind c k d = match k a d' with mkRes b d2 o2 => mkRes b d2 (o ++ o2)%list end.
Proof. intros H. unfold bind. now rewrite H. Qed.

(* ---- the delta renderer ---- *)

Lemma updateBarFill_run y v c (ref : Var Z) d :
  VarOk ref ->
  updateBarFill y v c ref d =
  mkRes tt (wr ref (bar_width (snd (barGeom y)) v) d) (bar_ops y v c (rd ref d)).
Proof.
  intros [Hrw Hwr Hww].
  unfold updateBarFill, bar_ops. run_prims.
  set (newW := bar_width (snd (barGeom y)) v).
  destruct (rd ref d <? 0) eqn:E.
  - rewrite Hrw.
    destruct (newW =? 0) eqn:E0.
    + apply Z.eqb_eq in E0. rewrite E0. reflexivity.
    + destruct (newW >? 0); rewrite Hww; reflexivity.
  - destruct (newW =? rd ref d) eqn:E0.
    + apply Z.eqb_eq in E0. rewrite E0, Hwr. reflexivity.
    + destruct (newW >? rd ref d); reflexivity.
Qed.

Lemma updateTemp_run m d :
  updateTemp m d =
  mkRes tt (wr lastDrawn_tempC (tenths (tempC m)) d)
    (temp_ops (rd Y_TEMP d) (tempC m) (rd lastDrawn_tempC d)).
Proof.
  unfold updateTemp, temp_ops, drawTemp. run_prims.
  destruct (tenths (tempC m) =? rd lastDrawn_tempC d) eqn:E; cbn [negb].
  - apply Z.eqb_eq in E. rewrite E.
    now rewrite (wr_rd _ lastDrawn_tempC_ok).
  - destruct (f32_lt (tempC m) f32_zero); reflexivity.
Qed.

Lemma updateGpuTemp_run m d :
  updateGpuTemp m d =
  mkRes tt (wr lastDrawn_gpuTempC (tenths (gpuTempC m)) d)
    (temp_ops (rd Y_GPUTEMP d) (gpuTempC m) (rd lastDrawn_gpuTempC d)).
Proof.
  unfold updateGpuTemp, temp_ops. run_prims.
  destruct (tenths (gpuTempC m) =? rd lastDrawn_gpuTempC d) eqn:E; cbn [negb].
  - apply Z.eqb_eq in E. rewrite E.
    now rewrite (wr_rd _ lastDrawn_gpuTempC_ok).
  - destruct (f32_lt (gpuTempC m) f32_zero); reflexivity.
Qed.

Lemma updateGpu_run m d :
  updateGpu m d = mkRes tt (gpu_state m d) (gpu_ops m d).
Proof.
  unfold updateGpu, gpu_ops, gpu_state.
  unfold bind at 1. unfold get at 1.
  destruct (rounded (gpu m) =? rd lastDrawn_gpu d) eqn:E; cbn [negb when].
  - apply Z.eqb_eq in E. rewrite E.
    now rewrite (wr_rd _ lastGpuW_ok), (wr_rd _ lastDrawn_gpu_ok).
  - unfold bind at 1. unfold get at 1.
    rewrite (bind_run _ _ _ _ _ _ (updateBarFill_run _ _ _ _ _ lastGpuW_ok)).
    unfold set, gpu_bar_value. now rewrite app_nil_r.
Qed.

Lemma updateBarsAndTemps_run m d :
  updateBarsAndTemps m d = mkRes tt (render_state m d) (render_ops m d).
Proof.
  unfold updateBarsAndTemps, render_state, render_ops.
  unfold bind at 1. unfold call at 1.
  unfold bind at 1. unfold get at 1.
  rewrite (bind_run _ _ _ _ _ _ (updateBarFill_run _ _ _ _ _ lastCpuW_ok)).
  rewrite (bind_run _ _ _ _ _ _ (updateTemp_run _ _)).
  unfold bind at 1. unfold get at 1.
  rewrite (bind_run _ _ _ _ _ _ (updateBarFill_run _ _ _ _ _ lastRamW_ok)).
  rewrite (bind_run _ _ _ _ _ _ (updateGpu_run _ _)).
  rewrite updateGpuTemp_run.
  cbv zeta.
  destruct d as [? ? [? ? ? [? ? ? ? ?]] ? ?].
  unfold gpu_ops, gpu_state.
  cbn -[bar_width tenths rounded Z.eqb barGeom bar_ops temp_ops gpu_bar_value].
  rewrite <- ?app_assoc; reflexivity.
Qed.

Lemma bar_ops_settled y v c : bar_ops y v c (bar_width (snd (barGeom y)) v) = [].
Proof.
  unfold bar_ops. pose proof (bar_width_nonneg y v) as H.
  destruct (bar_width (snd (barGeom y)) v <? 0) eqn:E; [apply Z.ltb_lt in E; lia|].
  now rewrite Z.eqb_refl.
Qed.

Lemma temp_ops_settled y t : temp_ops y t (tenths t) = [].
Proof. unfold temp_ops. now rewrite Z.eqb_refl. Qed.

Lemma render_ops_settled m d : render_ops m (render_state m d) = [setTextSize 2].
Proof.
  unfold render_ops, render_state, gpu_ops, gpu_state. open_device d. cache_simpl.
  rewrite !bar_ops_settled, !temp_ops_settled, Z.eqb_refl. reflexivity.
Qed.

Lemma render_state_settled m d : render_state m (render_state m d) = render_state m d.
Proof.
  unfold render_state, gpu_state. open_device d. cache_simpl.
  rewrite Z.eqb_refl. reflexivity.
Qed.

(** C8. Rendering the same snapshot a second time, right after the
    first, draws nothing: the only call made is [setTextSize], every
    comparison with the cache finds equality, no text is drawn and no
    pixel painted, and the state is left as it was. *)
Theorem renderDelta_twice_draws_nothing (m : Metrics) (d : Device) :
  let d1 := st (updateBarsAndTemps m d) in
  ops (updateBarsAndTemps m d1) = [setTextSize 2] /\
  drawing_ops (ops (updateBarsAndTemps m d1)) = [] /\
  drawn_strings (ops (updateBarsAndTemps m d1)) = [] /\
  painted (ops (updateBarsAndTemps m d1)) = 0 /\
  st (updateBarsAndTemps m d1) = d1.
Proof.
  cbv zeta. rewrite !updateBarsAndTemps_run. cbn [st ops].
  rewrite render_ops_settled, render_state_settled. repeat split.
Qed.

Lemma tenths_negative t : f32_lt t f32_zero = true -> tenths t = -1.
Proof. intros H. unfold tenths. now rewrite H. Qed.

(** C10. A temperature below zero, whatever its value, is treated as the
    sentinel: its cache entry is [-1], [drawTemp] draws "N/A" and nothing
    else, and each of the two temperature fields of the delta render draws
    "N/A" when the cache differs and nothing when it holds [-1] already. *)
Theorem negative_temperature_renders_NA (t : f32) (m : Metrics) (d : Device) (y : Z) :
  f32_lt t f32_zero = true ->
  tenths t = -1 /\
  drawn_strings (ops (drawTemp y t d)) = ["N/A"] /\
  drawn_strings (ops (Legacy.drawTemp y t d)) = ["N/A"] /\
  (tempC m = t ->
   drawn_strings (ops (updateTemp m d)) =
     (if rd lastDrawn_tempC d =? -1 then [] else ["N/A"]) /\
   rd lastDrawn_tempC (st (updateTemp m d)) = -1) /\
  (gpuTempC m = t ->
   drawn_strings (ops (updateGpuTemp m d)) =
     (if rd lastDrawn_gpuTempC d =? -1 then [] else ["N/A"]) /\
   rd lastDrawn_gpuTempC (st (updateGpuTemp m d)) = -1).
Proof.
  intros H.
  pose proof (tenths_negative t H) as Ht.
  split; [exact Ht|].
  split; [unfold drawTemp; run_prims; rewrite H; reflexivity|].
  split; [unfold Legacy.drawTemp; run_prims; rewrite H; reflexivity|].
  split; intros E.
  - rewrite updateTemp_run. cbn [st ops]. unfold temp_ops.
    rewrite E, Ht, H, (Z.eqb_sym (-1)). split.
    + destruct (rd lastDrawn_tempC d =? -1); reflexivity.
    + apply (rd_wr _ lastDrawn_tempC_ok).
  - rewrite updateGpuTemp_run. cbn [st ops]. unfold temp_ops.
    rewrite E, Ht, H, (Z.eqb_sym (-1)). split.
    + destruct (rd lastDrawn_gpuTempC d =? -1); reflexivity.
    + apply (rd_wr _ lastDrawn_gpuTempC_ok).
Qed.

Lemma negative_temperature_renders_NA_witness :
  f32_lt minus_40_5 f32_zero = true /\
  drawn_strings
    (ops (drawTemp 164 minus_40_5 (power_on (mkWorld "" (fun _ => 0) 0)))) = ["N/A"].
Proof.
  split; [reflexivity|].
  exact (proj1 (proj2 (negative_temperature_renders_NA minus_40_5 Metrics_init
                         (power_on (mkWorld "" (fun _ => 0) 0)) 164 eq_refl))).
Defined.

(* ---- concrete runs ---- *)

(** C1, the run that shows the defect.  The host reports a GPU load of 50
    and then the sentinel -1: for the second snapshot the GPU field is
    drawn as the number "0%", and "N/A" is drawn for the two temperatures
    only. *)
Theorem gpu_sentinel_draws_zero_percent :
  let d := booted NO_BLUETOOTH ("0,-1,0,50,-1" ++ line_end) 1000 in
  let d1 := st (loop NO_BLUETOOTH d) in
  let d2 := wr Serial_pending ("0,-1,0,-1,-1" ++ line_end) d1 in
  gpu (rd current (st (loop NO_BLUETOOTH d2))) = f32_minus_one /\
  drawn_strings (ops (loop NO_BLUETOOTH d)) = ["N/A"; "50%"; "N/A"] /\
  drawn_strings (ops (loop NO_BLUETOOTH d2)) = ["0%"] /\
  drawn_strings (ops (updateGpu (rd current (st (loop NO_BLUETOOTH d2))) d1)) = ["0%"].
Proof. vm_compute. repeat split. Qed.

(** C3, the run that shows the defect.  The same line arrives once by a
    BLE write and once on the serial port of a device with the BLE stack
    set up: both are parsed into the current snapshot, the serial one is
    echoed on the notify characteristic, the BLE one is not. *)
Theorem ble_write_is_not_echoed :
  let d := booted RPC_BLE_SUPPORTED "" 1000 in
  let via_ble := loop RPC_BLE_SUPPORTED (st (onWrite "1,2,3,4,5" d)) in
  let via_serial :=
    loop RPC_BLE_SUPPORTED (wr Serial_pending ("1,2,3,4,5" ++ line_end) d) in
  rd metricsCharacteristic d = true /\
  rd lastLineShown (st via_ble) = "1,2,3,4,5" /\
  rd current (st via_ble) = rd current (st via_serial) /\
  cpu (rd current (st via_ble)) = f32_of_Z 1 /\
  filter is_notification (ops via_ble) = [] /\
  filter is_notification (ops via_serial) =
    [ble_setValue_notify "CPU:1.00,TEMP:2.00,RAM:3.00,GPU:4.00,G-TEMP:5.00"].
Proof. vm_compute. repeat split. Qed.

(** C5, the run that shows the defect.  The device shows "50,20,50,50,30"
    and then "0,20,0,0,30", for which "0%" is drawn beside each of the
    three bars.  Sixty-nine seconds later the sleep check blanks the panel
    and switches it off.  The line "0,20,0,0,30" then arrives again: the
    panel is switched on, the screen is cleared, the static layout is
    drawn again and every cache entry is reset, but the render that
    follows draws the two temperatures only.  Each bar has the width 0,
    which [updateBarFill] takes for the width already on screen once it
    has replaced the unset -1 by 0, so that it returns before it draws the
    text: the three "0%" that were on screen before the panel went off are
    not drawn again. *)
Theorem wake_up_leaves_zero_bars_without_text :
  let line := "0,20,0,0,30" ++ line_end in
  let first := loop NO_BLUETOOTH before_sleep in
  let second := loop NO_BLUETOOTH (wr Serial_pending line (st first)) in
  let idle := loop NO_BLUETOOTH (st second) in
  let woke := loop NO_BLUETOOTH (wr Serial_pending line (st idle)) in
  drawn_strings (ops first) = ["50%"; "20C"; "50%"; "50%"; "30C"] /\
  drawn_strings (ops second) = ["0%"; "0%"; "0%"] /\
  rd isLcdOn (st second) = true /\
  firstn 2 (ops idle) = [fillScreen TFT_BLACK; digitalWrite_LCD_BACKLIGHT false] /\
  rd isLcdOn (st idle) = false /\
  rd isLcdOn (st woke) = true /\
  List.length (filter (fun o => match o with fillScreen _ => true | _ => false end)
                 (ops woke)) = 1%nat /\
  In (print "CPU:") (ops woke) /\
  drawn_strings (ops woke) = ["20C"; "30C"] /\
  rd lastCpuW (st woke) = 0 /\ rd lastRamW (st woke) = 0 /\ rd lastGpuW (st woke) = 0.
Proof. vm_compute. repeat split. tauto. Qed.

(* ---- freshness ---- *)

Lemma usub_elapsed t q :
  t <= q < t + UINT_MOD -> usub (millis_at q) (millis_at t) = q - t.
Proof.
  intros H. unfold usub, millis_at.
  rewrite <- Zminus_mod. apply Z.mod_small. lia.
Qed.

Lemma drawStatus_run b d :
  drawStatus b d =
  mkRes tt (tick d)
    (status_ops b (millis_at (time_now d)) (rd lastRxMillis d) (rd receivedOnce d)).
Proof.
  unfold drawStatus, status_ops. run_prims.
  open_device d. cbn -[is_fresh millis_at].
  destruct rcv; reflexivity.
Qed.

Lemma Legacy_drawStatus_run d :
  Legacy.drawStatus d =
  mkRes tt (tick d)
    (Legacy_status_ops (millis_at (time_now d)) (rd lastRxMillis d)
       (rd receivedOnce d)).
Proof.
  unfold Legacy.drawStatus, Legacy_status_ops. run_prims.
  open_device d. cbn -[is_fresh millis_at].
  destruct rcv; reflexivity.
Qed.

(** C6, as the code has it.  With the last snapshot received at time [t]
    and the status drawn at time [q] (milliseconds since power-on), less
    than 2^32 ms later, the data is fresh exactly when [q - t] is below
    the threshold: fresh throughout [t, t+T) and stale from [t+T] on.
    The status dot of either firmware is green in the first case and red
    in the second, with the thresholds 2500 and 1500. *)
Theorem fresh_iff_elapsed_below_threshold (T t q : Z) (b : Build) (d : Device) :
  t <= q < t + UINT_MOD ->
  rd lastRxMillis d = millis_at t ->
  time_now d = q ->
  (is_fresh T (millis_at q) (millis_at t) = true <-> q - t < T) /\
  dot_colors (ops (drawStatus b d)) =
    [if q - t <? 2500 then TFT_GREEN else TFT_RED] /\
  dot_colors (ops (Legacy.drawStatus d)) =
    [if q - t <? 1500 then TFT_GREEN else TFT_RED].
Proof.
  intros Hq Ht Hc.
  pose proof (usub_elapsed t q Hq) as E.
  split; [|split].
  - unfold is_fresh. rewrite E. apply Z.ltb_lt.
  - rewrite drawStatus_run, Ht, Hc. cbn [ops status_ops dot_colors].
    unfold is_fresh. now rewrite E.
  - rewrite Legacy_drawStatus_run, Ht, Hc. cbn [ops Legacy_status_ops dot_colors].
    unfold is_fresh. now rewrite E.
Qed.

Lemma fresh_iff_elapsed_below_threshold_witness :
  dot_colors (ops (drawStatus NO_BLUETOOTH (received_at 5000 7499))) = [TFT_GREEN] /\
  dot_colors (ops (drawStatus NO_BLUETOOTH (received_at 5000 7500))) = [TFT_RED].
Proof.
  split.
  - exact (proj1 (proj2 (fresh_iff_elapsed_below_threshold 2500 5000 7499
             NO_BLUETOOTH (received_at 5000 7499) ltac:(vm_compute; split; congruence)
             eq_refl eq_refl))).
  - exact (proj1 (proj2 (fresh_iff_elapsed_below_threshold 2500 5000 7500
             NO_BLUETOOTH (received_at 5000 7500) ltac:(vm_compute; split; congruence)
             eq_refl eq_refl))).
Defined.

(** C6 as stated fails once the 32-bit clock has wrapped: 2^32 ms after
    the last snapshot, [q - t] is far above the threshold and the status
    is fresh all the same. *)
Lemma fresh_after_clock_wrap :
  let t := 1000 in
  let q := 1000 + 2 ^ 32 in
  ~ (is_fresh 2500 (millis_at q) (millis_at t) = true <-> q - t < 2500) /\
  dot_colors (ops (drawStatus NO_BLUETOOTH (received_at t q))) = [TFT_GREEN] /\
  dot_colors (ops (Legacy.drawStatus (received_at t q))) = [TFT_GREEN].
Proof.
  cbv zeta. split; [|split; reflexivity].
  intros [H _]. specialize (H eq_refl). vm_compute in H. discriminate.
Qed.

(* ---- strings ---- *)

Lemma append_nil_r (s : string) : s ++ "" = s.
Proof. induction s; simpl; congruence. Qed.

Lemma append_assoc_s (a b c : string) : (a ++ b) ++ c = a ++ (b ++ c).
Proof. induction a; simpl; congruence. Qed.

Lemma length_append_s (a b : string) :
  String.length (a ++ b) = (String.length a + String.length b)%nat.
Proof. induction a; simpl; congruence. Qed.

Lemma drop_append (a b : string) : drop (String.length a) (a ++ b) = b.
Proof. induction a; simpl; auto. Qed.

Lemma take_append (a b : string) : take (String.length a) (a ++ b) = a.
Proof. induction a; simpl; congruence. Qed.

Lemma take_all (a : string) : take (String.length a) a = a.
Proof. induction a; simpl; congruence. Qed.

Lemma count_char_append ch (a b : string) :
  count_char ch (a ++ b) = (count_char ch a + count_char ch b)%nat.
Proof. induction a; simpl; auto. rewrite IHa. lia. Qed.

Lemma all_chars_append p (a b : string) :
  all_chars p (a ++ b) = all_chars p a && all_chars p b.
Proof. induction a; simpl; auto. rewrite IHa. now rewrite andb_assoc. Qed.

Lemma to_unsigned_nonneg i : 0 <= i -> to_unsigned i = i.
Proof.
  intros H. unfold to_unsigned.
  destruct (i <? 0) eqn:E; [apply Z.ltb_lt in E; lia|reflexivity].
Qed.

Lemma find_char_first ch (f r : string) :
  all_chars (fun c => negb (Ascii.eqb c ch)) f = true ->
  all_chars not_nul f = true ->
  find_char ch (f ++ String ch r) = Some (String.length f).
Proof.
  induction f as [|c f IH]; simpl; intros H N.
  - now rewrite Ascii.eqb_refl.
  - apply andb_prop in H as [H1 H2]. apply andb_prop in N as [N1 N2].
    apply negb_true_iff in H1. unfold not_nul in N1. apply negb_true_iff in N1.
    rewrite H1, N1. now rewrite (IH H2 N2).
Qed.

(** A found character splits the text after the start index: one
    occurrence at the index, the others after it, in the whole text and
    in its part before the first NUL. *)
Lemma find_char_count ch s k :
  Ascii.eqb ch NUL = false ->
  find_char ch s = Some k ->
  (k < String.length s)%nat /\
  count_char ch s = S (count_char ch (drop (S k) s)) /\
  count_char ch (c_str s) = S (count_char ch (c_str (drop (S k) s))).
Proof.
  intros Hn. revert k.
  induction s as [|c s IH]; cbn [find_char]; intros k H.
  - rewrite Hn in H. discriminate.
  - destruct (Ascii.eqb c ch) eqn:E.
    + inversion H; subst. apply Ascii.eqb_eq in E. subst c.
      cbn [c_str drop count_char String.length]. rewrite Hn.
      cbn [count_char]. rewrite Ascii.eqb_refl. repeat split; lia.
    + destruct (Ascii.eqb c NUL) eqn:N; [discriminate|].
      destruct (find_char ch s) as [j|]; [|discriminate].
      inversion H; subst. destruct (IH j eq_refl) as (L & C & C').
      cbn [c_str drop count_char String.length]. rewrite N.
      cbn [count_char]. rewrite E. repeat split; [lia|exact C|exact C'].
Qed.

Lemma find_char_none ch s :
  Ascii.eqb ch NUL = false ->
  find_char ch s = None -> count_char ch (c_str s) = O.
Proof.
  intros Hn. induction s as [|c s IH]; [reflexivity|]. cbn [find_char c_str].
  destruct (Ascii.eqb c ch) eqn:E; [discriminate|].
  destruct (Ascii.eqb c NUL); [reflexivity|].
  destruct (find_char ch s); [discriminate|]. intros _.
  cbn [count_char]. rewrite E. now rewrite IH.
Qed.

Lemma c_str_no_nul s : all_chars not_nul s = true -> c_str s = s.
Proof.
  induction s as [|c s IH]; [reflexivity|]. cbn [all_chars c_str].
  intros H. apply andb_prop in H as [H1 H2]. unfold not_nul in H1.
  apply negb_true_iff in H1. now rewrite H1, IH.
Qed.

Lemma count_char_c_str ch s : (count_char ch (c_str s) <= count_char ch s)%nat.
Proof.
  induction s as [|c s IH]; [reflexivity|]. cbn [c_str count_char].
  destruct (Ascii.eqb c NUL); cbn [count_char]; lia.
Qed.

Lemma drop_drop n k s : drop n (drop k s) = drop (k + n) s.
Proof.
  revert s. induction k as [|k IH]; intros s; simpl; auto.
  destruct s; simpl; auto. destruct n; reflexivity.
Qed.

Lemma count_char_drop ch n s : (count_char ch (drop n s) <= count_char ch s)%nat.
Proof.
  revert s. induction n as [|n IH]; intros s; simpl; auto.
  destruct s; simpl; auto. specialize (IH s). lia.
Qed.

(** [indexOf] from a start index that is not negative: either nothing is
    found, or the index found is at or after the start and the text after
    it holds one occurrence less. *)
Lemma indexOf_from_found ch from s :
  Ascii.eqb ch NUL = false ->
  0 <= from ->
  0 <= indexOf_from ch from s ->
  from <= indexOf_from ch from s < strlen s /\
  count_char ch (drop (Z.to_nat from) s) =
    S (count_char ch (drop (Z.to_nat (indexOf_from ch from s + 1)) s)) /\
  count_char ch (c_str (drop (Z.to_nat from) s)) =
    S (count_char ch (c_str (drop (Z.to_nat (indexOf_from ch from s + 1)) s))).
Proof.
  intros Hn Hf. unfold indexOf_from, to_unsigned.
  destruct (from <? 0) eqn:E; [apply Z.ltb_lt in E; lia|].
  destruct (strlen s <=? from) eqn:L; [lia|].
  apply Z.leb_gt in L.
  destruct (find_char ch (drop (Z.to_nat from) s)) as [k|] eqn:F; [|lia].
  intros _.
  destruct (find_char_count _ _ _ Hn F) as (Hk & Hc & Hc').
  assert (Hlen : (String.length (drop (Z.to_nat from) s) <= String.length s - Z.to_nat from)%nat).
  { clear. generalize (Z.to_nat from). intros n. revert s.
    induction n; intros s; simpl; [lia|]. destruct s; simpl; [lia|]. apply IHn. }
  assert (D : (Z.to_nat from + S k)%nat = Z.to_nat (from + Z.of_nat k + 1)) by lia.
  unfold strlen in *. split; [lia|].
  rewrite Hc, Hc', drop_drop, D. split; reflexivity.
Qed.

Lemma drop_beyond n : forall s, (String.length s <= n)%nat -> drop n s = "".
Proof.
  induction n as [|n IH]; intros s H.
  - destruct s; [reflexivity|cbn in H; lia].
  - destruct s; [reflexivity|]. cbn [drop]. apply IH. cbn in H. lia.
Qed.

(** [indexOf] finds an occurrence that stands before the first NUL. *)
Lemma indexOf_from_some ch from s :
  Ascii.eqb ch NUL = false ->
  0 <= from ->
  (0 < count_char ch (c_str (drop (Z.to_nat from) s)))%nat ->
  0 <= indexOf_from ch from s.
Proof.
  intros Hn Hf Hc. unfold indexOf_from. rewrite to_unsigned_nonneg by exact Hf.
  destruct (strlen s <=? from) eqn:L.
  - apply Z.leb_le in L. unfold strlen in L.
    rewrite drop_beyond in Hc by lia. cbn in Hc. lia.
  - destruct (find_char ch (drop (Z.to_nat from) s)) as [k|] eqn:F; [lia|].
    rewrite (find_char_none _ _ Hn F) in Hc. lia.
Qed.

Lemma count_char_ltrim ch s : (count_char ch (ltrim s) <= count_char ch s)%nat.
Proof.
  induction s as [|c s IH]; simpl; auto.
  destruct (isspace c); simpl; lia.
Qed.

Lemma count_char_rtrim ch s : (count_char ch (rtrim s) <= count_char ch s)%nat.
Proof.
  induction s as [|c s IH]; simpl; auto.
  destruct (rtrim s) eqn:E.
  - destruct (isspace c); simpl in *; lia.
  - simpl in *. lia.
Qed.

Lemma count_char_trim ch s : (count_char ch (trim s) <= count_char ch s)%nat.
Proof.
  unfold trim. etransitivity; [apply count_char_rtrim|apply count_char_ltrim].
Qed.

(* ---- the parser ---- *)

Lemma parseLine_rejects_before_nul line out :
  (count_char COMMA (c_str line) < 4)%nat -> parseLine line out = (false, out).
Proof.
  intros H. unfold parseLine, indexOf.
  set (i1 := indexOf_from COMMA 0 line).
  set (i2 := indexOf_from COMMA (i1 + 1) line).
  set (i3 := indexOf_from COMMA (i2 + 1) line).
  set (i4 := indexOf_from COMMA (i3 + 1) line).
  destruct (i1 <? 0) eqn:E1; [reflexivity|].
  destruct (i2 <? 0) eqn:E2; [reflexivity|].
  destruct (i3 <? 0) eqn:E3; [reflexivity|].
  destruct (i4 <? 0) eqn:E4; [reflexivity|].
  exfalso.
  apply Z.ltb_ge in E1, E2, E3, E4.
  destruct (indexOf_from_found COMMA 0 line eq_refl ltac:(lia) E1) as (B1 & _ & C1).
  fold i1 in B1, C1.
  destruct (indexOf_from_found COMMA (i1 + 1) line eq_refl ltac:(lia) E2) as (B2 & _ & C2).
  fold i2 in B2, C2.
  destruct (indexOf_from_found COMMA (i2 + 1) line eq_refl ltac:(lia) E3) as (B3 & _ & C3).
  fold i3 in B3, C3.
  destruct (indexOf_from_found COMMA (i3 + 1) line eq_refl ltac:(lia) E4) as (B4 & _ & C4).
  fold i4 in B4, C4.
  cbn [Z.to_nat drop] in C1. lia.
Qed.

Lemma parseLine_rejects line out :
  (count_char COMMA line < 4)%nat -> parseLine line out = (false, out).
Proof.
  intros H. apply parseLine_rejects_before_nul.
  pose proof (count_char_c_str COMMA line). lia.
Qed.

Lemma parseLine_accepts line out :
  (4 <= count_char COMMA (c_str line))%nat -> fst (parseLine line out) = true.
Proof.
  intros H. unfold parseLine, indexOf.
  set (i1 := indexOf_from COMMA 0 line).
  set (i2 := indexOf_from COMMA (i1 + 1) line).
  set (i3 := indexOf_from COMMA (i2 + 1) line).
  set (i4 := indexOf_from COMMA (i3 + 1) line).
  assert (E1 : 0 <= i1)
    by (apply indexOf_from_some; [reflexivity|lia|cbn [Z.to_nat drop]; lia]).
  destruct (indexOf_from_found COMMA 0 line eq_refl ltac:(lia) E1) as (B1 & _ & C1).
  fold i1 in B1, C1. cbn [Z.to_nat drop] in C1.
  assert (E2 : 0 <= i2) by (apply indexOf_from_some; [reflexivity|lia|lia]).
  destruct (indexOf_from_found COMMA (i1 + 1) line eq_refl ltac:(lia) E2) as (B2 & _ & C2).
  fold i2 in B2, C2.
  assert (E3 : 0 <= i3) by (apply indexOf_from_some; [reflexivity|lia|lia]).
  destruct (indexOf_from_found COMMA (i2 + 1) line eq_refl ltac:(lia) E3) as (B3 & _ & C3).
  fold i3 in B3, C3.
  assert (E4 : 0 <= i4) by (apply indexOf_from_some; [reflexivity|lia|lia]).
  apply Z.ltb_ge in E1, E2, E3, E4. now rewrite E1, E2, E3, E4.
Qed.

Lemma rejected_line_serial b d :
  fst (parseLine (trim (rd lineBuf d)) Metrics_init) = false ->
  serial_char b NL d = mkRes tt (wr lineBuf "" d) [].
Proof.
  intros H. unfold serial_char. cbn [Ascii.eqb NL Bool.eqb].
  run_prims. rewrite H. reflexivity.
Qed.

Lemma rejected_line_ble b d :
  fst (parseLine (trim (rd lineBuf d)) Metrics_init) = false ->
  ble_char b NL d = mkRes tt (wr lineBuf "" d) [].
Proof.
  intros H. unfold ble_char. cbn [Ascii.eqb NL Bool.eqb].
  run_prims. rewrite H. reflexivity.
Qed.

Lemma rejected_line_legacy d :
  fst (parseLine (trim (rd lineBuf d)) Metrics_init) = false ->
  Legacy.serial_char NL d = mkRes tt (wr lineBuf "" d) [].
Proof.
  intros H. unfold Legacy.serial_char. cbn [Ascii.eqb NL Bool.eqb].
  run_prims. rewrite H. reflexivity.
Qed.

(** C4. A line with fewer than four commas is rejected by [parseLine],
    which leaves its output argument as it was; on either transport the
    terminator of such a line only empties the line buffer: the current
    snapshot, the draw cache, the panel state and everything else are
    unchanged, and no call is made to the display. *)
Theorem malformed_line_changes_nothing (b : Build) (d : Device) (out : Metrics) :
  (count_char COMMA (rd lineBuf d) < 4)%nat ->
  parseLine (trim (rd lineBuf d)) out = (false, out) /\
  serial_char b NL d = mkRes tt (wr lineBuf "" d) [] /\
  ble_char b NL d = mkRes tt (wr lineBuf "" d) [] /\
  Legacy.serial_char NL d = mkRes tt (wr lineBuf "" d) [] /\
  rd current (st (serial_char b NL d)) = rd current d /\
  cache (st (serial_char b NL d)) = cache d /\
  lcd (st (serial_char b NL d)) = lcd d /\
  drawing_ops (ops (serial_char b NL d)) = [].
Proof.
  intros H.
  assert (R : forall o, parseLine (trim (rd lineBuf d)) o = (false, o)).
  { intros o. apply parseLine_rejects.
    pose proof (count_char_trim COMMA (rd lineBuf d)). lia. }
  assert (F : fst (parseLine (trim (rd lineBuf d)) Metrics_init) = false)
    by now rewrite R.
  rewrite (rejected_line_serial b d F), (rejected_line_ble b d F),
    (rejected_line_legacy d F).
  repeat split. apply R.
Qed.

Lemma malformed_line_changes_nothing_witness :
  let d := wr lineBuf "42.1,55.4,63.2" (booted RPC_BLE_SUPPORTED "" 1000) in
  serial_char RPC_BLE_SUPPORTED NL d = mkRes tt (wr lineBuf "" d) [].
Proof.
  intros d.
  exact (proj1 (proj2 (malformed_line_changes_nothing RPC_BLE_SUPPORTED d
                         Metrics_init ltac:(vm_compute; lia)))).
Defined.

(* ---- five fields ---- *)

Lemma strlen_append a b : strlen (a ++ b) = strlen a + strlen b.
Proof. unfold strlen. rewrite length_append_s. lia. Qed.

Lemma strlen_nonneg s : 0 <= strlen s.
Proof. unfold strlen. lia. Qed.

Lemma indexOf_from_app (p f r : string) :
  all_chars not_comma f = true -> all_chars not_nul f = true ->
  indexOf_from COMMA (strlen p) (p ++ f ++ String COMMA r) = strlen p + strlen f.
Proof.
  intros H N. unfold indexOf_from.
  rewrite to_unsigned_nonneg by apply strlen_nonneg.
  destruct (strlen (p ++ f ++ String COMMA r) <=? strlen p) eqn:L.
  - apply Z.leb_le in L. rewrite !strlen_append in L.
    unfold strlen in L. simpl String.length in L. lia.
  - unfold strlen. rewrite Nat2Z.id, drop_append, (find_char_first COMMA f r H N).
    reflexivity.
Qed.

Lemma substring_inside l r s :
  0 <= l <= r -> l < strlen s -> r <= strlen s ->
  substring l r s = take (Z.to_nat (r - l)) (drop (Z.to_nat l) s).
Proof.
  intros H1 H2 H3. unfold substring.
  rewrite !to_unsigned_nonneg by lia.
  destruct (r <? l) eqn:E; [apply Z.ltb_lt in E; lia|].
  destruct (strlen s <=? l) eqn:E1; [apply Z.leb_le in E1; lia|].
  destruct (strlen s <? r) eqn:E2; [apply Z.ltb_lt in E2; lia|].
  reflexivity.
Qed.

Lemma substring_app (p f r : string) :
  (0 < String.length f + String.length r)%nat ->
  substring (strlen p) (strlen p + strlen f) (p ++ f ++ r) = f.
Proof.
  intros H.
  pose proof (strlen_nonneg p). pose proof (strlen_nonneg f).
  rewrite substring_inside.
  - replace (strlen p + strlen f - strlen p) with (strlen f) by lia.
    unfold strlen. rewrite !Nat2Z.id, drop_append, take_append. reflexivity.
  - lia.
  - rewrite !strlen_append. unfold strlen in *. lia.
  - rewrite !strlen_append. unfold strlen in *. lia.
Qed.

Lemma substring_from_app (p f : string) :
  substring_from (strlen p) (p ++ f) = f.
Proof.
  pose proof (strlen_nonneg p). pose proof (strlen_nonneg f).
  unfold substring_from.
  destruct f as [|c f].
  - unfold substring. rewrite !to_unsigned_nonneg by (try apply strlen_nonneg; lia).
    rewrite append_nil_r, Z.ltb_irrefl, Z.leb_refl. reflexivity.
  - rewrite substring_inside.
    + rewrite strlen_append.
      replace (strlen p + strlen (String c f) - strlen p) with (strlen (String c f)) by lia.
      unfold strlen. rewrite !Nat2Z.id, drop_append, take_all. reflexivity.
    + rewrite strlen_append. lia.
    + rewrite strlen_append. unfold strlen. simpl String.length. lia.
    + lia.
Qed.

Lemma parseLine_fields f1 f2 f3 f4 f5 out :
  all_chars not_comma f1 = true -> all_chars not_comma f2 = true ->
  all_chars not_comma f3 = true -> all_chars not_comma f4 = true ->
  all_chars not_nul f1 = true -> all_chars not_nul f2 = true ->
  all_chars not_nul f3 = true -> all_chars not_nul f4 = true ->
  parseLine (join5 f1 f2 f3 f4 f5) out =
  (true, {| cpu := toFloat f1; tempC := toFloat f2; ram := toFloat f3;
            gpu := toFloat f4; gpuTempC := toFloat f5 |}).
Proof.
  intros H1 H2 H3 H4 N1 N2 N3 N4.
  set (c := String COMMA "").
  set (p1 := f1 ++ c). set (p2 := p1 ++ f2 ++ c).
  set (p3 := p2 ++ f3 ++ c). set (p4 := p3 ++ f4 ++ c).
  assert (L1 : strlen p1 = strlen f1 + 1)
    by (unfold p1, strlen; rewrite length_append_s; simpl; lia).
  assert (L2 : strlen p2 = strlen p1 + strlen f2 + 1)
    by (unfold p2, strlen; rewrite !length_append_s; simpl; lia).
  assert (L3 : strlen p3 = strlen p2 + strlen f3 + 1)
    by (unfold p3, strlen; rewrite !length_append_s; simpl; lia).
  assert (L4 : strlen p4 = strlen p3 + strlen f4 + 1)
    by (unfold p4, strlen; rewrite !length_append_s; simpl; lia).
  set (line := join5 f1 f2 f3 f4 f5).
  assert (A0 : line = "" ++ f1 ++ String COMMA (f2 ++ String COMMA (f3 ++ String COMMA (f4 ++ String COMMA f5))))
    by reflexivity.
  assert (A1 : line = p1 ++ f2 ++ String COMMA (f3 ++ String COMMA (f4 ++ String COMMA f5)))
    by (unfold line, join5, p1, c; rewrite !append_assoc_s; reflexivity).
  assert (A2 : line = p2 ++ f3 ++ String COMMA (f4 ++ String COMMA f5))
    by (rewrite A1; unfold p2, c; rewrite !append_assoc_s; reflexivity).
  assert (A3 : line = p3 ++ f4 ++ String COMMA f5)
    by (rewrite A2; unfold p3, c; rewrite !append_assoc_s; reflexivity).
  assert (A4 : line = p4 ++ f5)
    by (rewrite A3; unfold p4, c; rewrite !append_assoc_s; reflexivity).
  assert (I1 : indexOf COMMA line = strlen f1).
  { unfold indexOf. rewrite A0. change 0 with (strlen "").
    rewrite indexOf_from_app by assumption. reflexivity. }
  assert (I2 : indexOf_from COMMA (strlen f1 + 1) line = strlen p1 + strlen f2).
  { rewrite <- L1, A1. now apply indexOf_from_app. }
  assert (I3 : indexOf_from COMMA (strlen p1 + strlen f2 + 1) line = strlen p2 + strlen f3).
  { rewrite <- L2, A2. now apply indexOf_from_app. }
  assert (I4 : indexOf_from COMMA (strlen p2 + strlen f3 + 1) line = strlen p3 + strlen f4).
  { rewrite <- L3, A3. now apply indexOf_from_app. }
  unfold parseLine. fold line. rewrite I1, I2, I3, I4.
  assert (N : forall s, 0 <= strlen s) by (intros; unfold strlen; lia).
  pose proof (N f1); pose proof (N f2); pose proof (N f3); pose proof (N f4);
  pose proof (N p1); pose proof (N p2); pose proof (N p3).
  repeat match goal with
         | |- context [?a <? 0] =>
             let E := fresh in destruct (a <? 0) eqn:E; [apply Z.ltb_lt in E; lia|clear E]
         end.
  cbn [orb].
  f_equal. f_equal.
  - rewrite A0. change 0 with (strlen ""). change (strlen f1) with (strlen "" + strlen f1) at 1.
    rewrite substring_app; [reflexivity|simpl; lia].
  - rewrite <- L1. rewrite A1. rewrite substring_app; [reflexivity|simpl; lia].
  - rewrite <- L2. rewrite A2. rewrite substring_app; [reflexivity|simpl; lia].
  - rewrite <- L3. rewrite A3. rewrite substring_app; [reflexivity|simpl; lia].
  - rewrite <- L4. rewrite A4. now rewrite substring_from_app.
Qed.

(* ---- lines of five fields ---- *)

Lemma split_comma s :
  (1 <= count_char COMMA (c_str s))%nat ->
  exists a b, s = a ++ String COMMA b /\ all_chars not_comma a = true /\
              all_chars not_nul a = true /\
              count_char COMMA (c_str s) = S (count_char COMMA (c_str b)).
Proof.
  induction s as [|c s IH]; cbn [c_str count_char]; intros H; [lia|].
  destruct (Ascii.eqb c NUL) eqn:N; [cbn in H; lia|].
  cbn [count_char] in *.
  destruct (Ascii.eqb c COMMA) eqn:E.
  - apply Ascii.eqb_eq in E. subst c. exists "", s. repeat split.
  - destruct (IH ltac:(lia)) as (a & b & E1 & E2 & E3 & E4).
    exists (String c a), b. cbn [append all_chars]. unfold not_comma at 1.
    unfold not_nul at 1. rewrite E, N, E2, E3, E4.
    repeat split. now rewrite E1 at 1.
Qed.

Lemma five_fields line :
  (4 <= count_char COMMA (c_str line))%nat ->
  exists f1 f2 f3 f4 f5,
    line = join5 f1 f2 f3 f4 f5 /\
    all_chars not_comma f1 = true /\ all_chars not_comma f2 = true /\
    all_chars not_comma f3 = true /\ all_chars not_comma f4 = true /\
    all_chars not_nul f1 = true /\ all_chars not_nul f2 = true /\
    all_chars not_nul f3 = true /\ all_chars not_nul f4 = true.
Proof.
  intros H.
  destruct (split_comma line ltac:(lia)) as (f1 & r1 & E1 & A1 & N1 & C1).
  destruct (split_comma r1 ltac:(lia)) as (f2 & r2 & E2 & A2 & N2 & C2).
  destruct (split_comma r2 ltac:(lia)) as (f3 & r3 & E3 & A3 & N3 & C3).
  destruct (split_comma r3 ltac:(lia)) as (f4 & r4 & E4 & A4 & N4 & C4).
  exists f1, f2, f3, f4, r4. unfold join5. subst. repeat split; assumption.
Qed.

(* ---- text to number ---- *)

Lemma digit_char_facts n :
  (n <= 9)%nat ->
  is_digit (digit_char n) = true /\ digit_val (digit_char n) = Z.of_nat n /\
  isspace (digit_char n) = false /\ not_comma (digit_char n) = true /\
  scan_sign (String (digit_char n) "") = (false, String (digit_char n) "").
Proof.
  intros H.
  do 10 (destruct n as [|n]; [repeat split|]). lia.
Qed.

Lemma scan_digits_text ds : forall acc cnt rest,
  Forall (fun d => (d <= 9)%nat) ds -> starts_nondigit rest ->
  scan_digits acc cnt (digits_text ds ++ rest) =
  (digits_value acc ds, (cnt + List.length ds)%nat, rest).
Proof.
  induction ds as [|d ds IH]; intros acc cnt rest F R.
  - simpl. rewrite Nat.add_0_r. destruct rest as [|c r]; [reflexivity|].
    simpl in R. simpl. now rewrite R.
  - inversion F as [|? ? Hd Hds]; subst.
    destruct (digit_char_facts d Hd) as (D1 & D2 & _).
    cbn [digits_text append scan_digits]. rewrite D1, D2.
    rewrite (IH _ _ _ Hds R). cbn [digits_value List.length].
    f_equal. f_equal. lia.
Qed.

Lemma digits_value_app a b : forall acc,
  digits_value acc (a ++ b)%list = digits_value (digits_value acc a) b.
Proof. induction a as [|d a IH]; intros acc; simpl; auto. Qed.

Lemma scan_sign_digits d ds rest :
  (d <= 9)%nat ->
  scan_sign (digits_text (d :: ds) ++ rest) = (false, digits_text (d :: ds) ++ rest).
Proof.
  intros H. cbn [digits_text append].
  do 10 (destruct d as [|d]; [reflexivity|]). lia.
Qed.

Lemma digit_not_word d rest :
  (d <= 9)%nat ->
  starts_with_ci "inf" (String (digit_char d) rest) = false /\
  starts_with_ci "nan" (String (digit_char d) rest) = false.
Proof.
  intros H. do 10 (destruct d as [|d]; [split; reflexivity|]). lia.
Qed.

Lemma numeral_not_hex d ip frac :
  (d <= 9)%nat -> Forall (fun d => (d <= 9)%nat) ip ->
  match frac with EmptyString => True | String c _ => c = "."%char end ->
  is_hex_prefix (digits_text (d :: ip) ++ frac) = false.
Proof.
  intros Hd Hip Hf. cbn [digits_text append].
  destruct ip as [|d' ip].
  - cbn [digits_text append]. destruct frac as [|c r].
    + do 10 (destruct d as [|d]; [reflexivity|]). lia.
    + subst c. do 10 (destruct d as [|d]; [reflexivity|]). lia.
  - inversion Hip as [|? ? Hd' _]; subst. cbn [digits_text append].
    do 10 (destruct d as [|d];
           [do 10 (destruct d' as [|d']; [reflexivity|]); lia|]).
    lia.
Qed.

(** The text of a numeral is read whole, as a decimal number. *)
Lemma toFloat_numeral n :
  well_formed n ->
  toFloat (numeral_text n) =
  f32_of_f64 (f64_of_decimal (num_neg n) (numeral_digits n)
                (- Z.of_nat (List.length (num_frac n)))).
Proof.
  destruct n as [neg ip fp]. unfold well_formed, numeral_text, numeral_digits.
  cbn [num_neg num_int num_frac]. intros [Hne F].
  apply Forall_app in F as [Fi Ff].
  destruct ip as [|d ip]; [congruence|].
  inversion Fi as [|? ? Hd Hip]; subst.
  destruct (digit_char_facts d Hd) as (_ & _ & Dsp & _).
  set (frac := match fp with [] => "" | _ :: _ => "." ++ digits_text fp end).
  assert (Rf : starts_nondigit frac) by (unfold frac; destruct fp; simpl; auto).
  assert (Rd : match frac with EmptyString => True | String c _ => c = "."%char end)
    by (unfold frac; destruct fp; simpl; auto).
  assert (S1 : scan_sign (ltrim ((if neg then "-" else "") ++ digits_text (d :: ip) ++ frac))
               = (neg, digits_text (d :: ip) ++ frac)).
  { destruct neg.
    - reflexivity.
    - change ("" ++ ?x) with x.
      replace (ltrim (digits_text (d :: ip) ++ frac)) with (digits_text (d :: ip) ++ frac)
        by (cbn [digits_text append ltrim]; now rewrite Dsp).
      now apply scan_sign_digits. }
  unfold toFloat, strtod. rewrite S1.
  rewrite (numeral_not_hex d ip frac Hd Hip Rd).
  cbn [digits_text append].
  destruct (digit_not_word d (digits_text ip ++ frac) Hd) as [W1 W2].
  rewrite W1, W2.
  change (String (digit_char d) (digits_text ip ++ frac))
    with (digits_text (d :: ip) ++ frac).
  unfold strtod_decimal.
  rewrite (scan_digits_text (d :: ip) 0 0%nat frac Fi Rf).
  rewrite digits_value_app.
  unfold frac. destruct fp as [|e fp].
  - cbn [List.length Nat.add scan_exponent digits_value Z.of_nat].
    reflexivity.
  - change ("." ++ digits_text (e :: fp)) with (String "."%char (digits_text (e :: fp))).
    cbv iota beta.
    rewrite <- (append_nil_r (digits_text (e :: fp))).
    rewrite (scan_digits_text (e :: fp) _ 0%nat "" Ff I).
    cbn [List.length Nat.add scan_exponent].
    reflexivity.
Qed.

Lemma toFloat_not_a_number s : not_a_number s = true -> toFloat s = f32_zero.
Proof.
  unfold not_a_number, toFloat, strtod.
  destruct (scan_sign (ltrim s)) as [neg s1]. cbn [snd]. cbv zeta.
  intros H. apply andb_prop in H as [H H3]. apply andb_prop in H as [H1 H2].
  apply negb_true_iff in H1, H2. rewrite H1, H2.
  destruct s1 as [|c r]; [reflexivity|].
  apply andb_prop in H3 as [D P]. apply negb_true_iff in D, P.
  assert (X : is_hex_prefix (String c r) = false).
  { destruct c as [[] [] [] [] [] [] [] []]; try reflexivity; discriminate. }
  rewrite X. unfold strtod_decimal. cbn [scan_digits]. rewrite D.
  destruct c as [[] [] [] [] [] [] [] []]; try discriminate; reflexivity.
Qed.

Lemma digits_text_no_comma ds :
  Forall (fun d => (d <= 9)%nat) ds -> all_chars not_comma (digits_text ds) = true.
Proof.
  induction 1 as [|d ds Hd _ IH]; [reflexivity|].
  cbn [digits_text all_chars]. rewrite IH.
  now destruct (digit_char_facts d Hd) as (_ & _ & _ & -> & _).
Qed.

Lemma numeral_text_no_comma n :
  well_formed n -> all_chars not_comma (numeral_text n) = true.
Proof.
  destruct n as [neg ip fp]. unfold well_formed, numeral_text.
  cbn [num_neg num_int num_frac]. intros [_ F].
  apply Forall_app in F as [Fi Ff].
  rewrite !all_chars_append, (digits_text_no_comma _ Fi).
  destruct neg, fp; cbn [all_chars append andb]; try reflexivity;
    try (change (not_comma "."%char) with true);
    try (change (not_comma "-"%char) with true);
    cbn [andb]; rewrite ?(digits_text_no_comma _ Ff); reflexivity.
Qed.

Lemma digits_text_no_nul ds :
  Forall (fun d => (d <= 9)%nat) ds -> all_chars not_nul (digits_text ds) = true.
Proof.
  induction 1 as [|d ds Hd _ IH]; [reflexivity|].
  cbn [digits_text all_chars]. rewrite IH.
  do 10 (destruct d as [|d]; [reflexivity|]). lia.
Qed.

Lemma numeral_text_no_nul n :
  well_formed n -> all_chars not_nul (numeral_text n) = true.
Proof.
  destruct n as [neg ip fp]. unfold well_formed, numeral_text.
  cbn [num_neg num_int num_frac]. intros [_ F].
  apply Forall_app in F as [Fi Ff].
  rewrite !all_chars_append, (digits_text_no_nul _ Fi).
  destruct neg, fp; cbn [all_chars append andb]; try reflexivity;
    try (change (not_nul "."%char) with true);
    try (change (not_nul "-"%char) with true);
    cbn [andb]; rewrite ?(digits_text_no_nul _ Ff); reflexivity.
Qed.

(* ---- short numerals are converted to the nearest float ---- *)

Lemma all_below_spec p n :
  all_below p n = true -> forall k, 0 <= k < Zpos n -> p k = true.
Proof.
  unfold all_below.
  set (f := fun st : Z * bool => (fst st + 1, snd st && p (fst st))).
  assert (G : forall m,
             fst (Pos.iter f (0, true) m) = Zpos m /\
             (snd (Pos.iter f (0, true) m) = true ->
              forall k, 0 <= k < Zpos m -> p k = true)).
  { induction m as [|m IH] using Pos.peano_ind.
    - cbn. split; [reflexivity|]. intros H k Hk.
      assert (k = 0) by lia. subst k. exact H.
    - rewrite Pos.iter_succ. destruct IH as [I1 I2].
      unfold f at 1. cbn [fst snd]. rewrite I1. split; [lia|].
      intros H k Hk. apply andb_prop in H as [H1 H2].
      destruct (Z.eq_dec k (Zpos m)) as [->|N]; [now rewrite <- I1|].
      apply I2; [exact H1|lia]. }
  intros H. now apply (G n).
Qed.

Lemma whole_numbers_checked : all_below (decimal_checked 0) 100000 = true.
Proof. vm_compute. reflexivity. Qed.

Lemma one_decimal_checked : all_below (decimal_checked 1) 100000 = true.
Proof. vm_compute. reflexivity. Qed.

Lemma two_decimals_checked : all_below (decimal_checked 2) 100000 = true.
Proof. vm_compute. reflexivity. Qed.

Lemma digits_value_nonneg ds : forall acc, 0 <= acc -> 0 <= digits_value acc ds.
Proof.
  induction ds as [|d ds IH]; intros acc H; [exact H|].
  cbn [digits_value]. apply IH. lia.
Qed.

(* The sign of a number takes no part in its rounding. *)

Lemma binary_round_aux_sign prec emax s m e l :
  binary_round_aux prec emax s m e l =
  with_sign s (binary_round_aux prec emax false m e l).
Proof.
  unfold binary_round_aux.
  destruct (shr_fexp prec emax m e l) as [mrs' e'].
  destruct (shr_fexp prec emax _ e' loc_Exact) as [mrs'' e''].
  destruct (shr_m mrs''); [reflexivity| |reflexivity].
  now destruct (e'' <=? emax - prec).
Qed.

Lemma binary_round_sign prec emax s m e :
  binary_round prec emax s m e = with_sign s (binary_round prec emax false m e).
Proof.
  unfold binary_round. destruct (shl_align m e _) as [mz ez].
  apply binary_round_aux_sign.
Qed.

Lemma f64_of_decimal_sign s k e :
  f64_of_decimal s k e = with_sign s (f64_of_decimal false k e).
Proof.
  unfold f64_of_decimal, f64_of_ratio.
  destruct k as [|p|p]; try reflexivity.
  destruct e as [|q|q]; try apply binary_round_sign.
  destruct (SFdiv_core_binary _ _ _ _ _ _) as [[q0 e0] l0].
  apply binary_round_aux_sign.
Qed.

Lemma f32_of_f64_sign s x :
  f32_of_f64 (with_sign s x) = with_sign s (f32_of_f64 x).
Proof.
  destruct x as [s0|s0| |s0 m e]; try reflexivity.
  cbn [with_sign f32_of_f64].
  rewrite (binary_round_sign _ _ s), (binary_round_sign _ _ s0).
  now destruct (binary_round f32_prec f32_emax false m e).
Qed.

Lemma nearest_f32_sign s num den x :
  nearest_f32 s num den (with_sign s x) = nearest_f32 false num den (with_sign false x).
Proof.
  destruct x as [s0|s0| |s0 m e]; cbn [with_sign nearest_f32]; try reflexivity.
  - now destruct s.
  - cbv zeta. now destruct s.
Qed.

Lemma short_numeral_converted n :
  well_formed n -> short_numeral n -> denotes n (toFloat (numeral_text n)) = true.
Proof.
  intros W [B L]. rewrite (toFloat_numeral n W). unfold denotes, numeral_scale.
  rewrite f64_of_decimal_sign, f32_of_f64_sign, nearest_f32_sign.
  rewrite <- f32_of_f64_sign, <- f64_of_decimal_sign.
  assert (K : 0 <= numeral_digits n < 100000).
  { split; [|exact B]. unfold numeral_digits. now apply digits_value_nonneg. }
  assert (C : exists j, Z.of_nat (List.length (num_frac n)) = j /\
                        all_below (decimal_checked j) 100000 = true).
  { destruct (num_frac n) as [|a [|b [|c r]]]; cbn [List.length] in *.
    - exists 0. split; [reflexivity|exact whole_numbers_checked].
    - exists 1. split; [reflexivity|exact one_decimal_checked].
    - exists 2. split; [reflexivity|exact two_decimals_checked].
    - lia. }
  destruct C as (j & -> & C).
  exact (all_below_spec _ _ C _ K).
Qed.

(** C7, as the code has it.  A line with at least four commas before its
    first NUL byte is accepted: it splits at its first four commas into
    five fields, and each member of the snapshot is [toFloat] of its
    field, as it is, with no clamping.  A field written as a decimal
    numeral whose digits read below 100000, with at most two of them after
    the point, gives the float nearest to the number written, and a field
    that does not begin with a number gives 0.  The conversion reads the
    number that a field begins with and leaves the rest: a decimal number
    with its exponent, a hexadecimal one, [inf] or [nan]. *)
Theorem parse_assigns_five_fields
  (line junk : string) (out : Metrics) (n1 n2 n3 n4 n5 : numeral) :
  (4 <= count_char COMMA (c_str line))%nat ->
  well_formed n1 -> well_formed n2 -> well_formed n3 -> well_formed n4 ->
  well_formed n5 ->
  short_numeral n1 -> short_numeral n2 -> short_numeral n3 ->
  short_numeral n4 -> short_numeral n5 ->
  not_a_number junk = true ->
  (exists f1 f2 f3 f4 f5,
     line = join5 f1 f2 f3 f4 f5 /\
     all_chars not_comma f1 = true /\ all_chars not_comma f2 = true /\
     all_chars not_comma f3 = true /\ all_chars not_comma f4 = true /\
     parseLine line out =
       (true, {| cpu := toFloat f1; tempC := toFloat f2; ram := toFloat f3;
                 gpu := toFloat f4; gpuTempC := toFloat f5 |})) /\
  (let r := parseLine (join5 (numeral_text n1) (numeral_text n2) (numeral_text n3)
                         (numeral_text n4) (numeral_text n5)) out in
   fst r = true /\
   denotes n1 (cpu (snd r)) = true /\ denotes n2 (tempC (snd r)) = true /\
   denotes n3 (ram (snd r)) = true /\ denotes n4 (gpu (snd r)) = true /\
   denotes n5 (gpuTempC (snd r)) = true) /\
  toFloat junk = f32_zero /\
  (toFloat "12abc" = f32_of_Z 12 /\ toFloat " -1.5E+3" = f32_of_Z (-1500) /\
   nearest_f32 false 25 10 (toFloat "25e-1") = true /\
   toFloat "0x1A" = f32_of_Z 26 /\ toFloat "0x1.8p1" = f32_of_Z 3 /\
   toFloat "inf" = S754_infinity false /\
   toFloat "-Infinity" = S754_infinity true /\ toFloat "nan" = S754_nan).
Proof.
  intros H W1 W2 W3 W4 W5 S1 S2 S3 S4 S5 J. split; [|split; [|split]].
  - destruct (five_fields line H)
      as (f1 & f2 & f3 & f4 & f5 & E & A1 & A2 & A3 & A4 & N1 & N2 & N3 & N4).
    exists f1, f2, f3, f4, f5. repeat split; try assumption.
    rewrite E. now apply parseLine_fields.
  - cbv zeta.
    rewrite parseLine_fields
      by (now apply numeral_text_no_comma || now apply numeral_text_no_nul).
    cbn [fst snd cpu tempC ram gpu gpuTempC].
    repeat split; now apply short_numeral_converted.
  - now apply toFloat_not_a_number.
  - vm_compute. repeat split.
Qed.

Lemma parse_assigns_five_fields_witness :
  let r := parseLine "250.5,-1,63.2,38.0,67.0" Metrics_init in
  fst r = true /\
  denotes n_250_5 (cpu (snd r)) = true /\ denotes n_minus_1 (tempC (snd r)) = true /\
  denotes n_63_2 (ram (snd r)) = true /\ denotes n_38_0 (gpu (snd r)) = true /\
  denotes n_67_0 (gpuTempC (snd r)) = true.
Proof.
  exact (proj1 (proj2 (parse_assigns_five_fields "42.1,55.4,63.2,38.0,67.0" "n/a"
                  Metrics_init n_250_5 n_minus_1 n_63_2 n_38_0 n_67_0
                  ltac:(vm_compute; lia)
                  ltac:(well_formed_numeral) ltac:(well_formed_numeral)
                  ltac:(well_formed_numeral) ltac:(well_formed_numeral)
                  ltac:(well_formed_numeral)
                  ltac:(split; [reflexivity|cbn; lia])
                  ltac:(split; [reflexivity|cbn; lia])
                  ltac:(split; [reflexivity|cbn; lia])
                  ltac:(split; [reflexivity|cbn; lia])
                  ltac:(split; [reflexivity|cbn; lia])
                  eq_refl))).
Defined.

(** C7 as stated fails twice.  The line made of "1,2", a NUL byte and
    ",3,4,5" holds four commas and is refused, because the search for a
    comma ends at the NUL byte; read from the serial port it leaves the
    device without a snapshot.  And the numeral
    1.0000000596046447753906251 lies above the midpoint of 1 and the next
    float, which is therefore the float nearest to it, but it is read as 1:
    the conversion to a double lands on the midpoint, and the cast to
    float takes that tie to the even side. *)
Lemma four_commas_after_nul_and_long_numeral :
  count_char COMMA nul_line = 4%nat /\
  parseLine nul_line Metrics_init = (false, Metrics_init) /\
  rd receivedOnce
    (st (loop NO_BLUETOOTH (booted NO_BLUETOOTH (nul_line ++ line_end) 1000))) = false /\
  numeral_text n_above_tie = "1.0000000596046447753906251" /\
  toFloat (numeral_text n_above_tie) = S754_finite false 8388608 (-23) /\
  denotes n_above_tie (toFloat (numeral_text n_above_tie)) = false /\
  denotes n_above_tie (S754_finite false 8388609 (-23)) = true.
Proof. vm_compute. repeat split. Qed.

(* ---- the line assembler ---- *)

Lemma serial_char_payload b c d :
  payload_byte c = true ->
  serial_char b c d =
  mkRes tt (wr lineBuf (if strlen (rd lineBuf d) <? 128
                        then append_char (rd lineBuf d) c else "") d) [].
Proof.
  unfold payload_byte. intros H. apply andb_prop in H as [H1 H2].
  apply negb_true_iff in H1.
  unfold serial_char, accumulate. rewrite H1, H2. run_prims.
  destruct (strlen (rd lineBuf d) <? 128); reflexivity.
Qed.

Lemma ble_char_payload b c d :
  payload_byte c = true ->
  ble_char b c d =
  mkRes tt (wr lineBuf (if strlen (rd lineBuf d) <? 128
                        then append_char (rd lineBuf d) c else "") d) [].
Proof.
  unfold payload_byte. intros H. apply andb_prop in H as [H1 H2].
  apply negb_true_iff in H1.
  unfold ble_char, accumulate. rewrite H1, H2. run_prims.
  destruct (strlen (rd lineBuf d) <? 128); reflexivity.
Qed.

Lemma Legacy_serial_char_payload c d :
  payload_byte c = true ->
  Legacy.serial_char c d =
  mkRes tt (wr lineBuf (if strlen (rd lineBuf d) <? 128
                        then append_char (rd lineBuf d) c else "") d) [].
Proof.
  unfold payload_byte. intros H. apply andb_prop in H as [H1 H2].
  apply negb_true_iff in H1.
  unfold Legacy.serial_char, accumulate. rewrite H1, H2. run_prims.
  destruct (strlen (rd lineBuf d) <? 128); reflexivity.
Qed.

Lemma feed_payload buf c :
  payload_byte c = true ->
  feed buf c = (if strlen buf <? 128 then append_char buf c else "", None).
Proof.
  unfold payload_byte. intros H. apply andb_prop in H as [H1 H2].
  apply negb_true_iff in H1, H2.
  unfold feed. rewrite H1, H2. destruct (strlen buf <? 128); reflexivity.
Qed.

Section PayloadRun.

Variable handler : ascii -> M unit.
Hypothesis handler_payload : forall c d,
  payload_byte c = true ->
  handler c d =
  mkRes tt (wr lineBuf (if strlen (rd lineBuf d) <? 128
                        then append_char (rd lineBuf d) c else "") d) [].

Lemma payload_run input : forall d,
  all_chars payload_byte input = true ->
  for_each_char input handler d =
  mkRes tt (wr lineBuf (accumulated (rd lineBuf d) input) d) [].
Proof.
  induction input as [|c r IH]; intros d H.
  - cbn [for_each_char accumulated]. unfold skip, ret.
    now rewrite (wr_rd _ lineBuf_ok).
  - cbn [all_chars] in H. apply andb_prop in H as [Hc Hr].
    cbn [for_each_char accumulated].
    rewrite (bind_run _ _ _ _ _ _ (handler_payload c d Hc)).
    rewrite (IH _ Hr).
    rewrite (rd_wr _ lineBuf_ok), (wr_wr _ lineBuf_ok). reflexivity.
Qed.

End PayloadRun.

Lemma feed_all_payload input : forall buf,
  all_chars payload_byte input = true ->
  feed_all buf input = ([], accumulated buf input).
Proof.
  induction input as [|c r IH]; intros buf H; [reflexivity|].
  cbn [all_chars] in H. apply andb_prop in H as [Hc Hr].
  cbn [feed_all accumulated]. rewrite (feed_payload buf c Hc).
  now rewrite (IH _ Hr).
Qed.

Lemma feed_all_app a : forall b buf,
  feed_all buf (a ++ b) =
  (fst (feed_all buf a) ++ fst (feed_all (snd (feed_all buf a)) b),
   snd (feed_all (snd (feed_all buf a)) b))%list.
Proof.
  induction a as [|c a IH]; intros b buf.
  - cbn [append feed_all fst snd app]. now destruct (feed_all buf b).
  - cbn [append feed_all]. destruct (feed buf c) as [buf1 out].
    rewrite IH. destruct (feed_all buf1 a) as [l1 b1]. cbn [fst snd].
    destruct (feed_all b1 b) as [l2 b2]. cbn [fst snd].
    destruct out; reflexivity.
Qed.

Lemma for_each_char_app (h : ascii -> M unit) a : forall b d,
  for_each_char (a ++ b) h d =
  bind (for_each_char a h) (fun _ => for_each_char b h) d.
Proof.
  induction a as [|c a IH]; intros b d.
  - cbn [append for_each_char]. unfold bind, skip, ret.
    now destruct (for_each_char b h d).
  - cbn [append for_each_char]. unfold bind.
    destruct (h c d) as [[] d1 o1]. rewrite IH. unfold bind.
    destruct (for_each_char a h d1) as [[] d2 o2].
    destruct (for_each_char b h d2) as [[] d3 o3].
    now rewrite app_assoc.
Qed.

Lemma accumulated_fits input : forall buf,
  (String.length buf + String.length input <= 128)%nat ->
  accumulated buf input = buf ++ input.
Proof.
  induction input as [|c r IH]; intros buf H.
  - cbn [accumulated]. now rewrite append_nil_r.
  - cbn [accumulated]. cbn [String.length] in H.
    destruct (strlen buf <? 128) eqn:E.
    + rewrite IH.
      * unfold append_char. now rewrite append_assoc_s.
      * unfold append_char. rewrite length_append_s. simpl. lia.
    + apply Z.ltb_ge in E. unfold strlen in E. lia.
Qed.

Lemma accumulated_app a : forall b buf,
  accumulated buf (a ++ b) = accumulated (accumulated buf a) b.
Proof. induction a as [|c a IH]; intros b buf; cbn [append accumulated]; auto. Qed.

(** 129 payload bytes into an empty buffer leave it empty. *)
Lemma accumulated_overflow junk :
  String.length junk = 129%nat -> accumulated "" junk = "".
Proof.
  intros H.
  assert (E : junk = take 128 junk ++ drop 128 junk).
  { clear. generalize 128%nat. intros n. revert junk.
    induction n; intros junk; [reflexivity|].
    destruct junk; [reflexivity|]. cbn [take drop append]. now rewrite <- IHn. }
  assert (L1 : String.length (take 128 junk) = 128%nat).
  { assert (G : forall n s, (n <= String.length s)%nat -> String.length (take n s) = n).
    { induction n; intros s Hs; [reflexivity|].
      destruct s; simpl in *; [lia|]. rewrite IHn; lia. }
    apply G. lia. }
  assert (L2 : String.length (drop 128 junk) = 1%nat).
  { pose proof (f_equal String.length E) as F.
    rewrite length_append_s, L1, H in F. lia. }
  rewrite E, accumulated_app.
  rewrite (accumulated_fits (take 128 junk) "")
    by (cbn [String.length]; rewrite L1; lia).
  cbn [append].
  destruct (drop 128 junk) as [|c [|c' r]]; try discriminate.
  cbn [accumulated]. unfold strlen. rewrite L1. reflexivity.
Qed.

Lemma take_drop n : forall s, take n s ++ drop n s = s.
Proof.
  induction n; intros s; [reflexivity|].
  destruct s; [reflexivity|]. cbn [take drop append]. now rewrite IHn.
Qed.

Lemma length_take n : forall s,
  (n <= String.length s)%nat -> String.length (take n s) = n.
Proof.
  induction n; intros s H; [reflexivity|].
  destruct s; simpl in *; [lia|]. rewrite IHn; lia.
Qed.

Lemma length_drop n : forall s,
  String.length (drop n s) = (String.length s - n)%nat.
Proof.
  induction n; intros s; simpl; [lia|]. destruct s; simpl; auto.
Qed.

Lemma last_char_drop n : forall s,
  String.length s = S n -> last_char s = drop n s.
Proof.
  induction n; intros s H.
  - destruct s as [|c [|c' r]]; try discriminate. reflexivity.
  - destruct s as [|c s]; [discriminate|]. cbn [drop].
    rewrite <- IHn by (simpl in H; lia).
    destruct s; [discriminate|reflexivity].
Qed.

(** After 130 payload bytes the buffer holds the last of them; a short
    line that follows is appended to it. *)
Lemma accumulated_oversized junk L :
  String.length junk = 130%nat -> (String.length L <= 127)%nat ->
  accumulated "" (junk ++ L) = last_char junk ++ L.
Proof.
  intros H HL.
  rewrite (last_char_drop 129 junk H).
  assert (L1 : String.length (drop 129 junk) = 1%nat) by (rewrite length_drop; lia).
  rewrite <- (take_drop 129 junk) at 1.
  rewrite append_assoc_s, accumulated_app.
  rewrite accumulated_overflow by (apply length_take; lia).
  rewrite accumulated_fits; [reflexivity|].
  rewrite length_append_s. cbn [String.length]. lia.
Qed.

Lemma all_chars_take p n : forall s,
  all_chars p s = true -> all_chars p (take n s) = true.
Proof.
  induction n; intros s H; [reflexivity|].
  destruct s; [reflexivity|]. cbn [take all_chars] in *.
  apply andb_prop in H as [H1 H2]. now rewrite H1, IHn.
Qed.

(* ---- a run of any length ---- *)

Lemma accumulated_block a r :
  String.length a = 129%nat -> accumulated "" (a ++ r) = accumulated "" r.
Proof. intros H. now rewrite accumulated_app, accumulated_overflow. Qed.

Lemma kept_short input :
  (String.length input <= 128)%nat -> kept input = input.
Proof.
  intros H. unfold kept. rewrite Nat.div_small by lia. reflexivity.
Qed.

Lemma kept_block input :
  (129 <= String.length input)%nat -> kept input = kept (drop 129 input).
Proof.
  intros H. unfold kept. rewrite length_drop, drop_drop. f_equal.
  replace (String.length input) with ((String.length input - 129) + 1 * 129)%nat at 1
    by lia.
  rewrite Nat.div_add by lia. lia.
Qed.

(** The buffer after a run of payload bytes read into an empty buffer. *)
Lemma accumulated_kept n : forall input,
  (String.length input <= n)%nat -> accumulated "" input = kept input.
Proof.
  induction n as [|n IH]; intros input H.
  - destruct input; [reflexivity|cbn in H; lia].
  - destruct (Nat.le_gt_cases (String.length input) 128) as [S|S].
    + rewrite kept_short by exact S. apply (accumulated_fits input ""). cbn. lia.
    + rewrite kept_block by lia.
      rewrite <- (take_drop 129 input) at 1.
      rewrite accumulated_block by (apply length_take; lia).
      apply IH. rewrite length_drop. lia.
Qed.

Lemma length_kept input :
  String.length (kept input) = (String.length input mod 129)%nat.
Proof.
  unfold kept. rewrite length_drop.
  pose proof (Nat.div_mod_eq (String.length input) 129). lia.
Qed.

Lemma endsWith_char_payload s :
  all_chars payload_byte s = true -> endsWith_char NL s = false.
Proof.
  induction s as [|c s IH]; [reflexivity|]. intros H.
  cbn [all_chars] in H. apply andb_prop in H as [H1 H2].
  unfold payload_byte in H1. apply andb_prop in H1 as [H1 _].
  apply negb_true_iff in H1.
  destruct s as [|c' s']; [exact H1|]. now apply IH.
Qed.

Section OversizedLine.

Variable handler : ascii -> M unit.
Hypothesis handler_payload : forall c d,
  payload_byte c = true ->
  handler c d =
  mkRes tt (wr lineBuf (if strlen (rd lineBuf d) <? 128
                        then append_char (rd lineBuf d) c else "") d) [].

Lemma payload_line_run d input :
  rd lineBuf d = "" -> all_chars payload_byte input = true ->
  for_each_char (input ++ line_end) handler d =
  handler NL (wr lineBuf (kept input) d).
Proof.
  intros Hb P.
  rewrite for_each_char_app.
  rewrite (bind_run _ _ _ _ _ _ (payload_run handler handler_payload _ d P)).
  rewrite Hb, (accumulated_kept _ input (Nat.le_refl _)).
  unfold line_end. cbn [for_each_char]. unfold bind, skip, ret.
  destruct (handler NL _) as [[] d1 o1]. cbn [app]. now rewrite app_nil_r.
Qed.

End OversizedLine.

Lemma loop_ble_run b d :
  loop_ble b d =
  if rd haveBlePacket d then
    if String.eqb (rd lastBlePacket d) "" then
      mkRes tt (wr lastBlePacket "" (wr haveBlePacket false d)) []
    else
      let r := for_each_char (ble_incoming (rd lastBlePacket d)) (ble_char b) d in
      mkRes tt (wr lastBlePacket "" (wr haveBlePacket false (st r))) (ops r)
  else mkRes tt d [].
Proof.
  unfold loop_ble, ble_incoming.
  rewrite (bind_run (get haveBlePacket) _ d _ _ _ eq_refl).
  destruct (rd haveBlePacket d); cbn [when]; [|reflexivity].
  rewrite (bind_run (get lastBlePacket) _ d _ _ _ eq_refl).
  destruct (String.eqb (rd lastBlePacket d) ""); cbn [negb when]; [reflexivity|].
  cbv zeta. unfold bind, set.
  destruct (for_each_char _ _ d) as [[] d1 o1]. cbn [st ops].
  now rewrite !app_nil_r.
Qed.

Lemma onWrite_run v d :
  onWrite v d =
  if String.eqb v "" then mkRes tt d []
  else mkRes tt (wr haveBlePacket true (wr lastBlePacket v d)) [].
Proof. unfold onWrite. run_prims. now destruct (String.eqb v ""). Qed.

(** C2, as the code has it.  A buffer that holds 128 bytes is emptied by
    the next payload byte, which is itself discarded, and filling starts
    again with the byte after; this repeats every 129 bytes.  Of a run of
    payload bytes, whatever its length, read into an empty buffer, what
    follows the last full block of 129 bytes is kept, and a terminator
    then emits exactly one line, made of those bytes: it is what the
    serial loop of either firmware hands to the parser, and what the BLE
    pass hands to it for a write of those bytes.  Of 130 payload bytes
    followed by a short line the 130th byte and the short line are
    kept. *)
Theorem oversized_line_tail_is_kept
  (b : Build) (d : Device) (input junk L : string) :
  rd lineBuf d = "" ->
  all_chars payload_byte input = true ->
  String.length junk = 130%nat -> all_chars payload_byte junk = true ->
  all_chars payload_byte L = true -> (String.length L <= 127)%nat ->
  String.length (kept input) = (String.length input mod 129)%nat /\
  feed_all "" input = ([], kept input) /\
  feed_all "" (input ++ line_end) = ([trim (kept input)], "") /\
  for_each_char (input ++ line_end) (serial_char b) d =
    serial_char b NL (wr lineBuf (kept input) d) /\
  for_each_char (input ++ line_end) Legacy.serial_char d =
    Legacy.serial_char NL (wr lineBuf (kept input) d) /\
  (input <> "" -> all_chars not_nul input = true ->
   let d1 := st (onWrite input d) in
   let r := ble_char b NL (wr lineBuf (kept input) d1) in
   loop_ble b d1 =
     mkRes tt (wr lastBlePacket "" (wr haveBlePacket false (st r))) (ops r)) /\
  kept (junk ++ L) = last_char junk ++ L /\
  feed_all "" (junk ++ L ++ line_end) = ([trim (last_char junk ++ L)], "").
Proof.
  intros Hb P Hj Pj PL HL.
  assert (K : forall s, accumulated "" s = kept s)
    by (intros s; apply (accumulated_kept _ s (Nat.le_refl _))).
  split; [apply length_kept|].
  split; [now rewrite feed_all_payload, K|].
  split; [rewrite feed_all_app, feed_all_payload, K by assumption; reflexivity|].
  split; [now apply (payload_line_run _ (serial_char_payload b))|].
  split; [now apply (payload_line_run _ Legacy_serial_char_payload)|].
  split.
  { intros Hne Hn. cbv zeta. apply String.eqb_neq in Hne.
    rewrite onWrite_run, Hne. cbn [st].
    set (d1 := wr haveBlePacket true (wr lastBlePacket input d)).
    rewrite loop_ble_run.
    change (rd haveBlePacket d1) with true. change (rd lastBlePacket d1) with input.
    rewrite Hne. cbv zeta.
    unfold ble_incoming. rewrite (c_str_no_nul input Hn). cbv zeta.
    rewrite (endsWith_char_payload input P).
    change (append_char input NL) with (input ++ line_end).
    now rewrite (payload_line_run _ (ble_char_payload b) d1 input Hb P). }
  assert (E : kept (junk ++ L) = last_char junk ++ L)
    by (rewrite <- K; now apply accumulated_oversized).
  split; [exact E|].
  rewrite <- append_assoc_s, feed_all_app.
  rewrite feed_all_payload by now rewrite all_chars_append, Pj, PL.
  now rewrite K, E.
Qed.

Lemma oversized_line_tail_is_kept_witness :
  feed_all "" (nines_130 ++ "1,2,3,4,5" ++ line_end) = (["91,2,3,4,5"], "") /\
  feed_all "" ((nines_130 ++ nines_130 ++ "1,2,3,4,5") ++ line_end) =
    ([trim (kept (nines_130 ++ nines_130 ++ "1,2,3,4,5"))], "") /\
  kept (nines_130 ++ nines_130 ++ "1,2,3,4,5") = "991,2,3,4,5".
Proof.
  pose proof (oversized_line_tail_is_kept NO_BLUETOOTH (booted NO_BLUETOOTH "" 1000)
                (nines_130 ++ nines_130 ++ "1,2,3,4,5") nines_130 "1,2,3,4,5"
                eq_refl eq_refl eq_refl eq_refl eq_refl
                ltac:(vm_compute; lia)) as H.
  destruct H as (_ & _ & A & _ & _ & _ & _ & B).
  split; [exact B|]. split; [exact A|]. vm_compute. reflexivity.
Defined.

(** C2 as stated fails: after 130 bytes without a terminator, the valid
    line "1,2,3,4,5" is not emitted as it is.  The one line emitted is
    "91,2,3,4,5", and the snapshot shows a CPU load of 91, not 1. *)
Lemma oversized_line_corrupts_next_line :
  let input := nines_130 ++ "1,2,3,4,5" ++ line_end in
  let d := st (loop NO_BLUETOOTH (booted NO_BLUETOOTH input 1000)) in
  fst (feed_all "" input) <> ["1,2,3,4,5"] /\
  fst (feed_all "" input) = ["91,2,3,4,5"] /\
  rd lastLineShown d = "91,2,3,4,5" /\
  cpu (rd current d) = f32_of_Z 91 /\
  cpu (rd current d) <> toFloat "1".
Proof.
  vm_compute. repeat split; discriminate.
Qed.

(* ---- more on floats: tenths and rounded are never below -1 ---- *)

Lemma mul_nonneg_pos x m e :
  f32_nonneg x -> f32_nonneg (f32_mul x (S754_finite false m e)).
Proof.
  destruct x as [s|s| |s m' e']; try destruct s; cbn; try tauto.
  intros _. apply round_aux_nonneg.
Qed.

Lemma add_nonneg_pos x m e :
  f32_nonneg x -> f32_nonneg (f32_add x (S754_finite false m e)).
Proof.
  destruct x as [s|s| |s m' e']; try destruct s; cbn; try tauto.
  intros _. unfold binary_round.
  destruct (shl_align _ _ _) as [mz ez]. apply round_aux_nonneg.
Qed.

Lemma tenths_lower t : -1 <= tenths t.
Proof.
  unfold tenths. destruct (f32_lt t f32_zero) eqn:E; [lia|].
  pose proof (to_int_nonneg _
    (mul_nonneg_pos t 10485760 (-20) (not_lt_zero_nonneg t E))) as H.
  change (S754_finite false 10485760 (-20)) with f32_ten in H. lia.
Qed.

Lemma rounded_lower g : -1 <= rounded g.
Proof.
  unfold rounded. destruct (f32_lt g f32_zero) eqn:E; [lia|].
  pose proof (to_int_nonneg _
    (add_nonneg_pos g 8388608 (-24) (not_lt_zero_nonneg g E))) as H.
  change (S754_finite false 8388608 (-24)) with f32_half in H. lia.
Qed.

(* ---- panel power ---- *)

Lemma drawStaticLayoutOnce_run d :
  drawStaticLayoutOnce d = mkRes tt (layout_state d) layout_ops.
Proof.
  unfold drawStaticLayoutOnce, drawHeader, drawStaticLabelsAndSlots, layout_state.
  run_prims. open_device d. reflexivity.
Qed.

Lemma resetDrawCaches_run d : resetDrawCaches d = mkRes tt (reset_state d) [].
Proof. reflexivity. Qed.

Lemma lcdWake_run b d :
  lcdWake b d =
  if rd isLcdOn d then mkRes tt d [] else mkRes tt (wake_state d) (wake_ops b d).
Proof.
  unfold lcdWake. unfold bind at 1. unfold get at 1.
  destruct (rd isLcdOn d); [reflexivity|].
  unfold bind at 1. unfold call at 1.
  unfold bind at 1. unfold call at 1.
  rewrite (bind_run _ _ _ _ _ _ (drawStaticLayoutOnce_run _)).
  rewrite (bind_run _ _ _ _ _ _ (resetDrawCaches_run _)).
  unfold bind at 1. unfold get at 1.
  rewrite (bind_run _ _ _ _ _ _ (updateBarsAndTemps_run _ _)).
  rewrite (bind_run _ _ _ _ _ _ (drawStatus_run _ _)).
  unfold set, wake_state, wake_ops.
  cbn [app]. rewrite app_nil_r, <- ?app_assoc. reflexivity.
Qed.

Lemma lcdWake_on b d : rd isLcdOn (st (lcdWake b d)) = true.
Proof.
  rewrite lcdWake_run. destruct (rd isLcdOn d) eqn:E; [exact E|reflexivity].
Qed.

Lemma lcdSleep_run d :
  lcdSleep d =
  if rd isLcdOn d
  then mkRes tt (wr isLcdOn false d)
         [fillScreen TFT_BLACK; digitalWrite_LCD_BACKLIGHT false]
  else mkRes tt d [].
Proof. unfold lcdSleep. run_prims. destruct (rd isLcdOn d); reflexivity. Qed.

Lemma st_bind {A B : Type} (c : M A) (k : A -> M B) d :
  st (bind c k d) = st (k (val (c d)) (st (c d))).
Proof.
  unfold bind. destruct (c d) as [a d1 o1]. cbn [val st].
  now destruct (k a d1).
Qed.

Lemma st_prepend {A : Type} o (r : Res A) : st (prepend o r) = st r.
Proof. now destruct r. Qed.

Lemma ops_prepend {A : Type} o (r : Res A) : ops (prepend o r) = (o ++ ops r)%list.
Proof. now destruct r. Qed.

Lemma acceptSnapshot_run b trimmed m d :
  acceptSnapshot b trimmed m d =
  prepend (accepted_ops b trimmed m d) (lcdWake b (accepted_state trimmed m d)).
Proof.
  unfold acceptSnapshot, accepted_state, accepted_ops, received_state. run_prims.
  change (rd current (wr lastLineShown trimmed ?x)) with (rd current x).
  change (rd current (wr lastRxMillis ?a ?x)) with (rd current x).
  change (rd current (tick ?x)) with (rd current x).
  change (rd current (wr receivedOnce true ?x)) with (rd current x).
  change (rd current (wr current m d)) with m.
  rewrite updateBarsAndTemps_run. cbv beta iota.
  rewrite drawStatus_run. cbv beta iota zeta.
  change (time_now (wr receivedOnce true (wr current m d))) with (time_now d).
  unfold prepend.
  destruct (lcdWake b _) as [[] d2 o2]. cbn [st ops app].
  f_equal. rewrite <- app_assoc. reflexivity.
Qed.

Lemma acceptSnapshot_st b trimmed m d :
  st (acceptSnapshot b trimmed m d) = st (lcdWake b (accepted_state trimmed m d)).
Proof. rewrite acceptSnapshot_run. apply st_prepend. Qed.

Lemma sendBluetoothData_st b d : st (sendBluetoothData b d) = d.
Proof.
  unfold sendBluetoothData. run_prims.
  destruct b; [destruct (rd metricsCharacteristic d)| |]; reflexivity.
Qed.

Lemma isLcdOn_wr_lineBuf v x : rd isLcdOn (wr lineBuf v x) = rd isLcdOn x.
Proof. reflexivity. Qed.

Lemma accepted_line_serial_on b d :
  fst (parseLine (trim (rd lineBuf d)) Metrics_init) = true ->
  rd isLcdOn (st (serial_char b NL d)) = true.
Proof.
  intros H. unfold serial_char. cbn [Ascii.eqb NL Bool.eqb].
  rewrite !st_bind. cbn [get val st]. rewrite H. cbn [when].
  rewrite !st_bind. cbn [set st].
  rewrite sendBluetoothData_st, acceptSnapshot_st.
  rewrite isLcdOn_wr_lineBuf.
  apply lcdWake_on.
Qed.

Lemma accepted_line_ble_on b d :
  fst (parseLine (trim (rd lineBuf d)) Metrics_init) = true ->
  rd isLcdOn (st (ble_char b NL d)) = true.
Proof.
  intros H. unfold ble_char. cbn [Ascii.eqb NL Bool.eqb].
  rewrite !st_bind. cbn [get val st]. rewrite H. cbn [when].
  cbn [set st]. rewrite acceptSnapshot_st.
  rewrite isLcdOn_wr_lineBuf.
  apply lcdWake_on.
Qed.

Lemma accumulate_run c d :
  accumulate c d =
  mkRes tt (if Ascii.eqb c CR then d
            else wr lineBuf (if strlen (rd lineBuf d) <? 128
                             then append_char (rd lineBuf d) c else "") d) [].
Proof.
  unfold accumulate. run_prims.
  destruct (Ascii.eqb c CR); cbn [negb]; [reflexivity|].
  destruct (strlen (rd lineBuf d) <? 128); reflexivity.
Qed.

Lemma isLcdOn_after_accumulate c d : rd isLcdOn (st (accumulate c d)) = rd isLcdOn d.
Proof. rewrite accumulate_run. cbn [st]. now destruct (Ascii.eqb c CR). Qed.

Lemma isLcdOn_after_serial_char b c d :
  rd isLcdOn (st (serial_char b c d)) =
  rd isLcdOn d ||
  (Ascii.eqb c NL && fst (parseLine (trim (rd lineBuf d)) Metrics_init)).
Proof.
  destruct (Ascii.eqb c NL) eqn:E.
  - apply Ascii.eqb_eq in E. subst c. cbn [andb].
    destruct (fst (parseLine (trim (rd lineBuf d)) Metrics_init)) eqn:P.
    + rewrite (accepted_line_serial_on b d P). now rewrite orb_true_r.
    + rewrite (rejected_line_serial b d P). now rewrite orb_false_r.
  - unfold serial_char. rewrite E. rewrite isLcdOn_after_accumulate.
    now rewrite orb_false_r.
Qed.

Lemma isLcdOn_after_ble_char b c d :
  rd isLcdOn (st (ble_char b c d)) =
  rd isLcdOn d ||
  (Ascii.eqb c NL && fst (parseLine (trim (rd lineBuf d)) Metrics_init)).
Proof.
  destruct (Ascii.eqb c NL) eqn:E.
  - apply Ascii.eqb_eq in E. subst c. cbn [andb].
    destruct (fst (parseLine (trim (rd lineBuf d)) Metrics_init)) eqn:P.
    + rewrite (accepted_line_ble_on b d P). now rewrite orb_true_r.
    + rewrite (rejected_line_ble b d P). now rewrite orb_false_r.
  - unfold ble_char. rewrite E. rewrite isLcdOn_after_accumulate.
    now rewrite orb_false_r.
Qed.

Lemma loop_sleep_check_run d :
  loop_sleep_check d =
  if rd isLcdOn d && sleep_due d
  then mkRes tt (wr isLcdOn false (tick d))
         [fillScreen TFT_BLACK; digitalWrite_LCD_BACKLIGHT false]
  else mkRes tt (tick d) [].
Proof.
  unfold loop_sleep_check, sleep_due. run_prims.
  change (rd isLcdOn (tick d)) with (rd isLcdOn d).
  change (rd lastRxMillis (tick d)) with (rd lastRxMillis d).
  destruct (rd isLcdOn d) eqn:E; cbn [andb]; [|reflexivity].
  destruct (_ >? _); [|reflexivity].
  rewrite lcdSleep_run.
  change (rd isLcdOn (tick d)) with (rd isLcdOn d). rewrite E. reflexivity.
Qed.

Lemma isLcdOn_after_sleep_check d :
  rd isLcdOn (st (loop_sleep_check d)) = rd isLcdOn d && negb (sleep_due d).
Proof.
  rewrite loop_sleep_check_run.
  destruct (rd isLcdOn d) eqn:E, (sleep_due d); cbn [andb negb st]; auto.
Qed.

Lemma isLcdOn_after_status b d :
  rd isLcdOn (st (loop_status b d)) = rd isLcdOn d.
Proof.
  unfold loop_status. rewrite !st_bind. cbn [millis get val st].
  destruct (_ >? _); cbn [when]; [|reflexivity].
  rewrite st_bind, drawStatus_run. reflexivity.
Qed.

(* ---- a wake-up repaints everything ---- *)

Lemma painted_app a b : painted (a ++ b) = painted a + painted b.
Proof.
  induction a as [|o a IH]; [reflexivity|].
  destruct o; cbn [app painted]; rewrite IH; lia.
Qed.

Lemma painted_bar_from_unset y v c :
  painted (bar_ops y v c (-1)) = bar_width (snd (barGeom y)) v * BAR_H.
Proof.
  unfold bar_ops. pose proof (bar_width_nonneg y v) as H.
  cbn [Z.ltb Z.compare].
  destruct (bar_width (snd (barGeom y)) v =? 0) eqn:E.
  - apply Z.eqb_eq in E. rewrite E. reflexivity.
  - apply Z.eqb_neq in E.
    destruct (bar_width (snd (barGeom y)) v >? 0) eqn:G.
    + cbn [painted]. lia.
    + rewrite Z.gtb_ltb in G. apply Z.ltb_ge in G. lia.
Qed.

Lemma painted_temp y t cached : painted (temp_ops y t cached) = 0.
Proof. unfold temp_ops. destruct (_ =? _); reflexivity. Qed.

Lemma temp_from_unset y t :
  drawn_strings (temp_ops y t (-1000)) = [temp_text t].
Proof.
  unfold temp_ops. pose proof (tenths_lower t) as H.
  destruct (tenths t =? -1000) eqn:E; [apply Z.eqb_eq in E; lia|reflexivity].
Qed.

Lemma drawn_strings_app a b :
  drawn_strings (a ++ b) = (drawn_strings a ++ drawn_strings b)%list.
Proof.
  induction a as [|o a IH]; [reflexivity|].
  destruct o; cbn [app drawn_strings]; now rewrite IH.
Qed.

(** The render that follows a reset of the cache: every bar is painted
    over its whole width, and both temperatures are drawn. *)
Lemma render_from_unset m d :
  let d0 := reset_state (layout_state d) in
  render_ops m d0 =
    ((setTextSize 2 :: bar_ops 36 (cpu m) TFT_GREEN (-1))
     ++ temp_ops 164 (tempC m) (-1000)
     ++ bar_ops 68 (ram m) TFT_CYAN (-1)
     ++ bar_ops 100 (gpu_bar_value m) TFT_ORANGE (-1)
     ++ temp_ops 132 (gpuTempC m) (-1000))%list /\
  painted (render_ops m d0) =
    (bar_width 228 (cpu m) + bar_width 228 (ram m)
     + bar_width 228 (gpu_bar_value m)) * BAR_H.
Proof.
  cbv zeta.
  assert (E : render_ops m (reset_state (layout_state d)) =
    ((setTextSize 2 :: bar_ops 36 (cpu m) TFT_GREEN (-1))
     ++ temp_ops 164 (tempC m) (-1000)
     ++ bar_ops 68 (ram m) TFT_CYAN (-1)
     ++ bar_ops 100 (gpu_bar_value m) TFT_ORANGE (-1)
     ++ temp_ops 132 (gpuTempC m) (-1000))%list).
  { unfold render_ops, gpu_ops, reset_state, layout_state. open_device d.
    cache_simpl.
    pose proof (rounded_lower (gpu m)) as H.
    destruct (rounded (gpu m) =? -1000) eqn:G; [apply Z.eqb_eq in G; lia|].
    reflexivity. }
  split; [exact E|].
  rewrite E. cbn [app painted].
  rewrite !painted_app, !painted_bar_from_unset, !painted_temp.
  change (snd (barGeom 36)) with 228. change (snd (barGeom 68)) with 228.
  change (snd (barGeom 100)) with 228. lia.
Qed.

Lemma isLcdOn_accepted_state trimmed m d :
  rd isLcdOn (accepted_state trimmed m d) = rd isLcdOn d.
Proof. reflexivity. Qed.

(** A line that is accepted while the panel is off: the snapshot is
    rendered and the status drawn on the dark panel, then the panel wakes
    up. *)
Lemma acceptSnapshot_wakes b trimmed m d :
  rd isLcdOn d = false ->
  acceptSnapshot b trimmed m d =
  mkRes tt (wake_state (accepted_state trimmed m d))
    (accepted_ops b trimmed m d ++ wake_ops b (accepted_state trimmed m d)).
Proof.
  intros H. rewrite acceptSnapshot_run, lcdWake_run, isLcdOn_accepted_state, H.
  reflexivity.
Qed.

(* ---- input that does not parse ---- *)

Section UnparsedInput.

Variable handler : ascii -> M unit.
Hypothesis handler_rejects : forall d,
  rejected (trim (rd lineBuf d)) -> handler NL d = mkRes tt (wr lineBuf "" d) [].
Hypothesis handler_accumulates : forall c d,
  Ascii.eqb c NL = false -> handler c d = accumulate c d.

(** Bytes whose lines all fail to parse change the line buffer and
    nothing else, and cause no call at all. *)
Lemma unparsed_run input : forall d,
  Forall rejected (fst (feed_all (rd lineBuf d) input)) ->
  for_each_char input handler d =
  mkRes tt (wr lineBuf (snd (feed_all (rd lineBuf d) input)) d) [].
Proof.
  induction input as [|c r IH]; intros d H.
  - cbn [for_each_char feed_all snd]. unfold skip, ret.
    now rewrite (wr_rd _ lineBuf_ok).
  - cbn [for_each_char feed_all] in *. unfold feed in *.
    destruct (Ascii.eqb c NL) eqn:E.
    + apply Ascii.eqb_eq in E. subst c.
      destruct (feed_all "" r) as [lines buf2] eqn:F. cbn [fst snd] in *.
      inversion H as [|? ? H1 H2]; subst.
      rewrite (bind_run _ _ _ _ _ _ (handler_rejects d H1)).
      specialize (IH (wr lineBuf "" d)).
      rewrite (rd_wr _ lineBuf_ok), F in IH. cbn [fst snd] in IH.
      rewrite (IH H2), (wr_wr _ lineBuf_ok). reflexivity.
    + rewrite (bind_run _ _ _ _ _ _
                 (eq_trans (handler_accumulates c d E) (accumulate_run c d))).
      destruct (Ascii.eqb c CR).
      * destruct (feed_all (rd lineBuf d) r) as [lines buf2] eqn:F.
        cbn [fst snd] in *. specialize (IH d). rewrite F in IH.
        now rewrite (IH H).
      * set (buf1 := if strlen (rd lineBuf d) <? 128
                     then append_char (rd lineBuf d) c else "") in *.
        assert (F0 : (if strlen (rd lineBuf d) <? 128
                      then (append_char (rd lineBuf d) c, @None string)
                      else ("", None)) = (buf1, None))
          by (unfold buf1; now destruct (strlen (rd lineBuf d) <? 128)).
        rewrite F0 in *.
        destruct (feed_all buf1 r) as [lines buf2] eqn:F.
        cbn [fst snd] in *. specialize (IH (wr lineBuf buf1 d)).
        rewrite (rd_wr _ lineBuf_ok), F in IH. cbn [fst snd] in IH.
        rewrite (IH H), (wr_wr _ lineBuf_ok). reflexivity.
Qed.

End UnparsedInput.

Lemma serial_char_other b c d :
  Ascii.eqb c NL = false -> serial_char b c d = accumulate c d.
Proof. intros E. unfold serial_char. now rewrite E. Qed.

Lemma ble_char_other b c d :
  Ascii.eqb c NL = false -> ble_char b c d = accumulate c d.
Proof. intros E. unfold ble_char. now rewrite E. Qed.

(** X14. Panel power.  The panel goes off in the sleep check only, and
    exactly when it is on and more than 60 s have passed since the last
    snapshot; a byte from either transport turns it on exactly when it
    ends a line that parses; the status redraw never changes it; bytes
    whose lines all fail to parse leave the whole state but the line
    buffer untouched.  A wake-up switches the backlight on, draws the
    static layout again, renders the current snapshot from a cache in which
    every entry is unset, so that the rectangle of every bar is painted to
    its full width and both temperatures are drawn, and then draws the
    status line. *)
Theorem display_power_transitions (b : Build) (d : Device) (input : string) :
  rd isLcdOn d = false ->
  Forall rejected (fst (feed_all (rd lineBuf d) input)) ->
  let d0 := reset_state (layout_state d) in
  (forall d', rd isLcdOn (st (loop_sleep_check d')) =
              rd isLcdOn d' && negb (sleep_due d')) /\
  (forall d', rd isLcdOn (st (loop_status b d')) = rd isLcdOn d') /\
  (forall c' d', rd isLcdOn (st (serial_char b c' d')) =
     rd isLcdOn d' ||
     (Ascii.eqb c' NL && fst (parseLine (trim (rd lineBuf d')) Metrics_init))) /\
  (forall c' d', rd isLcdOn (st (ble_char b c' d')) =
     rd isLcdOn d' ||
     (Ascii.eqb c' NL && fst (parseLine (trim (rd lineBuf d')) Metrics_init))) /\
  for_each_char input (serial_char b) d =
    mkRes tt (wr lineBuf (snd (feed_all (rd lineBuf d) input)) d) [] /\
  for_each_char input (ble_char b) d =
    mkRes tt (wr lineBuf (snd (feed_all (rd lineBuf d) input)) d) [] /\
  rd lastCpuW d0 = -1 /\ rd lastRamW d0 = -1 /\ rd lastGpuW d0 = -1 /\
  rd lastDrawn d0 = LastDrawn_init /\
  lcdWake b d =
    mkRes tt (wr isLcdOn true (tick (render_state (rd current d) d0)))
      ([digitalWrite_LCD_BACKLIGHT true; delay 5] ++ layout_ops
       ++ render_ops (rd current d) d0
       ++ status_ops b (millis_at (time_now d)) (rd lastRxMillis d)
            (rd receivedOnce d))%list /\
  (forall trimmed m,
     acceptSnapshot b trimmed m d =
     mkRes tt (wake_state (accepted_state trimmed m d))
       (accepted_ops b trimmed m d ++ wake_ops b (accepted_state trimmed m d))) /\
  painted (render_ops (rd current d) d0) =
    (bar_width 228 (cpu (rd current d)) + bar_width 228 (ram (rd current d))
     + bar_width 228 (gpu_bar_value (rd current d))) * BAR_H /\
  drawn_strings (temp_ops 164 (tempC (rd current d)) (rd lastDrawn_tempC d0)) =
    [temp_text (tempC (rd current d))] /\
  drawn_strings (temp_ops 132 (gpuTempC (rd current d)) (rd lastDrawn_gpuTempC d0)) =
    [temp_text (gpuTempC (rd current d))].
Proof.
  intros Hoff Hrej. cbv zeta.
  split; [exact isLcdOn_after_sleep_check|].
  split; [exact (isLcdOn_after_status b)|].
  split; [exact (isLcdOn_after_serial_char b)|].
  split; [exact (isLcdOn_after_ble_char b)|].
  split; [exact (unparsed_run _ (rejected_line_serial b) (serial_char_other b) input d Hrej)|].
  split; [exact (unparsed_run _ (rejected_line_ble b) (ble_char_other b) input d Hrej)|].
  split; [reflexivity|]. split; [reflexivity|]. split; [reflexivity|].
  split; [reflexivity|].
  split; [rewrite lcdWake_run, Hoff; reflexivity|].
  split; [intros trimmed m; now apply acceptSnapshot_wakes|].
  split; [exact (proj2 (render_from_unset (rd current d) d))|].
  split; apply temp_from_unset.
Qed.

(* ---- bar widths ---- *)

Lemma tenth_percent_checked :
  forallb (fun k => widths_agree (tenth_percent (Z.of_nat k))) (seq 0 1001) = true.
Proof. vm_compute. reflexivity. Qed.

Lemma whole_percent_checked :
  forallb (fun n => (bar_width 228 (f32_of_Z (Z.of_nat n)) =? 228 * Z.of_nat n / 100)
                    && widths_agree (f32_of_Z (Z.of_nat n))) (seq 0 101) = true.
Proof. vm_compute. reflexivity. Qed.

Lemma gt_hundred_not_negative v :
  f32_gt v f32_hundred = true -> f32_lt v f32_zero = false.
Proof.
  destruct v as [s|s| |s m e]; try destruct s; try reflexivity; discriminate.
Qed.

Lemma bar_width_clamped v :
  (f32_lt v f32_zero = true -> bar_width 228 v = 0) /\
  (f32_gt v f32_hundred = true -> bar_width 228 v = 228).
Proof.
  unfold bar_width, clamp_percent. split; intros H.
  - rewrite H. reflexivity.
  - rewrite (gt_hundred_not_negative v H), H. reflexivity.
Qed.

(** What a delta repaint paints is the difference of the two widths. *)
Lemma painted_bar_delta y v c cached :
  painted (bar_ops y v c cached) =
  Z.abs (bar_width (snd (barGeom y)) v - Z.max 0 cached) * BAR_H.
Proof.
  unfold bar_ops.
  set (newW := bar_width (snd (barGeom y)) v).
  destruct (cached <? 0) eqn:E.
  - apply Z.ltb_lt in E. rewrite Z.max_l by lia.
    destruct (newW =? 0) eqn:E0.
    + apply Z.eqb_eq in E0. rewrite E0. reflexivity.
    + destruct (newW >? 0) eqn:G; cbn [painted].
      * rewrite Z.gtb_ltb in G. apply Z.ltb_lt in G. lia.
      * rewrite Z.gtb_ltb in G. apply Z.ltb_ge in G. lia.
  - apply Z.ltb_ge in E. rewrite Z.max_r by lia.
    destruct (newW =? cached) eqn:E0.
    + apply Z.eqb_eq in E0. rewrite E0, Z.sub_diag. reflexivity.
    + destruct (newW >? cached) eqn:G; cbn [painted].
      * rewrite Z.gtb_ltb in G. apply Z.ltb_lt in G. lia.
      * rewrite Z.gtb_ltb in G. apply Z.ltb_ge in G. lia.
Qed.

Lemma show_values_ops y c (ref : Var Z) (Hok : VarOk ref) vs : forall d,
  ops (show_values y c ref vs d) = show_ops y c (rd ref d) vs.
Proof.
  induction vs as [|v r IH]; intros d; [reflexivity|].
  cbn [show_values show_ops].
  rewrite (bind_run _ _ _ _ _ _ (updateBarFill_run y v c ref d Hok)).
  specialize (IH (wr ref (bar_width (snd (barGeom y)) v) d)).
  rewrite (rd_wr _ Hok) in IH.
  destruct (show_values y c ref r _) as [[] d2 o2]. cbn [ops] in *.
  now rewrite IH.
Qed.

Lemma filled_bar_ops y v c cached :
  filter is_fillRect (bar_ops y v c cached) =
  filled_difference y c (Z.max 0 cached) (bar_width (snd (barGeom y)) v).
Proof.
  unfold bar_ops, filled_difference.
  set (newW := bar_width (snd (barGeom y)) v).
  change (fst (barGeom y)) with 84.
  assert (M : (if cached <? 0 then 0 else cached) = Z.max 0 cached).
  { destruct (cached <? 0) eqn:E;
      [apply Z.ltb_lt in E|apply Z.ltb_ge in E]; lia. }
  rewrite M.
  destruct (newW =? Z.max 0 cached); [reflexivity|].
  rewrite Z.gtb_ltb. destruct (Z.max 0 cached <? newW); reflexivity.
Qed.

(** C9, as the code has it.  After [updateBarFill] the cached width of the
    bar is the single-precision product [228 * (v / 100)] cut to an
    integer, with [v] the value clamped to 0..100: 0 for a value below
    zero, 228 for one above 100, and [floor(228 * v / 100)] for every whole
    percentage and every tenth of a percent.  The one rectangle that
    [updateBarFill] fills is the difference between the width on screen
    and the new width, in the bar's colour when the bar grows and in the
    colour of the slot when it shrinks, and none when the width stays; so
    it paints [|new - old| * 22] pixels.  For the values 0, 50, 100, 50, 0
    shown in turn from an unset cache 456 * 22 pixels are painted, as many
    as by full redraws of the widths of 50, 100, 50 and 0, which paint
    114 * 22, 228 * 22, 114 * 22 and 0 pixels. *)
Theorem bar_width_and_delta_accounting
  (n k y : Z) (v : f32) (c : color) (ref : Var Z) (d : Device) :
  VarOk ref -> 0 <= n <= 100 -> 0 <= k <= 1000 ->
  let old := Z.max 0 (rd ref d) in
  let new := rd ref (st (updateBarFill y v c ref d)) in
  let unset := wr ref (-1) d in
  new = bar_width 228 v /\
  rd ref (st (updateBarFill y (percent n) c ref d)) = 228 * n / 100 /\
  rd ref (st (updateBarFill y (tenth_percent k) c ref d)) =
    spec_bar_width 228 (tenth_percent k) /\
  (f32_lt v f32_zero = true -> new = 0) /\
  (f32_gt v f32_hundred = true -> new = 228) /\
  filter is_fillRect (ops (updateBarFill y v c ref d)) =
    filled_difference y c old new /\
  painted (ops (updateBarFill y v c ref d)) = Z.abs (new - old) * BAR_H /\
  painted (ops (show_values y c ref
                  [percent 0; percent 50; percent 100; percent 50; percent 0]
                  unset)) = 456 * BAR_H /\
  painted (ops (updateBarFill y (percent 50) c ref unset)) = 114 * BAR_H /\
  painted (ops (updateBarFill y (percent 100) c ref unset)) = 228 * BAR_H /\
  painted (ops (updateBarFill y (percent 0) c ref unset)) = 0.
Proof.
  intros Hok Hn Hk. cbv zeta.
  assert (In1 : In (Z.to_nat n) (seq 0 101)) by (apply in_seq; lia).
  assert (In2 : In (Z.to_nat k) (seq 0 1001)) by (apply in_seq; lia).
  pose proof (proj1 (forallb_forall _ _) whole_percent_checked _ In1) as W.
  pose proof (proj1 (forallb_forall _ _) tenth_percent_checked _ In2) as T.
  cbv beta in W, T. rewrite Z2Nat.id in W, T by lia.
  apply andb_prop in W as [W1 _].
  apply Z.eqb_eq in W1. unfold widths_agree in T. apply Z.eqb_eq in T.
  rewrite (show_values_ops y c ref Hok).
  rewrite !(updateBarFill_run _ _ _ _ _ Hok).
  cbn [st ops show_ops]. rewrite !(rd_wr _ Hok).
  change (snd (barGeom y)) with 228.
  split; [reflexivity|]. split; [exact W1|]. split; [exact T|].
  split; [exact (proj1 (bar_width_clamped v))|].
  split; [exact (proj2 (bar_width_clamped v))|].
  split; [exact (filled_bar_ops y v c (rd ref d))|].
  split; [exact (painted_bar_delta y v c (rd ref d))|].
  rewrite !painted_app, !painted_bar_delta.
  change (bar_width (snd (barGeom y)) (percent 0)) with 0.
  change (bar_width (snd (barGeom y)) (percent 50)) with 114.
  change (bar_width (snd (barGeom y)) (percent 100)) with 228.
  repeat split.
Qed.

Lemma bar_width_and_delta_accounting_witness :
  let d := wr lastCpuW 114 (power_on (mkWorld "" (fun _ => 0) 0)) in
  rd lastCpuW (st (updateBarFill 36 (percent 50) TFT_GREEN lastCpuW d)) = 114 /\
  filter is_fillRect (ops (updateBarFill 36 (percent 100) TFT_GREEN lastCpuW d)) =
    [fillRect 198 36 114 22 TFT_GREEN] /\
  filter is_fillRect (ops (updateBarFill 36 (percent 0) TFT_GREEN lastCpuW d)) =
    [fillRect 84 36 114 22 TFT_DARKGREY].
Proof.
  cbv zeta.
  pose (d := wr lastCpuW 114 (power_on (mkWorld "" (fun _ => 0) 0))).
  split; [|split].
  - exact (proj1 (proj2 (bar_width_and_delta_accounting 50 421 36 (percent 50)
                    TFT_GREEN lastCpuW d lastCpuW_ok ltac:(lia) ltac:(lia)))).
  - exact (proj1 (proj2 (proj2 (proj2 (proj2 (proj2
             (bar_width_and_delta_accounting 50 421 36 (percent 100)
                TFT_GREEN lastCpuW d lastCpuW_ok ltac:(lia) ltac:(lia)))))))).
  - exact (proj1 (proj2 (proj2 (proj2 (proj2 (proj2
             (bar_width_and_delta_accounting 50 421 36 (percent 0)
                TFT_GREEN lastCpuW d lastCpuW_ok ltac:(lia) ltac:(lia)))))))).
Defined.

(** C9 as stated fails: for the value 0.43859649, a valid float within
    0..100, [floor(228 * v / 100)] is 0 and the width computed is 1. *)
Lemma bar_width_is_not_exact_floor :
  f32_valid v_0_43859649 = true /\
  clamp_percent v_0_43859649 = v_0_43859649 /\
  spec_bar_width 228 v_0_43859649 = 0 /\
  bar_width 228 v_0_43859649 = 1 /\
  bar_width 228 v_0_43859649 <> spec_bar_width 228 v_0_43859649 /\
  cpu (snd (parseLine "0.43859649,55.4,63.2,38.0,67.0" Metrics_init)) = v_0_43859649.
Proof. vm_compute. repeat split. discriminate. Qed.

Lemma display_power_transitions_witness :
  for_each_char ("hello" ++ line_end) (serial_char RPC_BLE_SUPPORTED) asleep =
  mkRes tt (wr lineBuf (snd (feed_all (rd lineBuf asleep) ("hello" ++ line_end)))
              asleep) [].
Proof.
  assert (R : Forall rejected (fst (feed_all (rd lineBuf asleep) ("hello" ++ line_end)))).
  { change (Forall rejected ["hello"]). repeat constructor. }
  exact (proj1 (proj2 (proj2 (proj2 (proj2
    (display_power_transitions RPC_BLE_SUPPORTED asleep ("hello" ++ line_end)
       eq_refl R)))))).
Defined.

(* ---- the assembler of the specification is the one of the code ---- *)

Lemma serial_char_feed b c d :
  serial_char b c d =
  bind (match snd (feed (rd lineBuf d) c) with
        | Some l => serial_line b l
        | None => skip
        end)
       (fun _ => lineBuf ::= fst (feed (rd lineBuf d) c)) d.
Proof.
  unfold feed. destruct (Ascii.eqb c NL) eqn:E.
  - apply Ascii.eqb_eq in E. subst c. cbn [fst snd].
    unfold serial_char, serial_line. change (Ascii.eqb NL NL) with true. cbv iota.
    rewrite (bind_run (get lineBuf) _ d (rd lineBuf d) d [] eq_refl).
    now destruct (bind _ _ d).
  - rewrite (serial_char_other b c d E), accumulate_run.
    destruct (Ascii.eqb c CR); cbn [fst snd].
    + unfold bind, skip, ret, set. now rewrite (wr_rd _ lineBuf_ok).
    + destruct (strlen (rd lineBuf d) <? 128); reflexivity.
Qed.

Lemma ble_char_feed b c d :
  ble_char b c d =
  bind (match snd (feed (rd lineBuf d) c) with
        | Some l => ble_line b l
        | None => skip
        end)
       (fun _ => lineBuf ::= fst (feed (rd lineBuf d) c)) d.
Proof.
  unfold feed. destruct (Ascii.eqb c NL) eqn:E.
  - apply Ascii.eqb_eq in E. subst c. cbn [fst snd].
    unfold ble_char, ble_line. change (Ascii.eqb NL NL) with true. cbv iota.
    rewrite (bind_run (get lineBuf) _ d (rd lineBuf d) d [] eq_refl).
    now destruct (bind _ _ d).
  - rewrite (ble_char_other b c d E), accumulate_run.
    destruct (Ascii.eqb c CR); cbn [fst snd].
    + unfold bind, skip, ret, set. now rewrite (wr_rd _ lineBuf_ok).
    + destruct (strlen (rd lineBuf d) <? 128); reflexivity.
Qed.

(* ===================================================================== *)
(** * Further properties of the reader, the loop and the renderer *)
(* ===================================================================== *)

(* ---- the line buffer under any input ---- *)

Lemma lineBuf_after_serial_char b c d :
  rd lineBuf (st (serial_char b c d)) = fst (feed (rd lineBuf d) c).
Proof.
  rewrite serial_char_feed, st_bind. cbn [set st]. apply (rd_wr _ lineBuf_ok).
Qed.

Lemma lineBuf_after_ble_char b c d :
  rd lineBuf (st (ble_char b c d)) = fst (feed (rd lineBuf d) c).
Proof.
  rewrite ble_char_feed, st_bind. cbn [set st]. apply (rd_wr _ lineBuf_ok).
Qed.

Lemma lineBuf_after_Legacy_serial_char c d :
  rd lineBuf (st (Legacy.serial_char c d)) = fst (feed (rd lineBuf d) c).
Proof.
  unfold feed, Legacy.serial_char. destruct (Ascii.eqb c NL) eqn:E.
  - rewrite !st_bind. cbn [set st fst]. apply (rd_wr _ lineBuf_ok).
  - rewrite accumulate_run. cbn [st].
    destruct (Ascii.eqb c CR); cbn [fst]; [reflexivity|].
    rewrite (rd_wr _ lineBuf_ok).
    now destruct (strlen (rd lineBuf d) <? 128).
Qed.

Section BufferTracking.

Variable handler : ascii -> M unit.
Hypothesis handler_buffer : forall c d,
  rd lineBuf (st (handler c d)) = fst (feed (rd lineBuf d) c).

Lemma lineBuf_after_run input : forall d,
  rd lineBuf (st (for_each_char input handler d)) =
  snd (feed_all (rd lineBuf d) input).
Proof.
  induction input as [|c r IH]; intros d; [reflexivity|].
  cbn [for_each_char feed_all]. rewrite st_bind, IH, handler_buffer.
  destruct (feed (rd lineBuf d) c) as [buf1 out]. cbn [fst].
  now destruct (feed_all buf1 r).
Qed.

End BufferTracking.

Lemma feed_bounded buf c :
  strlen buf <= 128 -> strlen (fst (feed buf c)) <= 128.
Proof.
  intros H. unfold feed.
  destruct (Ascii.eqb c NL); [cbn; lia|].
  destruct (Ascii.eqb c CR); [exact H|].
  destruct (strlen buf <? 128) eqn:E; cbn [fst]; [|cbn; lia].
  apply Z.ltb_lt in E. unfold append_char. rewrite strlen_append.
  change (strlen (String c "")) with 1. lia.
Qed.

Lemma feed_all_bounded input : forall buf,
  strlen buf <= 128 -> strlen (snd (feed_all buf input)) <= 128.
Proof.
  induction input as [|c r IH]; intros buf H; [exact H|].
  cbn [feed_all]. pose proof (feed_bounded buf c H) as B.
  destruct (feed buf c) as [buf1 out]. cbn [fst] in B.
  specialize (IH buf1 B). now destruct (feed_all buf1 r).
Qed.

(* ---- the state after a line and after a byte ---- *)

Lemma lcdWake_st b d :
  st (lcdWake b d) = if rd isLcdOn d then d else wake_state d.
Proof. rewrite lcdWake_run. now destruct (rd isLcdOn d). Qed.

Lemma serial_line_st b l d : st (serial_line b l d) = line_state l d.
Proof.
  unfold serial_line, line_state. cbv zeta.
  destruct (fst (parseLine l Metrics_init)); cbn [when]; [|reflexivity].
  rewrite st_bind, sendBluetoothData_st, acceptSnapshot_st, lcdWake_st.
  now rewrite isLcdOn_accepted_state.
Qed.

Lemma ble_line_st b l d : st (ble_line b l d) = line_state l d.
Proof.
  unfold ble_line, line_state. cbv zeta.
  destruct (fst (parseLine l Metrics_init)); cbn [when]; [|reflexivity].
  rewrite acceptSnapshot_st, lcdWake_st.
  now rewrite isLcdOn_accepted_state.
Qed.

Lemma serial_char_st b c d : st (serial_char b c d) = char_state c d.
Proof.
  rewrite serial_char_feed, st_bind. cbn [set st]. unfold char_state.
  destruct (snd (feed (rd lineBuf d) c)); [now rewrite serial_line_st|reflexivity].
Qed.

Lemma ble_char_st b c d : st (ble_char b c d) = char_state c d.
Proof.
  rewrite ble_char_feed, st_bind. cbn [set st]. unfold char_state.
  destruct (snd (feed (rd lineBuf d) c)); [now rewrite ble_line_st|reflexivity].
Qed.

Lemma serial_run_st b input : forall d,
  st (for_each_char input (serial_char b) d) = run_state input d.
Proof.
  induction input as [|c r IH]; intros d; [reflexivity|].
  cbn [for_each_char run_state]. now rewrite st_bind, IH, serial_char_st.
Qed.

Lemma ble_run_st b input : forall d,
  st (for_each_char input (ble_char b) d) = run_state input d.
Proof.
  induction input as [|c r IH]; intros d; [reflexivity|].
  cbn [for_each_char run_state]. now rewrite st_bind, IH, ble_char_st.
Qed.

(** What a byte leaves alone: the bytes still pending on the serial
    port, the BLE globals and the status cadence. *)
Lemma char_state_frame c d :
  rd Serial_pending (char_state c d) = rd Serial_pending d /\
  ble (char_state c d) = ble d /\
  rd lastRender (char_state c d) = rd lastRender d.
Proof.
  unfold char_state, line_state. cbv zeta.
  destruct (snd (feed (rd lineBuf d) c)) as [l|]; [|repeat split].
  destruct (fst (parseLine l Metrics_init)); [|repeat split].
  destruct (rd isLcdOn d); repeat split.
Qed.

Lemma run_state_frame input : forall d,
  rd Serial_pending (run_state input d) = rd Serial_pending d /\
  ble (run_state input d) = ble d /\
  rd lastRender (run_state input d) = rd lastRender d.
Proof.
  induction input as [|c r IH]; intros d; [repeat split|].
  cbn [run_state]. destruct (IH (char_state c d)) as (A & B & C).
  destruct (char_state_frame c d) as (A' & B' & C').
  rewrite A, B, C. auto.
Qed.

(* ---- the pieces of [loop] ---- *)

Lemma Serial_pending_ok : VarOk Serial_pending. Proof. var_ok. Qed.
Lemma haveBlePacket_ok : VarOk haveBlePacket. Proof. var_ok. Qed.
Lemma lastBlePacket_ok : VarOk lastBlePacket. Proof. var_ok. Qed.
Lemma isLcdOn_ok : VarOk isLcdOn. Proof. var_ok. Qed.

Lemma loop_status_run b d :
  loop_status b d =
  if status_due d
  then mkRes tt (wr lastRender (millis_at (time_now d)) (tick (tick d)))
         (status_ops b (millis_at (time_now (tick d))) (rd lastRxMillis d)
            (rd receivedOnce d))
  else mkRes tt (tick d) [].
Proof.
  unfold loop_status, status_due.
  rewrite (bind_run millis _ d _ _ _ eq_refl).
  rewrite (bind_run (get lastRender) _ (tick d) _ _ _ eq_refl).
  change (rd lastRender (tick d)) with (rd lastRender d).
  destruct (_ >? _); cbn [when]; [|reflexivity].
  rewrite (bind_run _ _ _ _ _ _ (drawStatus_run b (tick d))).
  reflexivity.
Qed.

Lemma loop_serial_run b d :
  loop_serial b d =
  for_each_char (rd Serial_pending d) (serial_char b) (wr Serial_pending "" d).
Proof.
  unfold loop_serial.
  rewrite (bind_run (get Serial_pending) _ d _ _ _ eq_refl).
  rewrite (bind_run (Serial_pending ::= "") _ d _ _ _ eq_refl).
  now destruct (for_each_char _ _ _).
Qed.

Lemma lineBuf_char_state c d :
  rd lineBuf (char_state c d) = fst (feed (rd lineBuf d) c).
Proof. unfold char_state. apply (rd_wr _ lineBuf_ok). Qed.

Lemma lineBuf_run_state input : forall d,
  rd lineBuf (run_state input d) = snd (feed_all (rd lineBuf d) input).
Proof.
  induction input as [|c r IH]; intros d; [reflexivity|].
  cbn [run_state feed_all]. rewrite IH, lineBuf_char_state.
  destruct (feed (rd lineBuf d) c) as [buf1 out]. cbn [fst].
  now destruct (feed_all buf1 r).
Qed.

Lemma ble_part_st b d :
  st ((match b with RPC_BLE_SUPPORTED => loop_ble b | _ => skip end) d) =
  after_ble b d.
Proof.
  unfold after_ble. destruct b; try reflexivity.
  rewrite loop_ble_run. destruct (rd haveBlePacket d); [|reflexivity].
  destruct (String.eqb (rd lastBlePacket d) ""); [reflexivity|].
  cbv zeta. cbn [st]. now rewrite ble_run_st.
Qed.

Lemma loop_st b d :
  st (loop b d) =
  st (loop_status b (st (loop_sleep_check (after_input b d)))).
Proof.
  unfold loop, after_input. rewrite !st_bind. cbn [millis val st].
  rewrite ble_part_st, loop_serial_run, serial_run_st. reflexivity.
Qed.

Lemma sleep_check_frame d :
  rx (st (loop_sleep_check d)) = rx d /\ cache (st (loop_sleep_check d)) = cache d /\
  ble (st (loop_sleep_check d)) = ble d.
Proof.
  rewrite loop_sleep_check_run.
  destruct (rd isLcdOn d && sleep_due d); repeat split.
Qed.

Lemma status_frame b d :
  rx (st (loop_status b d)) = rx d /\ cache (st (loop_status b d)) = cache d /\
  ble (st (loop_status b d)) = ble d.
Proof.
  rewrite loop_status_run. destruct (status_due d); repeat split.
Qed.

(** What an iteration leaves in the receive globals is what reading the
    two transports left there. *)
Lemma loop_rx b d : rx (st (loop b d)) = rx (after_input b d).
Proof.
  rewrite loop_st.
  destruct (status_frame b (st (loop_sleep_check (after_input b d)))) as (A & _).
  destruct (sleep_check_frame (after_input b d)) as (B & _).
  now rewrite A, B.
Qed.

Lemma strlen_feed_all_from_state input d :
  strlen (rd lineBuf d) <= 128 -> strlen (rd lineBuf (run_state input d)) <= 128.
Proof. intros H. rewrite lineBuf_run_state. now apply feed_all_bounded. Qed.

Lemma after_ble_bounded b d :
  strlen (rd lineBuf d) <= 128 -> strlen (rd lineBuf (after_ble b d)) <= 128.
Proof.
  intros H. unfold after_ble. destruct b; try exact H.
  destruct (rd haveBlePacket d); [|exact H].
  change (rd lineBuf (wr lastBlePacket "" (wr haveBlePacket false ?x)))
    with (rd lineBuf x).
  destruct (String.eqb (rd lastBlePacket d) ""); [exact H|].
  now apply strlen_feed_all_from_state.
Qed.

(** X1. The line buffer never holds more than 128 bytes: whatever bytes
    arrive on whatever transport, a buffer within the capacity stays
    within it, byte after byte and over a whole iteration of [loop]. *)
Theorem line_buffer_never_exceeds_capacity (b : Build) (d : Device) (input : string) :
  strlen (rd lineBuf d) <= 128 ->
  strlen (rd lineBuf (st (for_each_char input (serial_char b) d))) <= 128 /\
  strlen (rd lineBuf (st (for_each_char input (ble_char b) d))) <= 128 /\
  strlen (rd lineBuf (st (for_each_char input Legacy.serial_char d))) <= 128 /\
  strlen (rd lineBuf (st (loop b d))) <= 128.
Proof.
  intros H. repeat split.
  - rewrite (lineBuf_after_run _ (lineBuf_after_serial_char b)).
    now apply feed_all_bounded.
  - rewrite (lineBuf_after_run _ (lineBuf_after_ble_char b)).
    now apply feed_all_bounded.
  - rewrite (lineBuf_after_run _ lineBuf_after_Legacy_serial_char).
    now apply feed_all_bounded.
  - change (rd lineBuf (st (loop b d))) with (rx_lineBuf (rx (st (loop b d)))).
    rewrite loop_rx. unfold after_input. cbv zeta.
    change (rx_lineBuf (rx ?x)) with (rd lineBuf x).
    apply strlen_feed_all_from_state.
    change (rd lineBuf (wr Serial_pending "" ?x)) with (rd lineBuf x).
    now apply after_ble_bounded.
Qed.

Lemma line_buffer_never_exceeds_capacity_witness :
  strlen (rd lineBuf (st (loop NO_BLUETOOTH (booted NO_BLUETOOTH nines_130 1000)))) <= 128.
Proof.
  exact (proj2 (proj2 (proj2
    (line_buffer_never_exceeds_capacity NO_BLUETOOTH
       (booted NO_BLUETOOTH nines_130 1000) "" ltac:(vm_compute; discriminate))))).
Defined.

(* ---- what the receive globals hold after a run ---- *)

Lemma received_line_state l d :
  received (line_state l d) = accept_line (received d) l.
Proof.
  unfold line_state, accept_line. cbv zeta.
  destruct (fst (parseLine l Metrics_init)); [|reflexivity].
  destruct (rd isLcdOn d); reflexivity.
Qed.

Lemma received_char_state c d :
  received (char_state c d) =
  match snd (feed (rd lineBuf d) c) with
  | Some l => accept_line (received d) l
  | None => received d
  end.
Proof.
  unfold char_state.
  change (received (wr lineBuf ?v ?x)) with (received x).
  destruct (snd (feed (rd lineBuf d) c)); [apply received_line_state|reflexivity].
Qed.

Lemma received_run_state input : forall d,
  received (run_state input d) =
  fold_left accept_line (fst (feed_all (rd lineBuf d) input)) (received d).
Proof.
  induction input as [|c r IH]; intros d; [reflexivity|].
  cbn [run_state feed_all]. rewrite IH, lineBuf_char_state, received_char_state.
  destruct (feed (rd lineBuf d) c) as [buf1 out]. cbn [fst snd].
  destruct (feed_all buf1 r) as [lines buf2]. cbn [fst].
  destruct out; reflexivity.
Qed.

Lemma after_ble_run b d :
  received (after_ble b d) =
    fold_left accept_line (fst (feed_all (rd lineBuf d) (ble_bytes b d))) (received d) /\
  rd lineBuf (after_ble b d) = snd (feed_all (rd lineBuf d) (ble_bytes b d)).
Proof.
  unfold after_ble, ble_bytes. destruct b; try (split; reflexivity).
  destruct (rd haveBlePacket d); [|split; reflexivity].
  change (received (wr lastBlePacket "" (wr haveBlePacket false ?x)))
    with (received x).
  change (rd lineBuf (wr lastBlePacket "" (wr haveBlePacket false ?x)))
    with (rd lineBuf x).
  destruct (String.eqb (rd lastBlePacket d) ""); [split; reflexivity|].
  split; [apply received_run_state|apply lineBuf_run_state].
Qed.

Lemma after_input_run b d :
  received (after_input b d) =
    fold_left accept_line (fst (feed_all (rd lineBuf d) (loop_input b d))) (received d) /\
  rd lineBuf (after_input b d) = snd (feed_all (rd lineBuf d) (loop_input b d)).
Proof.
  unfold after_input, loop_input. cbv zeta.
  destruct (after_ble_run b (tick d)) as [R L].
  change (received (tick d)) with (received d) in R.
  change (rd lineBuf (tick d)) with (rd lineBuf d) in R, L.
  change (ble_bytes b (tick d)) with (ble_bytes b d) in R, L.
  rewrite received_run_state, lineBuf_run_state.
  change (rd lineBuf (wr Serial_pending "" ?x)) with (rd lineBuf x).
  change (received (wr Serial_pending "" ?x)) with (received x).
  assert (P : rd Serial_pending (after_ble b (tick d)) = rd Serial_pending d).
  { unfold after_ble. destruct b; try reflexivity.
    change (rd haveBlePacket (tick d)) with (rd haveBlePacket d).
    destruct (rd haveBlePacket d); [|reflexivity].
    change (rd Serial_pending (wr lastBlePacket "" (wr haveBlePacket false ?x)))
      with (rd Serial_pending x).
    destruct (String.eqb _ ""); [reflexivity|].
    now destruct (run_state_frame (ble_incoming (rd lastBlePacket (tick d))) (tick d)). }
  rewrite P, R, L, feed_all_app. cbn [fst snd].
  now rewrite fold_left_app.
Qed.

Lemma received_rx d1 d2 :
  rx d1 = rx d2 -> received d1 = received d2 /\ rd lineBuf d1 = rd lineBuf d2.
Proof.
  intros H. unfold received.
  change (rd current d1) with (rx_current (rx d1)).
  change (rd lastLineShown d1) with (rx_lastLineShown (rx d1)).
  change (rd receivedOnce d1) with (rx_receivedOnce (rx d1)).
  change (rd lineBuf d1) with (rx_lineBuf (rx d1)).
  now rewrite H.
Qed.

(** X3. One iteration of [loop] feeds the bytes of a waiting BLE packet
    and then the bytes waiting on the serial port to one assembler; the
    snapshot shown afterwards is that of the last line among them that
    parses, and the one there was before if none does; the line buffer
    holds what follows the last terminator.  The same holds for any run
    of bytes on either transport. *)
Theorem loop_keeps_last_accepted_line (b : Build) (d : Device) (input : string) :
  received (st (loop b d)) =
    fold_left accept_line (fst (feed_all (rd lineBuf d) (loop_input b d))) (received d) /\
  rd lineBuf (st (loop b d)) = snd (feed_all (rd lineBuf d) (loop_input b d)) /\
  received (st (for_each_char input (serial_char b) d)) =
    fold_left accept_line (fst (feed_all (rd lineBuf d) input)) (received d) /\
  received (st (for_each_char input (ble_char b) d)) =
    fold_left accept_line (fst (feed_all (rd lineBuf d) input)) (received d).
Proof.
  destruct (received_rx _ _ (loop_rx b d)) as [R L].
  destruct (after_input_run b d) as [R' L'].
  rewrite R, L, R', L', serial_run_st, ble_run_st.
  repeat split; apply received_run_state.
Qed.

(* ---- what is sent over Bluetooth ---- *)

Lemma ops_bind {A B : Type} (c : M A) (k : A -> M B) d :
  ops (bind c k d) = (ops (c d) ++ ops (k (val (c d)) (st (c d))))%list.
Proof.
  unfold bind. destruct (c d) as [a d1 o1]. cbn [val st ops].
  now destruct (k a d1).
Qed.

Lemma sent_app a b : sent (a ++ b) = (sent a ++ sent b)%list.
Proof. apply filter_app. Qed.

Lemma sent_bar_ops y v c cached : sent (bar_ops y v c cached) = [].
Proof.
  unfold bar_ops. cbv zeta. destruct (_ =? _); [reflexivity|].
  destruct (_ >? _); reflexivity.
Qed.

Lemma sent_temp_ops y t cached : sent (temp_ops y t cached) = [].
Proof. unfold temp_ops. destruct (_ =? _); reflexivity. Qed.

Lemma sent_render_ops m d : sent (render_ops m d) = [].
Proof.
  unfold render_ops, gpu_ops. rewrite !sent_app.
  change (sent (setTextSize 2 :: ?l)) with (sent l).
  rewrite !sent_bar_ops, !sent_temp_ops.
  destruct (_ =? _); [reflexivity|]. now rewrite sent_bar_ops.
Qed.

Lemma sent_status_ops b now lastRx rcv : sent (status_ops b now lastRx rcv) = [].
Proof. reflexivity. Qed.

Lemma sent_wake_ops b d : sent (wake_ops b d) = [].
Proof.
  unfold wake_ops. rewrite !sent_app, sent_render_ops, sent_status_ops.
  reflexivity.
Qed.

Lemma sent_acceptSnapshot b l m d : sent (ops (acceptSnapshot b l m d)) = [].
Proof.
  rewrite acceptSnapshot_run, ops_prepend, sent_app, lcdWake_run.
  unfold accepted_ops. rewrite sent_app, sent_render_ops, sent_status_ops.
  destruct (rd isLcdOn _); cbn [ops app]; [reflexivity|apply sent_wake_ops].
Qed.

Lemma sendBluetoothData_ops b d :
  ops (sendBluetoothData b d) = echo b (rd metricsCharacteristic d) (rd current d).
Proof.
  unfold sendBluetoothData, echo. run_prims.
  destruct b; [destruct (rd metricsCharacteristic d)| |]; reflexivity.
Qed.

Lemma acceptSnapshot_frame b l m d :
  rd current (st (acceptSnapshot b l m d)) = m /\
  rd metricsCharacteristic (st (acceptSnapshot b l m d)) = rd metricsCharacteristic d.
Proof.
  rewrite acceptSnapshot_st, lcdWake_st, isLcdOn_accepted_state.
  destruct (rd isLcdOn d); split; reflexivity.
Qed.

Lemma sent_serial_line b l d :
  sent (ops (serial_line b l d)) =
  if fst (parseLine l Metrics_init)
  then echo b (rd metricsCharacteristic d) (snd (parseLine l Metrics_init))
  else [].
Proof.
  unfold serial_line. cbv zeta.
  destruct (fst (parseLine l Metrics_init)); cbn [when]; [|reflexivity].
  rewrite ops_bind, sent_app, sent_acceptSnapshot, sendBluetoothData_ops.
  destruct (acceptSnapshot_frame b l (snd (parseLine l Metrics_init)) d) as [C K].
  rewrite C, K. cbn [app].
  unfold echo. destruct b; [destruct (rd metricsCharacteristic d)| |]; reflexivity.
Qed.

Lemma sent_ble_line b l d : sent (ops (ble_line b l d)) = [].
Proof.
  unfold ble_line. cbv zeta.
  destruct (fst (parseLine l Metrics_init)); cbn [when]; [|reflexivity].
  apply sent_acceptSnapshot.
Qed.

Lemma sent_serial_char b c d :
  sent (ops (serial_char b c d)) =
  match snd (feed (rd lineBuf d) c) with
  | Some l => echoes b (rd metricsCharacteristic d) [l]
  | None => []
  end.
Proof.
  rewrite serial_char_feed, ops_bind, sent_app. cbn [set ops].
  rewrite app_nil_r.
  destruct (snd (feed (rd lineBuf d) c)); [|reflexivity].
  unfold echoes. cbn [flat_map]. rewrite app_nil_r. apply sent_serial_line.
Qed.

Lemma sent_ble_char b c d : sent (ops (ble_char b c d)) = [].
Proof.
  rewrite ble_char_feed, ops_bind, sent_app. cbn [set ops].
  destruct (snd (feed (rd lineBuf d) c)); [now rewrite sent_ble_line|reflexivity].
Qed.

Lemma connected_char_state c d :
  rd metricsCharacteristic (char_state c d) = rd metricsCharacteristic d.
Proof.
  destruct (char_state_frame c d) as (_ & B & _).
  change (rd metricsCharacteristic (char_state c d))
    with (ble_metricsCharacteristic (ble (char_state c d))).
  now rewrite B.
Qed.

Lemma sent_serial_run b input : forall d,
  sent (ops (for_each_char input (serial_char b) d)) =
  echoes b (rd metricsCharacteristic d) (fst (feed_all (rd lineBuf d) input)).
Proof.
  induction input as [|c r IH]; intros d; [reflexivity|].
  cbn [for_each_char feed_all]. rewrite ops_bind, sent_app, IH, sent_serial_char.
  rewrite serial_char_st, lineBuf_char_state, connected_char_state.
  destruct (feed (rd lineBuf d) c) as [buf1 out]. cbn [fst snd].
  destruct (feed_all buf1 r) as [lines buf2]. cbn [fst].
  destruct out; [|reflexivity].
  unfold echoes. cbn [flat_map]. now rewrite app_nil_r.
Qed.

Lemma sent_ble_run b input : forall d,
  sent (ops (for_each_char input (ble_char b) d)) = [].
Proof.
  induction input as [|c r IH]; intros d; [reflexivity|].
  cbn [for_each_char]. now rewrite ops_bind, sent_app, IH, sent_ble_char.
Qed.

Lemma sent_ble_part b d :
  sent (ops ((match b with RPC_BLE_SUPPORTED => loop_ble b | _ => skip end) d)) = [].
Proof.
  destruct b; try reflexivity. rewrite loop_ble_run.
  destruct (rd haveBlePacket d); [|reflexivity].
  destruct (String.eqb _ ""); [reflexivity|]. cbv zeta. cbn [ops].
  apply sent_ble_run.
Qed.

Lemma sent_loop b d :
  sent (ops (loop b d)) =
  echoes b (rd metricsCharacteristic d)
    (fst (feed_all (snd (feed_all (rd lineBuf d) (ble_bytes b d)))
            (rd Serial_pending d))).
Proof.
  unfold loop. rewrite !ops_bind, !sent_app. cbn [millis ops val st app].
  rewrite sent_ble_part, ble_part_st, loop_serial_run, sent_serial_run.
  cbn [app].
  change (rd lineBuf (wr Serial_pending "" ?x)) with (rd lineBuf x).
  change (rd metricsCharacteristic (wr Serial_pending "" ?x))
    with (rd metricsCharacteristic x).
  destruct (after_ble_run b (tick d)) as [_ L]. rewrite L.
  change (rd lineBuf (tick d)) with (rd lineBuf d).
  change (ble_bytes b (tick d)) with (ble_bytes b d).
  assert (P : rd Serial_pending (after_ble b (tick d)) = rd Serial_pending d /\
              rd metricsCharacteristic (after_ble b (tick d)) =
              rd metricsCharacteristic d).
  { unfold after_ble. destruct b; try (split; reflexivity).
    change (rd haveBlePacket (tick d)) with (rd haveBlePacket d).
    destruct (rd haveBlePacket d); [|split; reflexivity].
    change (rd Serial_pending (wr lastBlePacket "" (wr haveBlePacket false ?x)))
      with (rd Serial_pending x).
    change (rd metricsCharacteristic (wr lastBlePacket "" (wr haveBlePacket false ?x)))
      with (rd metricsCharacteristic x).
    destruct (String.eqb _ ""); [split; reflexivity|].
    destruct (run_state_frame (ble_incoming (rd lastBlePacket (tick d))) (tick d))
      as (A & B & _).
    split; [exact A|].
    change (rd metricsCharacteristic (run_state ?i ?x))
      with (ble_metricsCharacteristic (ble (run_state i x))).
    now rewrite B. }
  destruct P as [P1 P2]. rewrite P1, P2.
  rewrite loop_sleep_check_run, loop_status_run.
  destruct (_ && _); destruct (status_due _); cbn [ops]; now rewrite app_nil_r.
Qed.

(** X4. What goes out over Bluetooth is the echo of the accepted serial
    lines and nothing else: a run of serial bytes sends one message for
    each line that parses, in order, with the text of that line's
    snapshot; bytes that come in over BLE are never echoed; a build
    without Bluetooth sends nothing, and so does the BLE build before its
    notify characteristic exists; the sleep check and the status redraw
    send nothing. *)
Theorem echo_follows_accepted_serial_lines (b : Build) (d : Device) (input : string) :
  sent (ops (for_each_char input (serial_char b) d)) =
    echoes b (rd metricsCharacteristic d) (fst (feed_all (rd lineBuf d) input)) /\
  sent (ops (for_each_char input (ble_char b) d)) = [] /\
  sent (ops (loop b d)) =
    echoes b (rd metricsCharacteristic d)
      (fst (feed_all (snd (feed_all (rd lineBuf d) (ble_bytes b d)))
              (rd Serial_pending d))) /\
  echoes NO_BLUETOOTH (rd metricsCharacteristic d)
    (fst (feed_all (rd lineBuf d) input)) = [] /\
  echoes RPC_BLE_SUPPORTED false (fst (feed_all (rd lineBuf d) input)) = [].
Proof.
  split; [apply sent_serial_run|]. split; [apply sent_ble_run|].
  split.
  - apply sent_loop.
  - split.
    + induction (fst (feed_all (rd lineBuf d) input)) as [|l r IH]; [reflexivity|].
      unfold echoes in *. cbn [flat_map]. rewrite IH.
      now destruct (fst (parseLine l Metrics_init)).
    + induction (fst (feed_all (rd lineBuf d) input)) as [|l r IH]; [reflexivity|].
      unfold echoes in *. cbn [flat_map]. rewrite IH.
      now destruct (fst (parseLine l Metrics_init)).
Qed.

(* ---- carriage returns ---- *)

Section CarriageReturn.

Variable handler : ascii -> M unit.
Hypothesis handler_cr : forall d, handler CR d = mkRes tt d [].

Lemma without_cr_run input : forall d,
  for_each_char input handler d = for_each_char (without_cr input) handler d.
Proof.
  induction input as [|c r IH]; intros d; [reflexivity|].
  cbn [without_cr]. destruct (Ascii.eqb c CR) eqn:E.
  - apply Ascii.eqb_eq in E. subst c. cbn [for_each_char].
    rewrite (bind_run _ _ _ _ _ _ (handler_cr d)), <- IH.
    now destruct (for_each_char r handler d).
  - cbn [for_each_char]. unfold bind. destruct (handler c d) as [[] d1 o1].
    now rewrite IH.
Qed.

End CarriageReturn.

Lemma serial_char_cr b d : serial_char b CR d = mkRes tt d [].
Proof. now rewrite (serial_char_other b CR d eq_refl), accumulate_run. Qed.

Lemma ble_char_cr b d : ble_char b CR d = mkRes tt d [].
Proof. now rewrite (ble_char_other b CR d eq_refl), accumulate_run. Qed.

Lemma Legacy_serial_char_cr d : Legacy.serial_char CR d = mkRes tt d [].
Proof.
  unfold Legacy.serial_char. change (Ascii.eqb CR NL) with false. cbv iota.
  now rewrite accumulate_run.
Qed.

Lemma without_cr_payload s :
  all_chars (fun c => negb (Ascii.eqb c CR)) (without_cr s) = true.
Proof.
  induction s as [|c r IH]; [reflexivity|]. cbn [without_cr].
  destruct (Ascii.eqb c CR) eqn:E; [exact IH|].
  cbn [all_chars]. now rewrite E, IH.
Qed.

(** X5. Carriage returns are dropped wherever they stand: a run of bytes
    has the same effect, call for call and in the final state, as the run
    with every carriage return taken out, on the serial port, over BLE and
    in the serial-only firmware.  So lines may end in CR LF or in LF, and
    a carriage return inside a line joins its two halves. *)
Theorem carriage_returns_are_ignored (b : Build) (d : Device) (input : string) :
  for_each_char input (serial_char b) d =
    for_each_char (without_cr input) (serial_char b) d /\
  for_each_char input (ble_char b) d =
    for_each_char (without_cr input) (ble_char b) d /\
  for_each_char input Legacy.serial_char d =
    for_each_char (without_cr input) Legacy.serial_char d /\
  all_chars (fun c => negb (Ascii.eqb c CR)) (without_cr input) = true /\
  feed_all (rd lineBuf d) input = feed_all (rd lineBuf d) (without_cr input).
Proof.
  split; [apply (without_cr_run _ (serial_char_cr b))|].
  split; [apply (without_cr_run _ (ble_char_cr b))|].
  split; [apply (without_cr_run _ Legacy_serial_char_cr)|].
  split; [apply without_cr_payload|].
  generalize (rd lineBuf d). induction input as [|c r IH]; intros buf; [reflexivity|].
  cbn [without_cr]. destruct (Ascii.eqb c CR) eqn:E.
  - apply Ascii.eqb_eq in E. subst c. cbn [feed_all].
    change (feed buf CR) with (buf, @None string). rewrite <- IH.
    now destruct (feed_all buf r).
  - cbn [feed_all]. destruct (feed buf c) as [buf1 out]. now rewrite IH.
Qed.

(* ---- bytes read in several goes ---- *)

(** What an iteration reads: the snapshot of the last line that parses
    among the bytes of the packet and of the port, and the buffer that
    follows the last terminator. *)
Lemma loop_reads b d :
  received (st (loop b d)) =
    fold_left accept_line (fst (feed_all (rd lineBuf d) (loop_input b d))) (received d) /\
  rd lineBuf (st (loop b d)) = snd (feed_all (rd lineBuf d) (loop_input b d)).
Proof.
  destruct (received_rx _ _ (loop_rx b d)) as [R L].
  destruct (after_input_run b d) as [R' L'].
  now rewrite R, L, R', L'.
Qed.

Lemma after_ble_slot b d :
  ble_bytes b (after_ble b d) = "" /\
  rd metricsCharacteristic (after_ble b d) = rd metricsCharacteristic d.
Proof.
  unfold ble_bytes, after_ble. destruct b; try (split; reflexivity).
  destruct (rd haveBlePacket d) eqn:H.
  - split; [reflexivity|].
    change (rd metricsCharacteristic (wr lastBlePacket "" (wr haveBlePacket false ?x)))
      with (rd metricsCharacteristic x).
    destruct (String.eqb _ ""); [reflexivity|].
    destruct (run_state_frame (ble_incoming (rd lastBlePacket d)) d) as (_ & B & _).
    change (rd metricsCharacteristic (run_state ?i ?x))
      with (ble_metricsCharacteristic (ble (run_state i x))).
    now rewrite B.
  - now rewrite H.
Qed.

Lemma ble_bytes_ble b d1 d2 : ble d1 = ble d2 -> ble_bytes b d1 = ble_bytes b d2 /\
  rd metricsCharacteristic d1 = rd metricsCharacteristic d2.
Proof.
  intros H. unfold ble_bytes.
  change (rd haveBlePacket d1) with (ble_haveBlePacket (ble d1)).
  change (rd lastBlePacket d1) with (ble_lastBlePacket (ble d1)).
  change (rd metricsCharacteristic d1) with (ble_metricsCharacteristic (ble d1)).
  now rewrite H.
Qed.

(** What an iteration leaves behind: nothing on the serial port, nothing
    in the BLE slot; the notify characteristic is as it was. *)
Lemma loop_leaves b d :
  rd Serial_pending (st (loop b d)) = "" /\
  ble_bytes b (st (loop b d)) = "" /\
  rd metricsCharacteristic (st (loop b d)) = rd metricsCharacteristic d.
Proof.
  rewrite loop_st.
  set (x := after_input b d).
  assert (P : rd Serial_pending (st (loop_status b (st (loop_sleep_check x)))) =
              rd Serial_pending x).
  { rewrite loop_status_run, loop_sleep_check_run.
    destruct (rd isLcdOn x && sleep_due x); cbn [st];
      destruct (status_due _); reflexivity. }
  destruct (status_frame b (st (loop_sleep_check x))) as (_ & _ & B1).
  destruct (sleep_check_frame x) as (_ & _ & B2).
  destruct (ble_bytes_ble b _ _ (eq_trans B1 B2)) as [E1 E2].
  rewrite P, E1, E2. unfold x, after_input. cbv zeta.
  set (y := after_ble b (tick d)).
  destruct (run_state_frame (rd Serial_pending y) (wr Serial_pending "" y))
    as (A & B & _).
  destruct (ble_bytes_ble b _ _ B) as [F1 F2].
  rewrite A, F1, F2.
  destruct (after_ble_slot b (tick d)) as [G1 G2].
  split; [apply (rd_wr _ Serial_pending_ok)|].
  split; [exact G1|exact G2].
Qed.

Lemma loop_input_arrive b packet serial d :
  rd Serial_pending d = "" -> ble_bytes b d = "" ->
  loop_input b (arrive b packet serial d) = incoming b packet ++ serial.
Proof.
  intros Hs Hb. unfold loop_input, arrive.
  rewrite (rd_wr _ Serial_pending_ok), Hs. cbn [append]. f_equal.
  change (ble_bytes b (wr Serial_pending serial ?x)) with (ble_bytes b x).
  unfold incoming. destruct b; try exact Hb.
  rewrite onWrite_run. destruct (String.eqb packet "") eqn:E; [exact Hb|].
  unfold ble_bytes. cbn [st].
  change (rd haveBlePacket (wr haveBlePacket true ?x)) with true.
  change (rd lastBlePacket (wr haveBlePacket true (wr lastBlePacket packet ?x)))
    with packet.
  now rewrite E.
Qed.

Lemma arrive_rx b packet serial d : rx (arrive b packet serial d) = rx d.
Proof.
  unfold arrive. destruct b; try reflexivity.
  rewrite onWrite_run. now destruct (String.eqb packet "").
Qed.

(** X2. The two transports share one line buffer, across iterations of
    [loop] as within one.  After an iteration, let a BLE write and serial
    bytes arrive and [loop] run again: what the second iteration reads is
    the packet, ended by a line feed if it had none, and then the serial
    bytes, and the snapshot and the buffer it leaves are those of one
    assembler fed all the bytes of the first iteration and then all the
    bytes of the second.  So an unfinished line left by the serial port is
    continued by the BLE packet that comes next, while nothing continues a
    BLE packet, which always ends its line. *)
Theorem transports_share_one_line_buffer
  (b : Build) (d : Device) (packet serial : string) :
  let d2 := arrive b packet serial (st (loop b d)) in
  let bytes := loop_input b d ++ incoming b packet ++ serial in
  loop_input b d2 = incoming b packet ++ serial /\
  received (st (loop b d2)) =
    fold_left accept_line (fst (feed_all (rd lineBuf d) bytes)) (received d) /\
  rd lineBuf (st (loop b d2)) = snd (feed_all (rd lineBuf d) bytes).
Proof.
  cbv zeta.
  destruct (loop_leaves b d) as (Ls & Lb & _).
  pose proof (loop_input_arrive b packet serial _ Ls Lb) as I.
  split; [exact I|].
  destruct (loop_reads b (arrive b packet serial (st (loop b d)))) as [R L].
  destruct (received_rx _ _ (arrive_rx b packet serial (st (loop b d)))) as [R0 L0].
  destruct (loop_reads b d) as [R1 L1].
  rewrite R, L, I, R0, L0, R1, L1.
  rewrite (feed_all_app (loop_input b d) (incoming b packet ++ serial)).
  cbn [fst snd]. now rewrite fold_left_app.
Qed.

Lemma echoes_app b k l1 l2 :
  echoes b k (l1 ++ l2) = (echoes b k l1 ++ echoes b k l2)%list.
Proof. unfold echoes. apply flat_map_app. Qed.

(** X6. How the serial bytes are spread over the iterations of [loop]
    does not matter to what is read: bytes that arrive in two parts, one
    before each of two iterations, leave the snapshot, the last line and
    the line buffer that the same bytes leave when they are all there for
    one iteration, and the same echoes are sent over Bluetooth, in the
    same order.  A line whose bytes arrive in pieces is assembled as if
    it had come at once.  (The calls made to the display need not be the
    same: the sleep check and the status redraw run between the two
    parts.) *)
Theorem serial_chunking_is_invisible (b : Build) (d : Device) (a c : string) :
  let first := loop b (wr Serial_pending a d) in
  let second := loop b (wr Serial_pending c (st first)) in
  let whole := loop b (wr Serial_pending (a ++ c) d) in
  received (st second) = received (st whole) /\
  rd lineBuf (st second) = rd lineBuf (st whole) /\
  (sent (ops first) ++ sent (ops second))%list = sent (ops whole).
Proof.
  cbv zeta.
  destruct (loop_leaves b (wr Serial_pending a d)) as (_ & Lb & Lm).
  set (d1 := st (loop b (wr Serial_pending a d))) in *.
  assert (I1 : forall x, loop_input b (wr Serial_pending x d) = ble_bytes b d ++ x).
  { intros x. unfold loop_input. now rewrite (rd_wr _ Serial_pending_ok). }
  assert (I2 : loop_input b (wr Serial_pending c d1) = c).
  { unfold loop_input. rewrite (rd_wr _ Serial_pending_ok).
    change (ble_bytes b (wr Serial_pending c d1)) with (ble_bytes b d1).
    now rewrite Lb. }
  destruct (loop_reads b (wr Serial_pending c d1)) as [R2 L2].
  destruct (loop_reads b (wr Serial_pending (a ++ c) d)) as [R L].
  destruct (loop_reads b (wr Serial_pending a d)) as [R1 L1]. fold d1 in R1, L1.
  change (rd lineBuf (wr Serial_pending ?x ?y)) with (rd lineBuf y) in *.
  change (received (wr Serial_pending ?x ?y)) with (received y) in *.
  rewrite R2, L2, R, L, I2, !I1, R1, L1, I1.
  rewrite <- append_assoc_s, (feed_all_app (ble_bytes b d ++ a) c).
  cbn [fst snd]. rewrite fold_left_app.
  split; [reflexivity|]. split; [reflexivity|].
  rewrite !sent_loop.
  change (rd lineBuf (wr Serial_pending ?x ?y)) with (rd lineBuf y).
  change (rd metricsCharacteristic (wr Serial_pending ?x ?y))
    with (rd metricsCharacteristic y).
  change (ble_bytes b (wr Serial_pending ?x ?y)) with (ble_bytes b y).
  rewrite !(rd_wr _ Serial_pending_ok), Lb, Lm, L1, I1.
  change (rd metricsCharacteristic (wr Serial_pending ?x ?y))
    with (rd metricsCharacteristic y).
  cbn [feed_all snd].
  rewrite (feed_all_app (ble_bytes b d) a). cbn [snd].
  rewrite (feed_all_app a c). cbn [fst].
  now rewrite echoes_app.
Qed.

(* ---- the BLE packet ---- *)

Lemma endsWith_char_split c s :
  endsWith_char c s = true -> exists p, s = p ++ String c EmptyString.
Proof.
  induction s as [|a s IH]; [discriminate|].
  destruct s as [|a' s'].
  - cbn [endsWith_char]. intros E. apply Ascii.eqb_eq in E. subst a.
    now exists EmptyString.
  - intros E. change (endsWith_char c (String a' s') = true) in E.
    destruct (IH E) as [p Hp]. exists (String a p). cbn [append]. now rewrite <- Hp.
Qed.

Lemma ble_incoming_ends packet : exists p, ble_incoming packet = p ++ line_end.
Proof.
  unfold ble_incoming. cbv zeta.
  destruct (endsWith_char NL (c_str packet)) eqn:E.
  - now apply endsWith_char_split.
  - now exists (c_str packet).
Qed.

Lemma feed_all_line_end buf s : snd (feed_all buf (s ++ line_end)) = "".
Proof.
  rewrite feed_all_app. cbn [snd]. unfold line_end. cbn [feed_all].
  now destruct (feed_all buf s).
Qed.

(** X7. The BLE receive path is a mailbox with one slot.  A write that is
    not empty replaces whatever an earlier write left unread; the next
    iteration takes the packet as one whole line, terminated whether or
    not it ends in a line feed, so that the line buffer is empty
    afterwards and a line split over two writes is never put together;
    the slot is then empty, and a further pass over it does nothing. *)
Theorem ble_write_is_read_once_as_a_line (b : Build) (d : Device) (v0 v : string) :
  v <> "" ->
  let d1 := st (onWrite v (st (onWrite v0 d))) in
  let r := for_each_char (ble_incoming v) (ble_char b) d1 in
  d1 = st (onWrite v d) /\
  onWrite "" d = mkRes tt d [] /\
  loop_ble b d1 =
    mkRes tt (wr lastBlePacket "" (wr haveBlePacket false (st r))) (ops r) /\
  rd lineBuf (st (loop_ble b d1)) = "" /\
  rd haveBlePacket (st (loop_ble b d1)) = false /\
  rd lastBlePacket (st (loop_ble b d1)) = "" /\
  loop_ble b (st (loop_ble b d1)) = mkRes tt (st (loop_ble b d1)) [].
Proof.
  intros Hv. cbv zeta. apply String.eqb_neq in Hv.
  assert (E1 : st (onWrite v (st (onWrite v0 d))) =
               wr haveBlePacket true (wr lastBlePacket v d)).
  { rewrite !onWrite_run, Hv. destruct (String.eqb v0 ""); [reflexivity|].
    cbn [st]. now destruct d as [? ? ? [? ? ?] ?]. }
  rewrite E1.
  split; [now rewrite onWrite_run, Hv|].
  split; [reflexivity|].
  set (d1 := wr haveBlePacket true (wr lastBlePacket v d)).
  assert (R : loop_ble b d1 =
              mkRes tt (wr lastBlePacket "" (wr haveBlePacket false
                          (st (for_each_char (ble_incoming v) (ble_char b) d1))))
                (ops (for_each_char (ble_incoming v) (ble_char b) d1))).
  { rewrite loop_ble_run.
    change (rd haveBlePacket d1) with true. change (rd lastBlePacket d1) with v.
    now rewrite Hv. }
  split; [exact R|]. rewrite R. cbn [st].
  split.
  { change (rd lineBuf (wr lastBlePacket "" (wr haveBlePacket false ?x)))
      with (rd lineBuf x).
    rewrite ble_run_st, lineBuf_run_state.
    destruct (ble_incoming_ends v) as [p Hp]. rewrite Hp.
    apply feed_all_line_end. }
  split; [reflexivity|]. split; [reflexivity|].
  now rewrite loop_ble_run.
Qed.

Lemma ble_write_is_read_once_as_a_line_witness :
  let d := booted RPC_BLE_SUPPORTED "" 1000 in
  let d1 := st (onWrite "1,2,3," (st (onWrite "9,9,9,9,9" d))) in
  d1 = st (onWrite "1,2,3," d) /\
  rd lineBuf (st (loop_ble RPC_BLE_SUPPORTED d1)) = "" /\
  rd receivedOnce (st (loop_ble RPC_BLE_SUPPORTED d1)) = false.
Proof.
  cbv zeta.
  pose proof (ble_write_is_read_once_as_a_line RPC_BLE_SUPPORTED
                (booted RPC_BLE_SUPPORTED "" 1000) "9,9,9,9,9" "1,2,3,"
                ltac:(discriminate)) as H.
  cbv zeta in H. destruct H as (A & _ & _ & B & _).
  split; [exact A|]. split; [exact B|]. vm_compute. reflexivity.
Defined.

(* ---- an iteration without input ---- *)

(** X8. An iteration of [loop] that finds nothing to read draws no
    metric and never switches the panel on: the only calls it can make
    are those that blank the panel, when it is on and more than 60 s have
    passed since the last snapshot, and the status line, when more than a
    second has passed since it was last redrawn, which happens whether
    the panel is on or off.  The receive globals and the draw cache are
    left as they were. *)
Theorem loop_without_input (b : Build) (d : Device) :
  rd Serial_pending d = "" -> rd haveBlePacket d = false ->
  ops (loop b d) =
    ((if rd isLcdOn d && sleep_due (tick d)
      then [fillScreen TFT_BLACK; digitalWrite_LCD_BACKLIGHT false] else [])
     ++ (if status_due (tick (tick d))
         then status_ops b (millis_at (time_now (tick (tick (tick d)))))
                (rd lastRxMillis d) (rd receivedOnce d)
         else []))%list /\
  rx (st (loop b d)) = rx d /\
  cache (st (loop b d)) = cache d /\
  rd isLcdOn (st (loop b d)) = rd isLcdOn d && negb (sleep_due (tick d)).
Proof.
  intros Hs Hb. unfold loop.
  rewrite (bind_run millis _ d _ _ _ eq_refl).
  assert (B : (match b with RPC_BLE_SUPPORTED => loop_ble b | _ => skip end) (tick d)
              = mkRes tt (tick d) []).
  { destruct b; try reflexivity. rewrite loop_ble_run.
    change (rd haveBlePacket (tick d)) with (rd haveBlePacket d). now rewrite Hb. }
  rewrite (bind_run _ _ _ _ _ _ B).
  assert (S : loop_serial b (tick d) = mkRes tt (tick d) []).
  { rewrite loop_serial_run.
    change (rd Serial_pending (tick d)) with (rd Serial_pending d). rewrite Hs.
    cbn [for_each_char]. unfold skip, ret. f_equal.
    rewrite <- Hs at 1.
    change (rd Serial_pending d) with (rd Serial_pending (tick d)).
    apply (wr_rd _ Serial_pending_ok). }
  rewrite (bind_run _ _ _ _ _ _ S).
  pose proof (loop_sleep_check_run (tick d)) as C.
  change (rd isLcdOn (tick d)) with (rd isLcdOn d) in C.
  destruct (rd isLcdOn d && sleep_due (tick d)) eqn:E.
  - rewrite (bind_run _ _ _ _ _ _ C), loop_status_run.
    change (status_due (wr isLcdOn false (tick (tick d))))
      with (status_due (tick (tick d))).
    apply andb_prop in E as [E1 E2]. rewrite E1, E2.
    destruct (status_due (tick (tick d))); cbn [st ops app andb negb]; repeat split.
  - rewrite (bind_run _ _ _ _ _ _ C), loop_status_run.
    assert (P : rd isLcdOn d && negb (sleep_due (tick d)) = rd isLcdOn d).
    { destruct (rd isLcdOn d), (sleep_due (tick d)); try reflexivity; discriminate. }
    rewrite P.
    destruct (status_due (tick (tick d))); cbn [st ops app]; repeat split.
Qed.

Lemma loop_without_input_witness :
  ops (loop NO_BLUETOOTH asleep) = [] /\
  rd isLcdOn (st (loop NO_BLUETOOTH asleep)) = false.
Proof.
  pose proof (loop_without_input NO_BLUETOOTH asleep eq_refl eq_refl) as H.
  destruct H as (A & _ & _ & B). split; [exact A|exact B].
Defined.

(* ---- what the renderer compares ---- *)

Lemma bar_ops_same_width y v v' c :
  bar_width 228 v = bar_width 228 v' ->
  bar_ops y v c (bar_width (snd (barGeom y)) v') = [].
Proof.
  intros H. rewrite <- (bar_ops_settled y v c). f_equal. symmetry. exact H.
Qed.

Lemma temp_ops_same_tenths y t t' :
  tenths t = tenths t' -> temp_ops y t (tenths t') = [].
Proof. intros H. rewrite <- H. apply temp_ops_settled. Qed.

(** X9. The renderer redraws a field only when the key it caches for
    that field changes: a snapshot with the same bar widths in pixels, the
    same GPU load in whole percent and the same temperatures in tenths as
    the one rendered before draws nothing and leaves the cache as it is,
    whatever its values are.  The percentage beside a bar is therefore
    not redrawn while the bar keeps its width, and the GPU bar does not
    move while the load rounds to the same whole percent. *)
Theorem render_skips_equal_cache_keys (m1 m2 : Metrics) (d : Device) :
  cache_key m2 = cache_key m1 ->
  updateBarsAndTemps m2 (st (updateBarsAndTemps m1 d)) =
    mkRes tt (st (updateBarsAndTemps m1 d)) [setTextSize 2].
Proof.
  unfold cache_key. intros H. inversion H as [[Hc Ht Hr Hg Hgt]].
  rewrite !updateBarsAndTemps_run. cbn [st]. f_equal.
  - unfold render_state, gpu_state. open_device d. cache_simpl.
    change (snd (barGeom ?y)) with 228.
    rewrite Hc, Ht, Hr, Hg, Hgt, Z.eqb_refl. reflexivity.
  - unfold render_ops, render_state, gpu_ops, gpu_state. open_device d. cache_simpl.
    rewrite (bar_ops_same_width _ _ _ _ Hc), (bar_ops_same_width _ _ _ _ Hr),
      (temp_ops_same_tenths _ _ _ Ht), (temp_ops_same_tenths _ _ _ Hgt), Hg,
      Z.eqb_refl.
    reflexivity.
Qed.

Lemma render_skips_equal_cache_keys_witness :
  let d := booted NO_BLUETOOTH "" 1000 in
  updateBarsAndTemps m_second (st (updateBarsAndTemps m_first d)) =
    mkRes tt (st (updateBarsAndTemps m_first d)) [setTextSize 2] /\
  drawn_strings (ops (updateBarsAndTemps m_first d)) = ["100%"; "40C"; "0%"; "10%"; "50C"] /\
  drawn_strings (ops (updateBarsAndTemps m_second d)) = ["250%"; "40C"; "1%"; "10%"; "50C"] /\
  bar_width 228 (gpu m_first) = 22 /\ bar_width 228 (gpu m_second) = 23.
Proof.
  cbv zeta. split.
  - apply (render_skips_equal_cache_keys m_first m_second).
    vm_compute. reflexivity.
  - vm_compute. repeat split.
Defined.

(* ---- which lines the parser takes ---- *)

Lemma isspace_not_nul c : isspace c = true -> Ascii.eqb c NUL = false.
Proof.
  intros H. destruct (Ascii.eqb c NUL) eqn:E; [|reflexivity].
  apply Ascii.eqb_eq in E. subst c. discriminate.
Qed.

Lemma isspace_not c ch : isspace c = true -> isspace ch = false -> Ascii.eqb c ch = false.
Proof.
  intros H1 H2. destruct (Ascii.eqb c ch) eqn:E; [|reflexivity].
  apply Ascii.eqb_eq in E. subst c. congruence.
Qed.

Lemma count_c_str_ltrim ch s :
  isspace ch = false ->
  count_char ch (c_str (ltrim s)) = count_char ch (c_str s).
Proof.
  intros H. induction s as [|c s IH]; [reflexivity|]. cbn [ltrim].
  destruct (isspace c) eqn:E; [|reflexivity].
  cbn [c_str]. rewrite (isspace_not_nul c E). cbn [count_char].
  now rewrite (isspace_not c ch E H), IH.
Qed.

Lemma c_str_cons c x :
  Ascii.eqb c NUL = false -> c_str (String c x) = String c (c_str x).
Proof. intros H. cbn [c_str]. now rewrite H. Qed.

Lemma c_str_nul c x : Ascii.eqb c NUL = true -> c_str (String c x) = "".
Proof. intros H. cbn [c_str]. now rewrite H. Qed.

Lemma count_c_str_rtrim ch s :
  isspace ch = false ->
  count_char ch (c_str (rtrim s)) = count_char ch (c_str s).
Proof.
  intros H. induction s as [|c s IH]; [reflexivity|]. cbn [rtrim].
  destruct (Ascii.eqb c NUL) eqn:N.
  - rewrite (c_str_nul c s N).
    destruct (rtrim s).
    + apply Ascii.eqb_eq in N. subst c. reflexivity.
    + now rewrite (c_str_nul _ _ N).
  - rewrite (c_str_cons c s N). cbn [count_char]. rewrite <- IH.
    destruct (rtrim s) as [|c' r'].
    + destruct (isspace c) eqn:E.
      * now rewrite (isspace_not c ch E H).
      * now rewrite (c_str_cons c "" N).
    + now rewrite (c_str_cons c _ N).
Qed.

(** X10. A line is taken as a snapshot exactly when it holds at least
    four commas before its first NUL byte, and so, when it holds no NUL
    byte, exactly when it holds at least four commas: [parseLine] looks at
    nothing else, so that fields that are empty or are no numbers, and
    further fields after the fifth, do not make it refuse a line.
    Trimming does not change the count, so the same holds of the buffer
    that a line feed ends; a refused line leaves the output argument as it
    was. *)
Theorem parseLine_accepts_iff_four_commas (line : string) (out : Metrics) :
  fst (parseLine line out) = (4 <=? count_char COMMA (c_str line))%nat /\
  fst (parseLine (trim line) out) = (4 <=? count_char COMMA (c_str line))%nat /\
  (fst (parseLine line out) = false -> snd (parseLine line out) = out) /\
  (all_chars not_nul line = true ->
   fst (parseLine line out) = (4 <=? count_char COMMA line)%nat).
Proof.
  assert (A : forall l, fst (parseLine l out) = (4 <=? count_char COMMA (c_str l))%nat).
  { intros l. destruct (4 <=? count_char COMMA (c_str l))%nat eqn:E.
    - apply Nat.leb_le in E. now apply parseLine_accepts.
    - apply Nat.leb_gt in E. now rewrite parseLine_rejects_before_nul. }
  split; [apply A|]. split; [|split].
  - rewrite A. unfold trim.
    now rewrite count_c_str_rtrim, count_c_str_ltrim.
  - rewrite A. intros E. apply Nat.leb_gt in E.
    now rewrite parseLine_rejects_before_nul.
  - intros N. now rewrite A, (c_str_no_nul line N).
Qed.

Lemma parseLine_accepts_iff_four_commas_witness :
  fst (parseLine ",,x,,1,2" Metrics_init) = true /\
  snd (parseLine "1,2,3" Metrics_init) = Metrics_init /\
  fst (parseLine nul_line Metrics_init) = false.
Proof.
  split; [|split].
  - exact (proj1 (parseLine_accepts_iff_four_commas ",,x,,1,2" Metrics_init)).
  - apply (proj1 (proj2 (proj2 (parseLine_accepts_iff_four_commas "1,2,3" Metrics_init)))).
    vm_compute. reflexivity.
  - exact (proj1 (parseLine_accepts_iff_four_commas nul_line Metrics_init)).
Defined.

(* ---- procedures that leave the receive globals alone ---- *)

Lemma keeps_rx_bind {A B : Type} (c : M A) (k : A -> M B) :
  keeps_rx c -> (forall a, keeps_rx (k a)) -> keeps_rx (bind c k).
Proof. intros Hc Hk d. now rewrite st_bind, Hk, Hc. Qed.

Lemma keeps_rx_call o : keeps_rx (call o).
Proof. intros d. reflexivity. Qed.

Lemma keeps_rx_get {A : Type} (x : Var A) : keeps_rx (get x).
Proof. intros d. reflexivity. Qed.

Lemma keeps_rx_skip : keeps_rx skip.
Proof. intros d. reflexivity. Qed.

Lemma keeps_rx_millis : keeps_rx millis.
Proof. intros d. reflexivity. Qed.

Lemma keeps_rx_when b (c : M unit) : keeps_rx c -> keeps_rx (when b c).
Proof. intros H. destruct b; [exact H|apply keeps_rx_skip]. Qed.

Ltac keeps_rx_step :=
  first
    [ apply keeps_rx_bind; [|intros ?]
    | apply keeps_rx_call
    | apply keeps_rx_get
    | apply keeps_rx_skip
    | apply keeps_rx_millis
    | apply keeps_rx_when
    | match goal with |- keeps_rx (if ?b then _ else _) => destruct b end
    | match goal with |- keeps_rx (match ?b with _ => _ end) => destruct b end
    | (intros ?; reflexivity) ].

Lemma keeps_rx_updateBarsAndTemps m : keeps_rx (updateBarsAndTemps m).
Proof. intros d. now rewrite updateBarsAndTemps_run. Qed.

Lemma keeps_rx_updateGpu m : keeps_rx (updateGpu m).
Proof. intros d. now rewrite updateGpu_run. Qed.

Lemma keeps_rx_Legacy_updateBarsAndTemps m : keeps_rx (Legacy.updateBarsAndTemps m).
Proof.
  unfold Legacy.updateBarsAndTemps.
  repeat first
    [ apply keeps_rx_updateGpu
    | match goal with
      | |- keeps_rx (updateBarFill _ _ _ lastCpuW) =>
          intros ?; now rewrite (updateBarFill_run _ _ _ _ _ lastCpuW_ok)
      | |- keeps_rx (updateBarFill _ _ _ lastRamW) =>
          intros ?; now rewrite (updateBarFill_run _ _ _ _ _ lastRamW_ok)
      | |- keeps_rx (Legacy.updateTemp _) =>
          unfold Legacy.updateTemp, Legacy.drawTemp; cbv zeta
      | |- keeps_rx (Legacy.updateGpuTemp _) =>
          unfold Legacy.updateGpuTemp; cbv zeta
      end
    | keeps_rx_step ].
Qed.

Lemma keeps_rx_Legacy_drawStatus : keeps_rx Legacy.drawStatus.
Proof. intros d. now rewrite Legacy_drawStatus_run. Qed.

(* ---- the serial-only firmware ---- *)

Lemma received_Legacy_serial_char c d :
  received (st (Legacy.serial_char c d)) =
  match snd (feed (rd lineBuf d) c) with
  | Some l => accept_line (received d) l
  | None => received d
  end.
Proof.
  unfold feed. destruct (Ascii.eqb c NL) eqn:E.
  - cbn [snd]. unfold Legacy.serial_char. rewrite E. cbv zeta.
    rewrite !st_bind. cbn [get set val st].
    change (received (wr lineBuf "" ?x)) with (received x).
    unfold accept_line.
    destruct (fst (parseLine (trim (rd lineBuf d)) Metrics_init)); cbn [when];
      [|reflexivity].
    rewrite !st_bind. cbn [get set millis val st].
    match goal with
    | |- received (st (Legacy.drawStatus (st (Legacy.updateBarsAndTemps ?m ?x)))) = _ =>
        destruct (received_rx _ _ (keeps_rx_Legacy_drawStatus
                                     (st (Legacy.updateBarsAndTemps m x)))) as [R1 _];
        destruct (received_rx _ _ (keeps_rx_Legacy_updateBarsAndTemps m x)) as [R2 _];
        rewrite R1, R2
    end.
    reflexivity.
  - assert (A : Legacy.serial_char c d = accumulate c d).
    { unfold Legacy.serial_char. now rewrite E. }
    rewrite A, accumulate_run. cbn [st].
    destruct (Ascii.eqb c CR); cbn [snd]; [reflexivity|].
    now destruct (strlen (rd lineBuf d) <? 128).
Qed.

Lemma received_Legacy_run input : forall d,
  received (st (for_each_char input Legacy.serial_char d)) =
    fold_left accept_line (fst (feed_all (rd lineBuf d) input)) (received d) /\
  rd lineBuf (st (for_each_char input Legacy.serial_char d)) =
    snd (feed_all (rd lineBuf d) input).
Proof.
  induction input as [|c r IH]; intros d; [split; reflexivity|].
  cbn [for_each_char feed_all]. rewrite st_bind.
  destruct (IH (st (Legacy.serial_char c d))) as [R L]. rewrite R, L.
  rewrite lineBuf_after_Legacy_serial_char, received_Legacy_serial_char.
  destruct (feed (rd lineBuf d) c) as [buf1 out]. cbn [fst snd].
  destruct (feed_all buf1 r) as [lines buf2]. cbn [fst snd].
  destruct out; split; reflexivity.
Qed.

(** X11. The serial-only firmware and the current one read the serial
    port alike: for the same bytes, from the same receive globals, they
    keep the same snapshot, the same last line and the same line buffer,
    whichever way the current firmware was built.  One iteration of the
    older [loop] keeps the snapshot of the last line that parses among the
    bytes waiting on the port. *)
Theorem legacy_firmware_keeps_the_same_snapshot (b : Build) (d : Device) (input : string) :
  received (st (for_each_char input Legacy.serial_char d)) =
    received (st (for_each_char input (serial_char b) d)) /\
  rd lineBuf (st (for_each_char input Legacy.serial_char d)) =
    rd lineBuf (st (for_each_char input (serial_char b) d)) /\
  received (st (Legacy.loop d)) =
    fold_left accept_line
      (fst (feed_all (rd lineBuf d) (rd Serial_pending d))) (received d) /\
  rd lineBuf (st (Legacy.loop d)) =
    snd (feed_all (rd lineBuf d) (rd Serial_pending d)).
Proof.
  destruct (received_Legacy_run input d) as [R L].
  rewrite R, L, serial_run_st, received_run_state, lineBuf_run_state.
  split; [reflexivity|]. split; [reflexivity|].
  assert (K : rx (st (Legacy.loop d)) =
              rx (st (for_each_char (rd Serial_pending d) Legacy.serial_char
                        (wr Serial_pending "" d)))).
  { unfold Legacy.loop. rewrite !st_bind. cbn [get set millis val st].
    match goal with
    | |- rx (st (when ?c ?body ?x)) = _ =>
        assert (F : keeps_rx (when c body))
          by (apply keeps_rx_when, keeps_rx_bind;
              [apply keeps_rx_Legacy_drawStatus|intros ? ?; reflexivity]);
        rewrite (F x)
    end.
    reflexivity. }
  destruct (received_rx _ _ K) as [R' L']. rewrite R', L'.
  destruct (received_Legacy_run (rd Serial_pending d) (wr Serial_pending "" d))
    as [R2 L2].
  rewrite R2, L2. split; reflexivity.
Qed.

(* ---- an accepted line keeps the panel on ---- *)

Lemma line_state_clock l d :
  clock (world (line_state l d)) = clock (world d) /\
  (ticks (world d) <= ticks (world (line_state l d)))%nat.
Proof.
  unfold line_state. cbv zeta.
  destruct (fst (parseLine l Metrics_init)); [|split; [reflexivity|lia]].
  destruct (rd isLcdOn d); split; try reflexivity; cbn; lia.
Qed.

Lemma line_state_lit n l d :
  (n <= ticks (world d))%nat ->
  fst (parseLine l Metrics_init) = true -> lit_since n (line_state l d).
Proof.
  intros Hn A. unfold line_state. cbv zeta. rewrite A.
  destruct (rd isLcdOn d) eqn:E.
  - split; [exact E|]. exists (ticks (world d)). split; [cbn; lia|reflexivity].
  - split; [reflexivity|]. exists (ticks (world d)). split; [cbn; lia|reflexivity].
Qed.

Lemma line_state_keeps_lit n l d :
  lit_since n d -> lit_since n (line_state l d).
Proof.
  intros H. destruct (fst (parseLine l Metrics_init)) eqn:A.
  - apply line_state_lit; [|exact A]. destruct H as (_ & k & Hk & _). lia.
  - unfold line_state. cbv zeta. now rewrite A.
Qed.

Lemma char_state_clock c d :
  clock (world (char_state c d)) = clock (world d) /\
  (ticks (world d) <= ticks (world (char_state c d)))%nat.
Proof.
  unfold char_state.
  change (world (wr lineBuf ?v ?x)) with (world x).
  destruct (snd (feed (rd lineBuf d) c)); [apply line_state_clock|].
  split; [reflexivity|lia].
Qed.

Lemma lit_since_wr_lineBuf n v d : lit_since n d -> lit_since n (wr lineBuf v d).
Proof. intros H. exact H. Qed.

Lemma char_state_keeps_lit n c d :
  lit_since n d -> lit_since n (char_state c d).
Proof.
  intros H. unfold char_state. apply lit_since_wr_lineBuf.
  destruct (snd (feed (rd lineBuf d) c)); [now apply line_state_keeps_lit|exact H].
Qed.

Lemma run_state_clock input : forall d,
  clock (world (run_state input d)) = clock (world d) /\
  (ticks (world d) <= ticks (world (run_state input d)))%nat.
Proof.
  induction input as [|c r IH]; intros d; cbn [run_state]; [split; [reflexivity|lia]|].
  destruct (IH (char_state c d)) as [A B].
  destruct (char_state_clock c d) as [A' B']. rewrite A, A'. split; [reflexivity|lia].
Qed.

Lemma run_state_keeps_lit n input : forall d,
  lit_since n d -> lit_since n (run_state input d).
Proof.
  induction input as [|c r IH]; intros d H; [exact H|].
  cbn [run_state]. now apply IH, char_state_keeps_lit.
Qed.

Lemma run_state_lit n input : forall d,
  (n <= ticks (world d))%nat ->
  some_accepted (fst (feed_all (rd lineBuf d) input)) = true ->
  lit_since n (run_state input d).
Proof.
  induction input as [|c r IH]; intros d Hn H; [discriminate|].
  cbn [run_state]. cbn [feed_all] in H.
  pose proof (lineBuf_char_state c d) as L.
  pose proof (char_state_clock c d) as [_ T].
  unfold char_state in *.
  destruct (feed (rd lineBuf d) c) as [buf1 out]. cbn [fst snd] in *.
  destruct (feed_all buf1 r) as [lines buf2] eqn:F. cbn [fst] in H.
  destruct out as [l|].
  - cbn [some_accepted existsb] in H. apply orb_prop in H as [H|H].
    + apply run_state_keeps_lit, lit_since_wr_lineBuf. now apply line_state_lit.
    + apply IH; [lia|]. rewrite L, F. exact H.
  - apply IH; [lia|]. rewrite L, F. exact H.
Qed.

Lemma some_accepted_app a b :
  some_accepted (a ++ b) = some_accepted a || some_accepted b.
Proof. apply existsb_app. Qed.

Lemma lit_not_due n d :
  (forall k, (n <= k < ticks (world d))%nat ->
     0 <= clock (world d) (ticks (world d)) - clock (world d) k
       <= LCD_SLEEP_TIMEOUT_MS) ->
  lit_since n d -> sleep_due d = false.
Proof.
  intros Hc (_ & k & Hk & E). unfold sleep_due, time_now. rewrite E.
  specialize (Hc k Hk).
  rewrite usub_elapsed.
  - rewrite Z.gtb_ltb. apply Z.ltb_ge. lia.
  - unfold LCD_SLEEP_TIMEOUT_MS, UINT_MOD in *. lia.
Qed.

(** The sleep check and the status redraw read the clock after the two
    transports have been read. *)
Lemma loop_ticks b d :
  (ticks (world (after_input b d)) < ticks (world (st (loop b d))))%nat.
Proof.
  rewrite loop_st, loop_status_run, loop_sleep_check_run.
  destruct (rd isLcdOn (after_input b d) && sleep_due (after_input b d));
    cbn [st]; destruct (status_due _); cbn; lia.
Qed.

Lemma after_ble_clock b d :
  clock (world (after_ble b d)) = clock (world d) /\
  (ticks (world d) <= ticks (world (after_ble b d)))%nat.
Proof.
  unfold after_ble. destruct b; try (split; [reflexivity|lia]).
  destruct (rd haveBlePacket d); [|split; [reflexivity|lia]].
  change (world (wr lastBlePacket "" (wr haveBlePacket false ?x))) with (world x).
  destruct (String.eqb _ ""); [split; [reflexivity|lia]|].
  apply run_state_clock.
Qed.

Lemma after_ble_lit n b d :
  (n <= ticks (world d))%nat ->
  some_accepted (fst (feed_all (rd lineBuf d) (ble_bytes b d))) = true ->
  lit_since n (after_ble b d).
Proof.
  unfold after_ble, ble_bytes. intros Hn H.
  destruct b; try discriminate.
  destruct (rd haveBlePacket d); [|discriminate].
  destruct (String.eqb _ ""); [discriminate|].
  change (lit_since n (wr lastBlePacket "" (wr haveBlePacket false ?x)))
    with (lit_since n x).
  now apply run_state_lit.
Qed.

Lemma after_input_clock b d :
  clock (world (after_input b d)) = clock (world d) /\
  (ticks (world d) <= ticks (world (after_input b d)))%nat.
Proof.
  unfold after_input. cbv zeta.
  destruct (run_state_clock (rd Serial_pending (after_ble b (tick d)))
              (wr Serial_pending "" (after_ble b (tick d)))) as [A B].
  destruct (after_ble_clock b (tick d)) as [A' B'].
  rewrite A.
  change (clock (world (wr Serial_pending "" ?x))) with (clock (world x)).
  change (ticks (world (wr Serial_pending "" ?x))) with (ticks (world x)) in B.
  rewrite A'. split; [reflexivity|].
  change (ticks (world (tick d))) with (S (ticks (world d))) in B'. lia.
Qed.

Lemma after_input_lit b d :
  some_accepted (fst (feed_all (rd lineBuf d) (loop_input b d))) = true ->
  lit_since (ticks (world d)) (after_input b d).
Proof.
  unfold loop_input. rewrite feed_all_app. cbn [fst].
  rewrite some_accepted_app. intros H.
  unfold after_input. cbv zeta.
  assert (P : rd Serial_pending (after_ble b (tick d)) = rd Serial_pending d).
  { unfold after_ble. destruct b; try reflexivity.
    change (rd haveBlePacket (tick d)) with (rd haveBlePacket d).
    destruct (rd haveBlePacket d); [|reflexivity].
    change (rd Serial_pending (wr lastBlePacket "" (wr haveBlePacket false ?x)))
      with (rd Serial_pending x).
    destruct (String.eqb _ ""); [reflexivity|].
    now destruct (run_state_frame (ble_incoming (rd lastBlePacket (tick d))) (tick d)). }
  rewrite P.
  destruct (after_ble_run b (tick d)) as [_ L].
  change (rd lineBuf (tick d)) with (rd lineBuf d) in L.
  change (ble_bytes b (tick d)) with (ble_bytes b d) in L.
  destruct (after_ble_clock b (tick d)) as [_ T].
  change (ticks (world (tick d))) with (S (ticks (world d))) in T.
  apply orb_prop in H as [H|H].
  - apply run_state_keeps_lit.
    change (lit_since ?n (wr Serial_pending "" ?x)) with (lit_since n x).
    apply after_ble_lit; [cbn; lia|exact H].
  - apply run_state_lit.
    + change (ticks (world (wr Serial_pending "" ?x))) with (ticks (world x)). lia.
    + change (rd lineBuf (wr Serial_pending "" ?x)) with (rd lineBuf x).
      now rewrite L.
Qed.

Lemma fold_accept_keeps lines : forall s,
  snd s = true -> snd (fold_left accept_line lines s) = true.
Proof.
  induction lines as [|l r IH]; intros s H; [exact H|].
  cbn [fold_left]. apply IH. unfold accept_line.
  now destruct (fst (parseLine l Metrics_init)).
Qed.

Lemma fold_accept_some lines : forall s,
  some_accepted lines = true -> snd (fold_left accept_line lines s) = true.
Proof.
  induction lines as [|l r IH]; intros s H; [discriminate|].
  cbn [fold_left]. cbn [some_accepted existsb] in H.
  destruct (fst (parseLine l Metrics_init)) eqn:A.
  - apply fold_accept_keeps. unfold accept_line. now rewrite A.
  - apply IH. exact H.
Qed.

(** X12. Data keeps the panel on.  If between the readings of the clock
    that an iteration of [loop] takes the clock does not run backwards and
    advances by no more than the sleep timeout, and one of the lines
    completed in the iteration parses, then the panel is on when the
    iteration ends, whether it was on or off before and however long ago
    the snapshot before this one came; this holds across the wrap of the
    32-bit millisecond counter. *)
Theorem accepted_line_keeps_panel_on (b : Build) (d : Device) :
  (forall i j,
     (ticks (world d) <= i)%nat -> (i <= j)%nat ->
     (j < ticks (world (st (loop b d))))%nat ->
     0 <= clock (world d) j - clock (world d) i <= LCD_SLEEP_TIMEOUT_MS) ->
  some_accepted (fst (feed_all (rd lineBuf d) (loop_input b d))) = true ->
  rd isLcdOn (st (loop b d)) = true /\
  rd receivedOnce (st (loop b d)) = true.
Proof.
  intros Hc H.
  pose proof (after_input_lit b d H) as Q.
  destruct (after_input_clock b d) as [C _].
  pose proof (loop_ticks b d) as T.
  split.
  - rewrite loop_st, isLcdOn_after_status, isLcdOn_after_sleep_check.
    rewrite (lit_not_due (ticks (world d)) (after_input b d)); [| |exact Q].
    + destruct Q as [Q _]. now rewrite Q.
    + intros k Hk. rewrite C. apply Hc; lia.
  - destruct (received_rx _ _ (loop_rx b d)) as [R _].
    destruct (after_input_run b d) as [R' _].
    change (rd receivedOnce (st (loop b d))) with (snd (received (st (loop b d)))).
    rewrite R, R'. now apply fold_accept_some.
Qed.

Lemma accepted_line_keeps_panel_on_witness :
  rd isLcdOn across_wrap = false /\
  millis_at (time_now across_wrap) = 4294967293 /\
  rd lastRxMillis (st (loop NO_BLUETOOTH across_wrap)) = 2 /\
  rd isLcdOn (st (loop NO_BLUETOOTH across_wrap)) = true.
Proof.
  split; [reflexivity|]. split; [reflexivity|]. split; [vm_compute; reflexivity|].
  refine (proj1 (accepted_line_keeps_panel_on NO_BLUETOOTH across_wrap _ _)).
  - intros i j H1 H2 H3.
    assert (T : ticks (world (st (loop NO_BLUETOOTH across_wrap))) = 6%nat)
      by (vm_compute; reflexivity).
    rewrite T in H3.
    change (0 <= (4294967293 + 5 * Z.of_nat j) - (4294967293 + 5 * Z.of_nat i)
              <= 60000).
    lia.
  - vm_compute. reflexivity.
Defined.

(* ---- setup ---- *)

(** X13. [setup] throws away whatever bytes wait on the serial port when
    it runs: apart from that it only fixes the layout and, in the BLE
    build, creates the notify characteristic.  With no BLE packet
    waiting, the first iteration of [loop] after it therefore finds
    nothing to parse: the receive globals and the line buffer are as they
    were before [setup], and nothing is sent. *)
Theorem setup_discards_stale_serial_input (b : Build) (d : Device) :
  rd haveBlePacket d = false ->
  st (setup b d) =
    wr Serial_pending ""
      (layout_state (match b with
                     | RPC_BLE_SUPPORTED => wr metricsCharacteristic true d
                     | _ => d
                     end)) /\
  rd Serial_pending (st (setup b d)) = "" /\
  received (st (loop b (st (setup b d)))) = received d /\
  rd lineBuf (st (loop b (st (setup b d)))) = rd lineBuf d.
Proof.
  intros Hb.
  assert (E : st (setup b d) =
    wr Serial_pending ""
      (layout_state (match b with
                     | RPC_BLE_SUPPORTED => wr metricsCharacteristic true d
                     | _ => d
                     end))).
  { unfold setup. rewrite !st_bind. cbn [call set val st].
    rewrite drawStaticLayoutOnce_run. cbn [st].
    destruct b; reflexivity. }
  split; [exact E|]. rewrite E.
  split; [apply (rd_wr _ Serial_pending_ok)|].
  set (d1 := wr Serial_pending "" _).
  destruct (received_rx _ _ (loop_rx b d1)) as [R L].
  destruct (after_input_run b d1) as [R' L'].
  assert (I : loop_input b d1 = "").
  { unfold loop_input, ble_bytes.
    replace (rd haveBlePacket d1) with false
      by (subst d1; destruct b; symmetry; exact Hb).
    replace (rd Serial_pending d1) with ""
      by (subst d1; symmetry; apply (rd_wr _ Serial_pending_ok)).
    now destruct b. }
  rewrite R, L, R', L', I. cbn [feed_all fst snd fold_left].
  subst d1. destruct b; split; reflexivity.
Qed.

Lemma setup_discards_stale_serial_input_witness :
  let d := power_on (mkWorld ("1,2,3,4,5" ++ line_end) (fun _ => 0) 0) in
  rd Serial_pending d = "1,2,3,4,5" ++ line_end /\
  rd Serial_pending (st (setup NO_BLUETOOTH d)) = "" /\
  received (st (loop NO_BLUETOOTH (st (setup NO_BLUETOOTH d)))) = received d.
Proof.
  cbv zeta. split; [reflexivity|].
  pose proof (setup_discards_stale_serial_input NO_BLUETOOTH
                (power_on (mkWorld ("1,2,3,4,5" ++ line_end) (fun _ => 0) 0))
                eq_refl) as H.
  destruct H as (_ & A & B & _). split; [exact A|exact B].
Defined.
